(** * create-repo: template composition and file merging

    A shallow embedding of [packages/create-repo/src/index.ts]: the
    filesystem calls of the script act on a tree of directories and files,
    the script's functions are state-passing programs over that tree, and
    the statements at the end are about those programs.

    What the embedding takes for granted:
    - the templates lie outside the target directory, so a template is
      given as the tree the script reads and the destination as a path in
      the tree it writes;
    - there are no symbolic links, and a file is its bytes (modes and
      times are left out);
    - [JSON.parse] and [JSON.stringify] are parameters, and so are
      JavaScript's numbers;
    - lodash's [mergeWith] is followed as lodash 4.17 has it ([baseMerge],
      [baseMergeDeep], [safeGet]) for two documents that are objects;
    - the user answers every prompt, and [argv._[0]] is a string when it
      is there. *)

From Stdlib Require Import String Ascii List Bool ZArith.
Import ListNotations.
Open Scope string_scope.
Open Scope list_scope.

(** ** Strings *)

(** [s.split(sep)] for a one-character separator. *)
Fixpoint split (sep : ascii) (s : string) : list string :=
  match s with
  | EmptyString => [EmptyString]
  | String c s' =>
      if Ascii.eqb c sep then EmptyString :: split sep s'
      else match split sep s' with
           | [] => [String c EmptyString]
           | h :: t => String c h :: t
           end
  end.

(** The white space [String.prototype.trim] removes (WhiteSpace and
    LineTerminator of ECMAScript), as it stands in the UTF-8 bytes of a
    file that [toString()] decodes.  One byte: tab, line feed, vertical
    tab, form feed, carriage return, space. *)
Definition isWhiteSpace (c : ascii) : bool :=
  let n := nat_of_ascii c in
  ((9 <=? n) && (n <=? 13))%nat || (n =? 32)%nat.

(** Two bytes: U+00A0 (C2 A0). *)
Definition isWhiteSpace2 (c1 c2 : ascii) : bool :=
  ((nat_of_ascii c1 =? 194) && (nat_of_ascii c2 =? 160))%nat.

(** Three bytes: U+1680 (E1 9A 80); U+2000 to U+200A, U+2028, U+2029 and
    U+202F (E2 80 80 to 8A, A8, A9, AF); U+205F (E2 81 9F); U+3000
    (E3 80 80); U+FEFF (EF BB BF). *)
Definition isWhiteSpace3 (c1 c2 c3 : ascii) : bool :=
  let n1 := nat_of_ascii c1 in
  let n2 := nat_of_ascii c2 in
  let n3 := nat_of_ascii c3 in
  ((n1 =? 225) && (n2 =? 154) && (n3 =? 128)
   || (n1 =? 226) && (n2 =? 128)
      && (((128 <=? n3) && (n3 <=? 138)) || (n3 =? 168) || (n3 =? 169) || (n3 =? 175))
   || (n1 =? 226) && (n2 =? 129) && (n3 =? 159)
   || (n1 =? 227) && (n2 =? 128) && (n3 =? 128)
   || (n1 =? 239) && (n2 =? 187) && (n3 =? 191))%nat.

Fixpoint trimStart (s : string) : string :=
  match s with
  | String c1 s1 =>
      if isWhiteSpace c1 then trimStart s1
      else
        match s1 with
        | String c2 s2 =>
            if isWhiteSpace2 c1 c2 then trimStart s2
            else
              match s2 with
              | String c3 s3 => if isWhiteSpace3 c1 c2 c3 then trimStart s3 else s
              | EmptyString => s
              end
        | EmptyString => s
        end
  | EmptyString => EmptyString
  end.

Definition reverse (s : string) : string :=
  string_of_list_ascii (rev (list_ascii_of_string s)).

(** [trimEnd] on the reversed string: the bytes of a character come last
    byte first. *)
Fixpoint trimStartReversed (r : string) : string :=
  match r with
  | String c3 r1 =>
      if isWhiteSpace c3 then trimStartReversed r1
      else
        match r1 with
        | String c2 r2 =>
            if isWhiteSpace2 c2 c3 then trimStartReversed r2
            else
              match r2 with
              | String c1 r3 =>
                  if isWhiteSpace3 c1 c2 c3 then trimStartReversed r3 else r
              | EmptyString => r
              end
        | EmptyString => r
        end
  | EmptyString => EmptyString
  end.

Definition trimEnd (s : string) : string := reverse (trimStartReversed (reverse s)).

Definition trim (s : string) : string := trimEnd (trimStart s).

(** [file.replace(/^\._/, ".")] *)
Definition replace_dot_underscore (file : string) : string :=
  match file with
  | String "." (String "_" rest) => String "." rest
  | _ => file
  end.

(** [override.replace(/^with-/, "")] *)
Definition replace_with_prefix (override : string) : string :=
  match override with
  | String "w" (String "i" (String "t" (String "h" (String "-" rest)))) => rest
  | _ => override
  end.

(** [xs.includes(x)] on an array of strings. *)
Definition includes (xs : list string) (x : string) : bool :=
  existsb (String.eqb x) xs.

(** ** Property lists

    Directory listings and object properties are kept as association lists:
    a key occurs once, a new key goes to the end, an existing key keeps its
    place. *)

Section Assoc.
Context {A : Type}.

Fixpoint assoc (k : string) (l : list (string * A)) : option A :=
  match l with
  | [] => None
  | (k', v) :: l' => if k' =? k then Some v else assoc k l'
  end.

Fixpoint set_entry (k : string) (v : A) (l : list (string * A)) : list (string * A) :=
  match l with
  | [] => [(k, v)]
  | (k', v') :: l' => if k' =? k then (k, v) :: l' else (k', v') :: set_entry k v l'
  end.

Fixpoint remove_entry (k : string) (l : list (string * A)) : list (string * A) :=
  match l with
  | [] => []
  | (k', v') :: l' => if k' =? k then l' else (k', v') :: remove_entry k l'
  end.

End Assoc.

(** ** The filesystem *)

(** What [statSync] tells of an entry: a regular file with its bytes, a
    directory with its listing (in [readdirSync] order), or something that
    is neither ([isFile()] and [isDirectory()] both false: a FIFO, a
    socket, a device). *)
#[warnings="-register-all"]
Inductive node : Type :=
| File (data : string)
| Dir (entries : list (string * node))
| Other.

(** A path is the list of its segments below the root of the tree. *)
Definition path := list string.

(** [path.join(base, rel)]: the segments of [rel] are appended one by one;
    empty and ["."] segments vanish and [".."] drops the last segment. *)
Definition join_segment (base : path) (seg : string) : path :=
  if (seg =? "") || (seg =? ".") then base
  else if seg =? ".." then removelast base
  else base ++ [seg].

Definition path_join (base : path) (rel : string) : path :=
  fold_left join_segment (split "/" rel) base.

(** Node's error codes, the two JavaScript errors the script can raise, and
    [OutsideModel] for the inputs this embedding does not cover. *)
Inductive error : Type :=
| ENOENT | ENOTDIR | EISDIR | EEXIST | ENOTEMPTY
| SyntaxError
| UnhandledCaseError (message : string)
| OutsideModel.

Inductive result (A : Type) : Type :=
| Ok (a : A)
| Throw (e : error).
Arguments Ok {A} a.
Arguments Throw {A} e.

Definition is_ok {A} (r : result A) : bool :=
  match r with Ok _ => true | Throw _ => false end.

(** Walking a path down the tree. *)
Fixpoint resolve (p : path) (n : node) : result node :=
  match p with
  | [] => Ok n
  | x :: p' =>
      match n with
      | Dir es =>
          match assoc x es with
          | Some c => resolve p' c
          | None => Throw ENOENT
          end
      | _ => Throw ENOTDIR
      end
  end.

(** Putting a node at a path: the parent has to be an existing directory;
    an existing entry is replaced where it stands, a new one is added. *)
Fixpoint store (p : path) (new : node) (n : node) : result node :=
  match p with
  | [] => Ok new
  | x :: p' =>
      match n with
      | Dir es =>
          match p' with
          | [] => Ok (Dir (set_entry x new es))
          | _ :: _ =>
              match assoc x es with
              | Some c =>
                  match store p' new c with
                  | Ok c' => Ok (Dir (set_entry x c' es))
                  | Throw e => Throw e
                  end
              | None => Throw ENOENT
              end
          end
      | _ => Throw ENOTDIR
      end
  end.

(** Taking the entry at a path out of its directory. *)
Fixpoint unlink (p : path) (n : node) : result node :=
  match p with
  | [] => Throw EISDIR
  | x :: p' =>
      match n with
      | Dir es =>
          match assoc x es with
          | Some c =>
              match p' with
              | [] => Ok (Dir (remove_entry x es))
              | _ :: _ =>
                  match unlink p' c with
                  | Ok c' => Ok (Dir (set_entry x c' es))
                  | Throw e => Throw e
                  end
              end
          | None => Throw ENOENT
          end
      | _ => Throw ENOTDIR
      end
  end.

(** [mkdirSync(p, { recursive: true })] on the tree. *)
Fixpoint mkdir_p (p : path) (n : node) : result node :=
  match p with
  | [] => match n with Dir _ => Ok n | _ => Throw EEXIST end
  | x :: p' =>
      match n with
      | Dir es =>
          match mkdir_p p' (match assoc x es with Some c => c | None => Dir [] end) with
          | Ok c' => Ok (Dir (set_entry x c' es))
          | Throw e => Throw e
          end
      | _ => Throw ENOTDIR
      end
  end.

(** ** The world and its programs *)

(** What the script does besides writing files: it asks questions, prints,
    and (kept as a ghost record, for the statements about [init]) composes
    templates. *)
Inductive event : Type :=
| Prompt (name : string)
| ConsoleLogContents (existingFileContent templateFileContent : list string)
| ConsoleLog (message : string)
| Compose (template : string) (options : list string).

Record world : Type := World { fs : node; trace : list event }.

(** A program reads and changes the world; when it throws, what it did
    before stays done. *)
Definition M (A : Type) : Type := world -> result A * world.

Definition ret {A} (a : A) : M A := fun w => (Ok a, w).

Definition throw {A} (e : error) : M A := fun w => (Throw e, w).

Definition bind {A B} (m : M A) (k : A -> M B) : M B :=
  fun w =>
    match m w with
    | (Ok a, w') => k a w'
    | (Throw e, w') => (Throw e, w')
    end.

Notation "x <- m ;; k" := (bind m (fun x => k))
  (at level 61, m at next level, right associativity).
Notation "m ;; k" := (bind m (fun _ => k))
  (at level 61, right associativity).

Definition emit (e : event) : M unit :=
  fun w => (Ok tt, World (fs w) (trace w ++ [e])).

(** Running a pure step on the tree. *)
Definition on_fs (f : node -> result node) : M unit :=
  fun w =>
    match f (fs w) with
    | Ok n => (Ok tt, World n (trace w))
    | Throw e => (Throw e, w)
    end.

(** [xs.forEach(f)] *)
Definition forEach {A} (f : A -> M unit) : list A -> M unit :=
  fix go (xs : list A) : M unit :=
    match xs with
    | [] => ret tt
    | x :: xs' => f x ;; go xs'
    end.

(** *** [fs] calls *)

Definition existsSync (p : path) : M bool :=
  fun w => (Ok (is_ok (resolve p (fs w))), w).

Definition readFileSync (p : path) : M string :=
  fun w =>
    match resolve p (fs w) with
    | Ok (File data) => (Ok data, w)
    | Ok (Dir _) => (Throw EISDIR, w)
    | Ok Other => (Throw OutsideModel, w)
    | Throw e => (Throw e, w)
    end.

Definition readdirSync (p : path) : M (list string) :=
  fun w =>
    match resolve p (fs w) with
    | Ok (Dir es) => (Ok (map fst es), w)
    | Ok _ => (Throw ENOTDIR, w)
    | Throw e => (Throw e, w)
    end.

(** [writeFileSync(p, data)]: creates the file or replaces its bytes. *)
Definition writeFileSync (p : path) (data : string) : M unit :=
  fun w =>
    match resolve p (fs w) with
    | Ok (Dir _) => (Throw EISDIR, w)
    | Ok Other => (Throw OutsideModel, w)
    | _ => on_fs (store p (File data)) w
    end.

(** [copyFileSync(src, dest)], [src] being a regular file of the template
    whose bytes are [data]. *)
Definition copyFileSync (data : string) (dest : path) : M unit :=
  writeFileSync dest data.

Definition mkdirSync (p : path) : M unit :=
  fun w =>
    match resolve p (fs w) with
    | Ok _ => (Throw EEXIST, w)
    | Throw _ => on_fs (store p (Dir [])) w
    end.

Definition mkdirSync_recursive (p : path) : M unit :=
  on_fs (mkdir_p p).

Definition rmdirSync (p : path) : M unit :=
  fun w =>
    match resolve p (fs w) with
    | Ok (Dir []) => on_fs (unlink p) w
    | Ok (Dir (_ :: _)) => (Throw ENOTEMPTY, w)
    | Ok _ => (Throw ENOTDIR, w)
    | Throw e => (Throw e, w)
    end.

Definition unlinkSync (p : path) : M unit :=
  fun w =>
    match resolve p (fs w) with
    | Ok (Dir _) => (Throw EISDIR, w)
    | Ok _ => on_fs (unlink p) w
    | Throw e => (Throw e, w)
    end.

(** ** JSON values and lodash's [mergeWith] *)

Section Script.

(** JavaScript's numbers, and when two of them are the same member of a
    [Set] (SameValueZero).  Nothing below looks inside a number. *)
Variable number : Type.
Variable number_eqb : number -> number -> bool.

(** What [JSON.parse] returns.  An object is the list of its own
    properties, each key once. *)
#[warnings="-register-all"]
Inductive json : Type :=
| JNull
| JBool (b : bool)
| JNumber (n : number)
| JString (s : string)
| JArray (items : list json)
| JObject (props : list (string * json)).

(** lodash's [isObject]: arrays and objects, not [null]. *)
Definition isObject (v : json) : bool :=
  match v with
  | JArray _ | JObject _ => true
  | _ => false
  end.

(** The comparison a [Set] makes of its members (SameValueZero).  Two
    primitives are the same when they are equal.  An array or an object is
    the same as itself only, and every array and object that [JSON.parse]
    returns is a new one: among the members of two parsed documents no two
    arrays or objects are the same. *)
Definition sameValueZero (a b : json) : bool :=
  match a, b with
  | JNull, JNull => true
  | JBool x, JBool y => Bool.eqb x y
  | JNumber x, JNumber y => number_eqb x y
  | JString x, JString y => String.eqb x y
  | _, _ => false
  end.

(** [Array.from(new Set(xs))]: the members in the order they were first
    added. *)
Definition set_add (seen : list json) (x : json) : list json :=
  if existsb (sameValueZero x) seen then seen else seen ++ [x].

Definition array_from_set (xs : list json) : list json :=
  fold_left set_add xs [].

(** [a.concat(b)]: an array argument is spread, anything else is added as
    one member. *)
Definition concat (a : list json) (b : json) : list json :=
  match b with
  | JArray ys => a ++ ys
  | _ => a ++ [b]
  end.

(** The customizer [mergeJsonFile] hands to [mergeWith]:
    [(a, b) => { if (isArray(a)) return Array.from(new Set(a.concat(b))); }].
    [None] stands for [undefined]. *)
Definition customizer (a : option json) (b : json) : option json :=
  match a with
  | Some (JArray xs) => Some (JArray (array_from_set (concat xs b)))
  | _ => None
  end.

(** lodash's [safeGet]: the value of a property, [undefined] for the key
    [__proto__]. *)
Definition safeGet (object : list (string * json)) (key : string) : option json :=
  if key =? "__proto__" then None else assoc key object.

(** lodash's [isArrayLike] holds of a plain object whose [length] is a
    valid array length; here, of every object whose [length] is a number. *)
Definition isArrayLike (object : list (string * json)) : bool :=
  match assoc "length" object with
  | Some (JNumber _) => true
  | _ => false
  end.

Section MergeWith.

(** The customizer of the call, as lodash gets it. *)
Variable customize : option json -> json -> option json.

(** lodash's [baseMerge] on the own properties of [source], given the
    function that merges one value ([baseMergeDeep] below).  Under the key
    [__proto__] [safeGet] hides an array or object of the source, and the
    property is passed over. *)
Definition baseMergeWith (deep : option json -> json -> option json)
  : list (string * json) -> list (string * json) -> option (list (string * json)) :=
  fix go (source object : list (string * json)) :=
    match source with
    | [] => Some object
    | (key, srcValue) :: rest =>
        if (key =? "__proto__") && isObject srcValue then go rest object
        else match deep (safeGet object key) srcValue with
             | Some newValue => go rest (set_entry key newValue object)
             | None => None
             end
    end.

(** The clone of an array into a new one, member by member. *)
Definition cloneItems (deep : option json -> json -> option json)
  : list json -> option (list json) :=
  fix go (items : list json) :=
    match items with
    | [] => Some []
    | x :: rest =>
        match deep None x, go rest with
        | Some x', Some rest' => Some (x' :: rest')
        | _, _ => None
        end
    end.

(** The value [baseMerge] assigns under a key whose value is [objValue] in
    the destination and [srcValue] in the source: what the customizer
    returns when that is not [undefined]; otherwise a primitive of the
    source as it is, an array of the source cloned, and an object of the
    source merged into the destination's object (into a new object when the
    destination has none).  [None]: the cases left out of this embedding,
    which lodash treats by index (an array or an array-like object in the
    destination that the customizer declined; the customizer of this
    script declines no array). *)
Fixpoint baseMergeDeep (objValue : option json) (srcValue : json) {struct srcValue}
  : option json :=
  match customize objValue srcValue with
  | Some newValue => Some newValue
  | None =>
      match srcValue with
      | JArray items =>
          match objValue with
          | Some (JArray _) => None
          | Some (JObject object) =>
              if isArrayLike object then None
              else option_map JArray (cloneItems baseMergeDeep items)
          | _ => option_map JArray (cloneItems baseMergeDeep items)
          end
      | JObject source =>
          match objValue with
          | Some (JArray _) => None
          | Some (JObject object) =>
              option_map JObject (baseMergeWith baseMergeDeep source object)
          | _ => option_map JObject (baseMergeWith baseMergeDeep source [])
          end
      | _ => Some srcValue
      end
  end.

Definition baseMerge : list (string * json) -> list (string * json)
  -> option (list (string * json)) :=
  baseMergeWith baseMergeDeep.

(** [mergeWith(object, source, customizer)] for two objects.  [None]: a
    document that is not an object, and the cases [baseMergeDeep] leaves
    out. *)
Definition mergeWith (object source : json) : option json :=
  match object, source with
  | JObject o, JObject s => option_map JObject (baseMerge s o)
  | _, _ => None
  end.

End MergeWith.

(** ** The script *)

(** The table [mergeFiles]. *)
Definition mergeFiles : list (string * string) :=
  [ (".eslintrc", "json");
    ("package.json", "json");
    ("lerna.json", "json");
    (".gitignore", "append");
    (".prettierignore", "append") ].

(** [Object.keys(mergeFiles).includes(file)] *)
Definition isMergeable (file : string) : bool :=
  includes (map fst mergeFiles) file.

(** The message [new UnhandledCaseError(variable, message)] ends up with:
    [message] unless it is empty. *)
Definition unhandledCaseMessage (variable : option string) (message : string) : string :=
  if message =? "" then
    match variable with
    | Some v => "Unhandled case whith variable of type string with value " ++ v
    | None => "Unhandled case whith variable of type undefined with value undefined"
    end%string
  else message.

(** What the user types and ticks at the three prompts. *)
Record answers : Type := Answers {
  name : string;
  yes : bool;
  options : list string
}.

(** An absolute path as a string: a [/] before every segment, a [/] at the
    end when [trailingSeparator] says so, and [/] alone for the root. *)
Definition show_path (p : path) (trailingSeparator : bool) : string :=
  match p with
  | [] => "/"
  | _ :: _ =>
      (fold_left (fun s seg => s ++ "/" ++ seg) p ""
       ++ (if trailingSeparator then "/" else ""))%string
  end.

Fixpoint endsWithSlash (s : string) : bool :=
  match s with
  | EmptyString => false
  | String c EmptyString => Ascii.eqb c "/"
  | String _ s' => endsWithSlash s'
  end.

(** The string [path.join(base, rel)] returns, [base] being an absolute
    path without [/] at its end, as [process.cwd()] is: the normalised
    path, which keeps a [/] at the end of [rel]. *)
Definition path_join_text (base : path) (rel : string) : string :=
  show_path (path_join base rel) (endsWithSlash rel).

Section Composer.

(** [JSON.parse] ([None] when it throws a [SyntaxError]) and
    [v => JSON.stringify(v, null, 2)], as the JavaScript engine has them,
    on texts given by their UTF-8 bytes. *)
Variable JSON_parse : string -> option json.
Variable JSON_stringify : json -> string.

Definition parse (text : string) : M json :=
  match JSON_parse text with
  | Some v => ret v
  | None => throw SyntaxError
  end.

(** [mergeJsonFile(existing, template)]; [template] is given by the bytes
    of the template's file. *)
Definition mergeJsonFile (existing : path) (template : string) : M unit :=
  existingText <- readFileSync existing ;;
  existingFileContent <- parse (trim existingText) ;;
  templateFileContent <- parse (trim template) ;;
  match mergeWith customizer existingFileContent templateFileContent with
  | Some content => writeFileSync existing (JSON_stringify content)
  | None => throw OutsideModel
  end.

(** [appendFiles(existing, template)] *)
Definition appendFiles (existing : path) (template : string) : M unit :=
  existingText <- readFileSync existing ;;
  let existingFileContent := split "010" existingText in
  let templateFileContent := split "010" template in
  emit (ConsoleLogContents existingFileContent templateFileContent).

(** The [switch (mergeStrategy)] of [copyTemplate]. *)
Definition mergeFile (mergeStrategy : option string) (targetFilePath : path)
  (template : string) : M unit :=
  let unhandled : M unit :=
    throw (UnhandledCaseError
             (unhandledCaseMessage mergeStrategy "Unhandled file merge strategy")) in
  match mergeStrategy with
  | Some strategy =>
      if strategy =? "json" then mergeJsonFile targetFilePath template
      else if strategy =? "append" then appendFiles targetFilePath template
      else unhandled
  | None => unhandled
  end.

(** The file branch of [copyTemplate]'s loop body. *)
Definition copyTemplateFile (dest : path) (actualFileName : string) (data : string)
  : M unit :=
  let targetFilePath := path_join dest actualFileName in
  present <- existsSync targetFilePath ;;
  if negb present || negb (isMergeable actualFileName) then
    copyFileSync data targetFilePath
  else
    mergeFile (assoc actualFileName mergeFiles) targetFilePath data.

(** The body of [copyTemplate]'s loop for one entry [file] of the template,
    [copy] being [copyTemplate] itself. *)
Definition copyTemplateEntry (copy : node -> path -> list string -> M unit)
  (dest : path) (options : list string) (entry : string * node) : M unit :=
  let (file, stat) := entry in
  let actualFileName := replace_dot_underscore file in
  let targetFilePath := path_join dest actualFileName in
  match stat with
  | Dir children =>
      if file =? ".tsukemono" then
        forEach (fun override : string * node =>
                   let (overrideName, overrideDir) := override in
                   match overrideDir with
                   | Dir _ =>
                       if includes options (replace_with_prefix overrideName)
                       then copy overrideDir dest []
                       else ret tt
                   | _ => ret tt
                   end) children
      else
        present <- existsSync targetFilePath ;;
        (if negb present then mkdirSync targetFilePath else ret tt) ;;
        copy stat targetFilePath options
  | File data => copyTemplateFile dest actualFileName data
  | Other => ret tt
  end.

(** [copyTemplate(template, dest, options)].  The template is the tree
    that [readdirSync], [statSync] and [readFileSync] find at the path
    [template]; it lies outside the destination, so that nothing written
    to [dest] changes it. *)
Fixpoint copyTemplate (template : node) (dest : path) (options : list string)
  {struct template} : M unit :=
  match template with
  | Dir files => forEach (copyTemplateEntry copyTemplate dest options) files
  | _ => throw ENOTDIR
  end.

(** [emptyDir(dir)].  The loop follows the tree found at [dir]: what it
    removes on the way lies in other branches than the one it reads
    next. *)
Fixpoint emptyTree (tree : node) (dir : path) {struct tree} : M unit :=
  match tree with
  | Dir entries =>
      forEach (fun entry : string * node =>
                 let (file, stat) := entry in
                 let abs := path_join dir file in
                 match stat with
                 | Dir _ => emptyTree stat abs ;; rmdirSync abs
                 | _ => unlinkSync abs
                 end) entries
  | _ => throw ENOTDIR
  end.

Definition emptyDir (dir : path) : M unit :=
  fun w =>
    match resolve dir (fs w) with
    | Ok tree => emptyTree tree dir w
    | Throw _ => (Ok tt, w)
    end.

(** [copy(src, dest)] and [copyDir(srcDir, destDir)]; the source is the
    tree found at [src], outside the destination.  [copyDir] makes
    [destDir] with its missing ancestors, then copies the entries one by
    one; a source that is neither a file nor a directory is left out of
    the embedding. *)
Definition copyEntries (copy : node -> path -> M unit) (destDir : path)
  (entries : list (string * node)) : M unit :=
  forEach (fun entry : string * node =>
             copy (snd entry) (path_join destDir (fst entry))) entries.

Fixpoint copy (src : node) (dest : path) {struct src} : M unit :=
  match src with
  | Dir entries => mkdirSync_recursive dest ;; copyEntries copy dest entries
  | File data => copyFileSync data dest
  | Other => throw OutsideModel
  end.

Definition copyDir (srcDir : node) (destDir : path) : M unit :=
  mkdirSync_recursive destDir ;;
  match srcDir with
  | Dir entries => copyEntries copy destDir entries
  | _ => throw ENOTDIR
  end.

(** A prompt of enquirer: the question is asked and the user's answer comes
    back. *)
Definition prompt {A} (question : string) (answer : A) : M A :=
  emit (Prompt question) ;; ret answer.

(** One call [copyTemplate(path.join(templatesRootDir, template), root,
    options)] of [init], recorded in the trace; [templates] is the tree at
    [templatesRootDir]. *)
Definition compose (templates : node) (root : path) (template : string)
  (options : list string) : M unit :=
  emit (Compose template options) ;;
  match resolve (path_join [] template) templates with
  | Ok tree => copyTemplate tree root options
  | Throw e => throw e
  end.

(** [options.forEach(...)] of [init], with the variable [mergedOptions]. *)
Fixpoint forEachOption (templates : node) (root : path)
  (options mergedOptions : list string) : M unit :=
  match options with
  | [] => ret tt
  | option :: rest =>
      compose templates root ("with-" ++ option)%string mergedOptions ;;
      forEachOption templates root rest (mergedOptions ++ [option])
  end.

(** [init] from the multiselect prompt on (lines 51 to 70); [root] is the
    place in the tree that the string [rootText] names. *)
Definition composeTemplates (templates : node) (root : path) (rootText : string)
  (ans : answers) : M unit :=
  selected <- prompt "options" (options ans) ;;
  compose templates root "repo-base" selected ;;
  forEachOption templates root selected [] ;;
  emit (ConsoleLog (String "010" "Bootstrapping repo in " ++ rootText)%string).

(** [init()], started with [argv._[0]] (when there is one), in the working
    directory [cwd], the user answering [ans]. *)
Definition init (argv0 : option string) (ans : answers) (cwd : path)
  (templates : node) : M unit :=
  targetDir <- match argv0 with
               | Some dir => if dir =? "" then prompt "name" (name ans) else ret dir
               | None => prompt "name" (name ans)
               end ;;
  let root := path_join cwd targetDir in
  let rootText := path_join_text cwd targetDir in
  present <- existsSync root ;;
  if negb present then
    mkdirSync_recursive root ;;
    composeTemplates templates root rootText ans
  else
    existing <- readdirSync root ;;
    match existing with
    | _ :: _ =>
        confirmed <- prompt "yes" (yes ans) ;;
        if confirmed then
          emptyDir root ;;
          composeTemplates templates root rootText ans
        else ret tt
    | [] => composeTemplates templates root rootText ans
    end.

(** ** Notions the statements use *)

(** The [(template, options)] pairs of the [copyTemplate] calls [init] has
    made, oldest first. *)
Fixpoint composed (t : list event) : list (string * list string) :=
  match t with
  | [] => []
  | Compose template opts :: t' => (template, opts) :: composed t'
  | _ :: t' => composed t'
  end.

(** The target directory [init] settles on. *)
Definition targetDirOf (argv0 : option string) (ans : answers) : string :=
  match argv0 with
  | Some dir => if dir =? "" then name ans else dir
  | None => name ans
  end.

(** [init] stops before the options prompt: the target holds something and
    the user says no. *)
Definition declined (argv0 : option string) (ans : answers) (cwd : path) (w : world)
  : bool :=
  match resolve (path_join cwd (targetDirOf argv0 ans)) (fs w) with
  | Ok (Dir (_ :: _)) => negb (yes ans)
  | _ => false
  end.

(** The calls [init] makes for a selection: the base template with the
    whole selection, then [with-o] for the [n]-th option [o] with the
    options before it. *)
Definition composeCalls (selected : list string) : list (string * list string) :=
  ("repo-base", selected)
  :: map (fun n => (("with-" ++ nth n selected "")%string, firstn n selected))
       (seq 0 (length selected)).

Definition isUnhandledCase {A} (r : result A) : bool :=
  match r with
  | Throw (UnhandledCaseError _) => true
  | _ => false
  end.

(** A name a directory can list: not empty, not [.] or [..], no slash. *)
Definition validName (file : string) : bool :=
  match split "/" file with
  | [seg] => negb ((seg =? "") || (seg =? ".") || (seg =? ".."))
  | _ => false
  end.

Fixpoint distinct (names : list string) : bool :=
  match names with
  | [] => true
  | x :: rest => negb (includes rest x) && distinct rest
  end.

Definition isDir (n : node) : bool :=
  match n with Dir _ => true | _ => false end.

(** A template tree that [copyTemplate] takes as it is: regular files and
    directories under the names a directory can list, none of them
    starting with [._] and no directory called [.tsukemono]. *)
Definition plainName (file : string) : bool :=
  validName file && (replace_dot_underscore file =? file).

Fixpoint plain (t : node) : bool :=
  match t with
  | File _ => true
  | Other => false
  | Dir entries =>
      distinct (map fst entries)
      && forallb (fun entry : string * node =>
                    plainName (fst entry)
                    && negb (isDir (snd entry) && (fst entry =? ".tsukemono"))
                    && plain (snd entry)) entries
  end.

(** A tree without its [.tsukemono] directories, at every depth. *)
Fixpoint withoutOverrides (t : node) : node :=
  match t with
  | Dir entries =>
      Dir (flat_map (fun entry : string * node =>
                       if isDir (snd entry) && (fst entry =? ".tsukemono") then []
                       else [(fst entry, withoutOverrides (snd entry))]) entries)
  | _ => t
  end.

(** Equality of JSON values as documents (the properties of an object
    taken in their order), and the members of an array without those that
    equal an earlier one. *)
Fixpoint json_eqb (a b : json) {struct a} : bool :=
  match a, b with
  | JNull, JNull => true
  | JBool x, JBool y => Bool.eqb x y
  | JNumber x, JNumber y => number_eqb x y
  | JString x, JString y => String.eqb x y
  | JArray xs, JArray ys =>
      (fix all2 (xs ys : list json) {struct xs} : bool :=
         match xs, ys with
         | [], [] => true
         | x :: xs', y :: ys' => json_eqb x y && all2 xs' ys'
         | _, _ => false
         end) xs ys
  | JObject ps, JObject qs =>
      (fix all2 (ps qs : list (string * json)) {struct ps} : bool :=
         match ps, qs with
         | [], [] => true
         | (k, x) :: ps', (l, y) :: qs' => (k =? l) && json_eqb x y && all2 ps' qs'
         | _, _ => false
         end) ps qs
  | _, _ => false
  end.

Definition dedupBy (same : json -> json -> bool) (xs : list json) : list json :=
  fold_left (fun seen x => if existsb (same x) seen then seen else seen ++ [x]) xs [].

(** Is a JSON value a primitive (not an array, not an object)? *)
Definition isPrimitive (v : json) : bool := negb (isObject v).

(** A value as [JSON.parse] builds it: every object has each of its keys
    once. *)
Fixpoint distinctKeys (v : json) : bool :=
  match v with
  | JArray items => forallb distinctKeys items
  | JObject props =>
      distinct (map fst props) && forallb (fun p => distinctKeys (snd p)) props
  | _ => true
  end.

(** A value none of whose objects has a number for [length]: lodash takes
    none of them for an array. *)
Fixpoint noArrayLike (v : json) : bool :=
  match v with
  | JArray items => forallb noArrayLike items
  | JObject props =>
      negb (isArrayLike props) && forallb (fun p => noArrayLike (snd p)) props
  | _ => true
  end.

(** No array of the source meets an array-like object of the destination:
    going down the keys the two values share, as [baseMerge] does (an array
    of the destination ends the walk, the customizer takes it), an array
    of [srcValue] never lies where [objValue] is an object whose [length]
    is a number. *)
Fixpoint noArrayOnArrayLike (objValue : option json) (srcValue : json) {struct srcValue}
  : bool :=
  match srcValue with
  | JArray _ =>
      match objValue with
      | Some (JObject object) => negb (isArrayLike object)
      | _ => true
      end
  | JObject source =>
      match objValue with
      | Some (JObject object) =>
          forallb (fun p => (fst p =? "__proto__") && isObject (snd p)
                            || noArrayOnArrayLike (safeGet object (fst p)) (snd p))
            source
      | _ => true
      end
  | _ => true
  end.

(** ** Property lists and the tree: lemmas *)

Lemma assoc_set_entry_same {A} (k : string) (v : A) (l : list (string * A)) :
  assoc k (set_entry k v l) = Some v.
Proof.
  induction l as [|[k' v'] l IH]; simpl.
  - now rewrite String.eqb_refl.
  - destruct (k' =? k) eqn:E; simpl.
    + now rewrite String.eqb_refl.
    + now rewrite E.
Qed.

Lemma assoc_set_entry_other {A} (k k' : string) (v : A) (l : list (string * A)) :
  k <> k' -> assoc k' (set_entry k v l) = assoc k' l.
Proof.
  intros Hne. induction l as [|[k0 v0] l IH]; simpl.
  - destruct (k =? k') eqn:E; [apply String.eqb_eq in E; contradiction | reflexivity].
  - destruct (k0 =? k) eqn:E; simpl.
    + apply String.eqb_eq in E. subst k0.
      destruct (k =? k') eqn:E'; [apply String.eqb_eq in E'; contradiction | reflexivity].
    + destruct (k0 =? k'); [reflexivity | exact IH].
Qed.

Lemma set_entry_absent {A} (k : string) (v : A) (l : list (string * A)) :
  assoc k l = None -> set_entry k v l = l ++ [(k, v)].
Proof.
  induction l as [|[k' v'] l IH]; simpl; intros H; [reflexivity|].
  destruct (k' =? k); [discriminate | now rewrite IH].
Qed.

Lemma set_entry_last {A} (k : string) (v v' : A) (l : list (string * A)) :
  assoc k l = None -> set_entry k v' (l ++ [(k, v)]) = l ++ [(k, v')].
Proof.
  induction l as [|[k' v0] l IH]; simpl; intros H.
  - now rewrite String.eqb_refl.
  - destruct (k' =? k); [discriminate | now rewrite IH].
Qed.

Lemma set_entry_twice {A} (k : string) (v v' : A) (l : list (string * A)) :
  set_entry k v' (set_entry k v l) = set_entry k v' l.
Proof.
  induction l as [|[k' v0] l IH]; simpl.
  - now rewrite String.eqb_refl.
  - destruct (k' =? k) eqn:E; simpl.
    + now rewrite String.eqb_refl.
    + now rewrite E, IH.
Qed.

Lemma assoc_app_absent {A} (k : string) (l l' : list (string * A)) :
  assoc k l = None -> assoc k (l ++ l') = assoc k l'.
Proof.
  induction l as [|[k' v0] l IH]; simpl; intros H; [reflexivity|].
  destruct (k' =? k); [discriminate | auto].
Qed.

(** With the entry under [x] at hand, [store] goes through it whatever the
    rest of the path. *)
Lemma store_cons {x : string} {p : path} {new c : node} {es : list (string * node)} :
  assoc x es = Some c ->
  store (x :: p) new (Dir es) =
  match store p new c with
  | Ok c' => Ok (Dir (set_entry x c' es))
  | Throw e => Throw e
  end.
Proof.
  intros H. simpl. rewrite H. destruct p; reflexivity.
Qed.

Lemma store_app (dest p : path) (new d n : node) :
  resolve dest n = Ok d ->
  store (dest ++ p) new n =
  match store p new d with
  | Ok d' => store dest d' n
  | Throw e => Throw e
  end.
Proof.
  revert n. induction dest as [|x dest IH]; intros n H.
  - simpl in H. injection H as ->. simpl. now destruct (store p new d).
  - simpl in H. destruct n as [|es|]; try discriminate.
    destruct (assoc x es) as [c|] eqn:Ex; try discriminate.
    change ((x :: dest) ++ p) with (x :: (dest ++ p)).
    rewrite (store_cons Ex), (IH _ H).
    destruct (store p new d) as [d'|e]; [|reflexivity].
    now rewrite (store_cons Ex).
Qed.

Lemma resolve_app (dest p : path) (d n : node) :
  resolve dest n = Ok d -> resolve (dest ++ p) n = resolve p d.
Proof.
  revert n. induction dest as [|x dest IH]; intros n H; simpl in *.
  - now injection H as ->.
  - destruct n as [|es|]; try discriminate.
    destruct (assoc x es); try discriminate. auto.
Qed.

Lemma store_defined (dest : path) (new d n : node) :
  resolve dest n = Ok d -> exists n', store dest new n = Ok n'.
Proof.
  revert n. induction dest as [|x dest IH]; intros n H.
  - simpl. eauto.
  - simpl in H. destruct n as [|es|]; try discriminate.
    destruct (assoc x es) as [c|] eqn:Ex; try discriminate.
    rewrite (store_cons Ex). destruct (IH _ H) as [c' ->]. eauto.
Qed.

Lemma resolve_store (dest : path) (new n n' : node) :
  store dest new n = Ok n' -> resolve dest n' = Ok new.
Proof.
  revert n n'. induction dest as [|x dest IH]; intros n n' H.
  - simpl in *. congruence.
  - simpl in H. destruct n as [|es|]; try discriminate.
    destruct dest as [|y dest].
    + injection H as <-. simpl. now rewrite assoc_set_entry_same.
    + destruct (assoc x es) as [c|] eqn:Ex; try discriminate.
      destruct (store (y :: dest) new c) as [c'|] eqn:Es; try discriminate.
      injection H as <-. change (resolve (x :: y :: dest) (Dir (set_entry x c' es)))
        with (match assoc x (set_entry x c' es) with
              | Some c => resolve (y :: dest) c | None => Throw ENOENT end).
      rewrite assoc_set_entry_same. eauto.
Qed.

Lemma store_twice (dest : path) (a b n n1 : node) :
  store dest a n = Ok n1 -> store dest b n1 = store dest b n.
Proof.
  revert n n1. induction dest as [|x dest IH]; intros n n1 H.
  - reflexivity.
  - simpl in H. destruct n as [|es|]; try discriminate.
    destruct dest as [|y dest].
    + injection H as <-. simpl. now rewrite set_entry_twice.
    + destruct (assoc x es) as [c|] eqn:Ex; try discriminate.
      destruct (store (y :: dest) a c) as [c'|] eqn:Es; try discriminate.
      injection H as <-.
      rewrite (store_cons (assoc_set_entry_same x c' es)), (store_cons Ex).
      rewrite (IH _ _ Es). destruct (store (y :: dest) b c); [|reflexivity].
      now rewrite set_entry_twice.
Qed.

(** Induction on a tree, with the hypothesis for every entry of a
    directory. *)
Fixpoint node_entries_ind (P : node -> Prop)
  (HFile : forall data, P (File data))
  (HDir : forall entries, Forall (fun entry => P (snd entry)) entries -> P (Dir entries))
  (HOther : P Other) (t : node) {struct t} : P t :=
  match t with
  | File data => HFile data
  | Dir entries =>
      HDir entries
        ((fix all (es : list (string * node)) : Forall (fun entry => P (snd entry)) es :=
            match es with
            | [] => Forall_nil _
            | e :: es' =>
                Forall_cons e (node_entries_ind P HFile HDir HOther (snd e)) (all es')
            end) entries)
  | Other => HOther
  end.

(** Names. *)
Lemma split_not_nil (sep : ascii) (s : string) : split sep s <> [].
Proof.
  destruct s as [|c s]; simpl; [discriminate|].
  destruct (Ascii.eqb c sep); [discriminate|].
  destruct (split sep s); discriminate.
Qed.

Lemma split_singleton (sep : ascii) (s seg : string) :
  split sep s = [seg] -> seg = s.
Proof.
  revert seg. induction s as [|c s IH]; simpl; intros seg H.
  - congruence.
  - destruct (Ascii.eqb c sep).
    + injection H as _ H. now apply split_not_nil in H.
    + destruct (split sep s) as [|h t] eqn:E; [now apply split_not_nil in E|].
      injection H as <- ->. now rewrite (IH h eq_refl).
Qed.

Lemma path_join_validName (dest : path) (file : string) :
  validName file = true -> path_join dest file = dest ++ [file].
Proof.
  unfold validName, path_join. intros H.
  destruct (split "/" file) as [|seg [|? ?]] eqn:E; try discriminate.
  apply split_singleton in E. subst seg. simpl. unfold join_segment.
  apply negb_true_iff in H. apply orb_false_iff in H. destruct H as [H H3].
  apply orb_false_iff in H. destruct H as [H1 H2].
  now rewrite H1, H2, H3.
Qed.

(** ** Running the programs: lemmas *)

Lemma forEach_cons {A} (f : A -> M unit) (x : A) (xs : list A) (w : world) :
  forEach f (x :: xs) w =
  match f x w with
  | (Ok _, w') => forEach f xs w'
  | (Throw e, w') => (Throw e, w')
  end.
Proof. reflexivity. Qed.

Lemma copyTemplate_Dir (files : list (string * node)) (dest : path)
  (options : list string) :
  copyTemplate (Dir files) dest options =
  forEach (copyTemplateEntry copyTemplate dest options) files.
Proof. reflexivity. Qed.

Lemma resolve_child (dest : path) (file : string) (entries : list (string * node))
  (n : node) :
  resolve dest n = Ok (Dir entries) ->
  resolve (dest ++ [file]) n =
  match assoc file entries with Some c => Ok c | None => Throw ENOENT end.
Proof.
  intros H. rewrite (resolve_app _ [file] _ _ H). simpl.
  now destruct (assoc file entries).
Qed.

Lemma store_child (dest : path) (file : string) (entries : list (string * node))
  (new n : node) :
  resolve dest n = Ok (Dir entries) ->
  store (dest ++ [file]) new n = store dest (Dir (set_entry file new entries)) n.
Proof.
  intros H. now rewrite (store_app _ [file] _ _ _ H).
Qed.

(** A file of the template is written over its target when the target is
    not there, and when it is a file whose name has no merge strategy. *)
Lemma copyTemplateFile_copies (dest : path) (actualFileName data : string)
  (entries : list (string * node)) (w : world) :
  validName actualFileName = true ->
  resolve dest (fs w) = Ok (Dir entries) ->
  (assoc actualFileName entries = None \/
   (exists old, assoc actualFileName entries = Some (File old)) /\
   isMergeable actualFileName = false) ->
  exists n',
    copyTemplateFile dest actualFileName data w = (Ok tt, World n' (trace w)) /\
    store dest (Dir (set_entry actualFileName (File data) entries)) (fs w) = Ok n'.
Proof.
  intros Hv Hd Hcase.
  destruct (store_defined dest (Dir (set_entry actualFileName (File data) entries))
              _ _ Hd) as [n' Hn'].
  exists n'. split; [|exact Hn'].
  unfold copyTemplateFile, bind, existsSync, copyFileSync, writeFileSync, on_fs.
  rewrite (path_join_validName _ _ Hv), (resolve_child _ _ _ _ Hd).
  destruct Hcase as [Ha | [[old Ha] Hm]]; rewrite Ha; [|rewrite Hm]; simpl;
    now rewrite (resolve_child _ _ _ _ Hd), Ha, (store_child _ _ _ _ _ Hd), Hn'.
Qed.

(** A directory of the template that is not there yet is made, and the
    template's directory is composed into it. *)
Lemma copyTemplateEntry_new_dir (dest : path) (options : list string) (file : string)
  (children pre : list (string * node)) (w : world) :
  plainName file = true ->
  (file =? ".tsukemono") = false ->
  resolve dest (fs w) = Ok (Dir pre) ->
  assoc file pre = None ->
  (forall target w1,
      resolve target (fs w1) = Ok (Dir []) ->
      exists n2,
        copyTemplate (Dir children) target options w1 = (Ok tt, World n2 (trace w1)) /\
        store target (Dir children) (fs w1) = Ok n2) ->
  exists n',
    copyTemplateEntry copyTemplate dest options (file, Dir children) w
    = (Ok tt, World n' (trace w)) /\
    store dest (Dir (pre ++ [(file, Dir children)])) (fs w) = Ok n'.
Proof.
  intros Hp Ht Hd Ha IH.
  apply andb_true_iff in Hp. destruct Hp as [Hv Hr]. apply String.eqb_eq in Hr.
  destruct (store_defined dest (Dir (pre ++ [(file, Dir [])])) _ _ Hd) as [n1 Hn1].
  pose proof (resolve_store _ _ _ _ Hn1) as Hd1.
  destruct (IH (dest ++ [file]) (World n1 (trace w))) as [n2 [Hrun Hn2]].
  { simpl. rewrite (resolve_child _ _ _ _ Hd1), (assoc_app_absent _ _ _ Ha). simpl.
    now rewrite String.eqb_refl. }
  simpl in Hn2. rewrite (store_child _ _ _ _ _ Hd1), (set_entry_last _ _ _ _ Ha),
    (store_twice _ _ _ _ _ Hn1) in Hn2.
  exists n2. split; [|exact Hn2].
  unfold copyTemplateEntry. rewrite Ht, Hr.
  unfold bind, existsSync, mkdirSync, on_fs.
  rewrite (path_join_validName _ _ Hv), (resolve_child _ _ _ _ Hd), Ha. simpl.
  rewrite (store_child _ _ _ _ _ Hd), (set_entry_absent _ _ _ Ha), Hn1.
  rewrite (resolve_child _ _ _ _ Hd), Ha.
  exact Hrun.
Qed.

Lemma plain_entries_compose (dest : path) (options : list string)
  (files : list (string * node)) :
  Forall (fun entry : string * node =>
            plain (snd entry) = true ->
            forall children, snd entry = Dir children ->
            forall target w1,
              resolve target (fs w1) = Ok (Dir []) ->
              exists n2,
                copyTemplate (snd entry) target options w1
                = (Ok tt, World n2 (trace w1)) /\
                store target (Dir children) (fs w1) = Ok n2) files ->
  plain (Dir files) = true ->
  forall (pre : list (string * node)) (w : world),
    resolve dest (fs w) = Ok (Dir pre) ->
    (forall k, In k (map fst files) -> assoc k pre = None) ->
    exists n',
      forEach (copyTemplateEntry copyTemplate dest options) files w
      = (Ok tt, World n' (trace w)) /\
      store dest (Dir (pre ++ files)) (fs w) = Ok n'.
Proof.
  induction 1 as [|[file stat] files HP _ IH]; intros Hplain pre w Hd Hfresh.
  - exists (fs w). split; [now destruct w|].
    rewrite app_nil_r. destruct (store_defined dest (Dir pre) _ _ Hd) as [n' Hn'].
    rewrite Hn'. f_equal.
    assert (Hs : store (dest ++ []) (Dir pre) (fs w) = Ok (fs w)).
    { clear Hn' n' Hfresh. rewrite app_nil_r. revert Hd. generalize (fs w).
      induction dest as [|x dest IHd]; intros n Hd.
      - simpl in *. congruence.
      - simpl in Hd. destruct n as [|es|]; try discriminate.
        destruct (assoc x es) as [c|] eqn:Ex; try discriminate.
        rewrite (store_cons Ex), (IHd _ Hd). f_equal. f_equal.
        clear -Ex. induction es as [|[k v] es IHe]; simpl in *; [discriminate|].
        destruct (k =? x) eqn:E.
        + apply String.eqb_eq in E. congruence.
        + now rewrite IHe. }
    rewrite app_nil_r in Hs. congruence.
  - simpl in Hplain. apply andb_true_iff in Hplain. destruct Hplain as [Hdist Hall].
    apply andb_true_iff in Hdist. destruct Hdist as [Hnot Hdist].
    apply andb_true_iff in Hall. destruct Hall as [Hentry Hall].
    apply andb_true_iff in Hentry. destruct Hentry as [Hentry Hpl].
    apply andb_true_iff in Hentry. destruct Hentry as [Hname Hmark].
    simpl in Hname, Hmark, Hpl, HP.
    assert (Ha : assoc file pre = None) by (apply Hfresh; now left).
    assert (Hstep : exists n1,
               copyTemplateEntry copyTemplate dest options (file, stat) w
               = (Ok tt, World n1 (trace w)) /\
               store dest (Dir (pre ++ [(file, stat)])) (fs w) = Ok n1).
    { destruct stat as [data|children|]; [| |discriminate].
      - pose proof Hname as Hn. apply andb_true_iff in Hn. destruct Hn as [Hv Hr].
        apply String.eqb_eq in Hr.
        destruct (copyTemplateFile_copies dest file data pre w Hv Hd (or_introl Ha))
          as [n1 [Hrun Hn1]].
        exists n1. rewrite (set_entry_absent _ _ _ Ha) in Hn1. split; [|exact Hn1].
        unfold copyTemplateEntry. now rewrite Hr.
      - simpl in Hmark. apply negb_true_iff in Hmark.
        exact (copyTemplateEntry_new_dir dest options file children pre w
                 Hname Hmark Hd Ha (HP Hpl children eq_refl)). }
    destruct Hstep as [n1 [Hrun Hn1]].
    destruct (IH (proj2 (andb_true_iff _ _) (conj Hdist Hall))
                (pre ++ [(file, stat)]) (World n1 (trace w))) as [n' [Hrest Hn']].
    + simpl. exact (resolve_store _ _ _ _ Hn1).
    + intros k Hk. rewrite (assoc_app_absent _ _ _ (Hfresh k (or_intror Hk))). simpl.
      destruct (file =? k) eqn:E; [|reflexivity].
      apply String.eqb_eq in E. subst k. apply negb_true_iff in Hnot.
      unfold includes in Hnot. exfalso.
      assert (Hex : existsb (String.eqb file) (map fst files) = true).
      { apply existsb_exists. exists file. split; [exact Hk | apply String.eqb_refl]. }
      congruence.
    + exists n'. split.
      * rewrite forEach_cons, Hrun. exact Hrest.
      * simpl in Hn'. rewrite (store_twice _ _ _ _ _ Hn1), <- app_assoc in Hn'.
        exact Hn'.
Qed.

Lemma plain_compose (options : list string) (t : node) :
  plain t = true ->
  forall children, t = Dir children ->
  forall (target : path) (w1 : world),
    resolve target (fs w1) = Ok (Dir []) ->
    exists n2,
      copyTemplate t target options w1 = (Ok tt, World n2 (trace w1)) /\
      store target (Dir children) (fs w1) = Ok n2.
Proof.
  induction t as [data|entries IH|] using node_entries_ind;
    intros Hplain children Heq target w1 Ht; try discriminate.
  injection Heq as <-. rewrite copyTemplate_Dir.
  apply (plain_entries_compose target options entries IH Hplain [] w1 Ht).
  intros k _. reflexivity.
Qed.

(** With no option applied the entries of a [.tsukemono] directory are
    looked at and left alone. *)
Lemma overrides_skipped (copy : node -> path -> list string -> M unit) (dest : path)
  (overrides : list (string * node)) (w : world) :
  copyTemplateEntry copy dest [] (".tsukemono", Dir overrides) w = (Ok tt, w).
Proof.
  unfold copyTemplateEntry. simpl.
  induction overrides as [|[overrideName overrideDir] overrides IH]; [reflexivity|].
  rewrite forEach_cons. destruct overrideDir; simpl; exact IH.
Qed.

Lemma copyTemplateEntry_ext (copy copy' : node -> path -> list string -> M unit)
  (dest : path) (options : list string) (file : string) (stat stat' : node) :
  (file =? ".tsukemono") = false \/ isDir stat = false ->
  (forall data, stat = File data -> stat' = File data) ->
  (stat = Other -> stat' = Other) ->
  (forall children, stat = Dir children ->
     (exists children', stat' = Dir children') /\
     forall target w, copy stat target options w = copy' stat' target options w) ->
  forall w,
    copyTemplateEntry copy dest options (file, stat) w
    = copyTemplateEntry copy' dest options (file, stat') w.
Proof.
  intros Hmark HF HO HD w. destruct stat as [data|children|].
  - now rewrite (HF data eq_refl).
  - destruct (HD children eq_refl) as [[children' ->] Hc].
    destruct Hmark as [Hmark|Hmark]; [|discriminate].
    unfold copyTemplateEntry. rewrite Hmark. unfold bind.
    destruct (existsSync _ w) as [[present|e] w1]; [|reflexivity].
    destruct ((if negb present then mkdirSync _ else ret tt) w1) as [[[]|e] w2];
      [apply Hc | reflexivity].
  - now rewrite (HO eq_refl).
Qed.

Lemma withoutOverrides_compose (t : node) :
  forall (dest : path) (w : world),
    copyTemplate t dest [] w = copyTemplate (withoutOverrides t) dest [] w.
Proof.
  induction t as [data|entries IH|] using node_entries_ind; intros dest w;
    [reflexivity| |reflexivity].
  simpl withoutOverrides. rewrite !copyTemplate_Dir. revert w.
  induction IH as [|[file stat] entries Hstat _ IHentries]; intros w; [reflexivity|].
  simpl flat_map. simpl in Hstat.
  destruct (isDir stat && (file =? ".tsukemono")) eqn:Hmark.
  - apply andb_true_iff in Hmark. destruct Hmark as [Hdir Hname].
    apply String.eqb_eq in Hname. subst file.
    destruct stat as [|overrides|]; try discriminate.
    rewrite forEach_cons, overrides_skipped. apply IHentries.
  - simpl app. rewrite !forEach_cons.
    rewrite (copyTemplateEntry_ext copyTemplate copyTemplate dest [] file stat
               (withoutOverrides stat)).
    + destruct (copyTemplateEntry _ _ _ _ w) as [[[]|e] w']; [apply IHentries | reflexivity].
    + apply andb_false_iff in Hmark. tauto.
    + now intros data ->.
    + now intros ->.
    + intros children ->. split; [simpl; eauto | intros; apply Hstat].
Qed.

(** *** What no step of the composition does

    A program is tame when it never throws the unhandled-case error and
    never makes [init]'s ghost record of a [copyTemplate] call. *)

Definition tame {A} (m : M A) : Prop :=
  forall w,
    isUnhandledCase (fst (m w)) = false /\
    composed (trace (snd (m w))) = composed (trace w).

Lemma tame_bind {A B} (m : M A) (k : A -> M B) :
  tame m -> (forall a, tame (k a)) -> tame (bind m k).
Proof.
  intros Hm Hk w. unfold bind. destruct (Hm w) as [H1 H2].
  destruct (m w) as [[a|e] w']; simpl in *.
  - destruct (Hk a w') as [H3 H4]. split; [exact H3 | congruence].
  - now split.
Qed.

Lemma tame_ret {A} (a : A) : tame (ret a).
Proof. intros w. now split. Qed.

Lemma isUnhandledCase_resolve (p : path) (n : node) :
  isUnhandledCase (resolve p n) = false.
Proof.
  revert n. induction p as [|x p IH]; intros n; [reflexivity|].
  simpl. destruct n as [|es|]; try reflexivity.
  destruct (assoc x es); [apply IH | reflexivity].
Qed.

Lemma isUnhandledCase_store (p : path) (new n : node) :
  isUnhandledCase (store p new n) = false.
Proof.
  revert n. induction p as [|x p IH]; intros n; [reflexivity|].
  simpl. destruct n as [|es|]; try reflexivity.
  destruct p as [|y p]; [reflexivity|].
  destruct (assoc x es) as [c|]; [|reflexivity].
  specialize (IH c). now destruct (store (y :: p) new c).
Qed.

Lemma isUnhandledCase_unlink (p : path) (n : node) :
  isUnhandledCase (unlink p n) = false.
Proof.
  revert n. induction p as [|x p IH]; intros n; [reflexivity|].
  simpl. destruct n as [|es|]; try reflexivity.
  destruct (assoc x es) as [c|]; [|reflexivity].
  destruct p as [|y p]; [reflexivity|].
  specialize (IH c). now destruct (unlink (y :: p) c).
Qed.

Lemma isUnhandledCase_mkdir_p (p : path) (n : node) :
  isUnhandledCase (mkdir_p p n) = false.
Proof.
  revert n. induction p as [|x p IH]; intros n; simpl.
  - now destruct n.
  - destruct n as [|es|]; try reflexivity.
    match goal with |- context [mkdir_p p ?c] => specialize (IH c); now destruct (mkdir_p p c) end.
Qed.

Lemma tame_on_fs (f : node -> result node) :
  (forall n, isUnhandledCase (f n) = false) -> tame (on_fs f).
Proof.
  intros H w. unfold on_fs. specialize (H (fs w)).
  destruct (f (fs w)); now split.
Qed.

Lemma tame_existsSync (p : path) : tame (existsSync p).
Proof. intros w. now split. Qed.

Lemma tame_readFileSync (p : path) : tame (readFileSync p).
Proof.
  intros w. unfold readFileSync. pose proof (isUnhandledCase_resolve p (fs w)) as H.
  destruct (resolve p (fs w)) as [[| |]|e]; now split.
Qed.

Lemma tame_writeFileSync (p : path) (data : string) : tame (writeFileSync p data).
Proof.
  intros w. unfold writeFileSync.
  destruct (resolve p (fs w)) as [[| |]|e]; try (now split);
    apply tame_on_fs, isUnhandledCase_store.
Qed.

Lemma tame_mkdirSync (p : path) : tame (mkdirSync p).
Proof.
  intros w. unfold mkdirSync.
  destruct (resolve p (fs w)); [now split | apply tame_on_fs, isUnhandledCase_store].
Qed.

Lemma tame_rmdirSync (p : path) : tame (rmdirSync p).
Proof.
  intros w. unfold rmdirSync. pose proof (isUnhandledCase_resolve p (fs w)) as H.
  destruct (resolve p (fs w)) as [[|[|]|]|e]; try (now split).
  apply tame_on_fs, isUnhandledCase_unlink.
Qed.

Lemma tame_unlinkSync (p : path) : tame (unlinkSync p).
Proof.
  intros w. unfold unlinkSync. pose proof (isUnhandledCase_resolve p (fs w)) as H.
  destruct (resolve p (fs w)) as [[| |]|e]; try (now split);
    apply tame_on_fs, isUnhandledCase_unlink.
Qed.

Lemma composed_app (t t' : list event) : composed (t ++ t') = composed t ++ composed t'.
Proof.
  induction t as [|[| | |] t IH]; simpl; congruence.
Qed.

Lemma tame_emit (e : event) : composed [e] = [] -> tame (emit e).
Proof.
  intros H w. split; [reflexivity|]. simpl. now rewrite composed_app, H, app_nil_r.
Qed.

Lemma tame_parse (text : string) : tame (parse text).
Proof. intros w. unfold parse. now destruct (JSON_parse text). Qed.

Lemma tame_mergeJsonFile (existing : path) (template : string) :
  tame (mergeJsonFile existing template).
Proof.
  unfold mergeJsonFile.
  apply tame_bind; [apply tame_readFileSync | intros existingText].
  apply tame_bind; [apply tame_parse | intros a].
  apply tame_bind; [apply tame_parse | intros b].
  destruct (mergeWith customizer a b); [apply tame_writeFileSync | now intros w].
Qed.

Lemma tame_appendFiles (existing : path) (template : string) :
  tame (appendFiles existing template).
Proof.
  unfold appendFiles.
  apply tame_bind; [apply tame_readFileSync | intros existingText].
  now apply tame_emit.
Qed.

Lemma mergeFiles_strategy (file : string) :
  isMergeable file = true ->
  assoc file mergeFiles = Some "json" \/ assoc file mergeFiles = Some "append".
Proof.
  unfold isMergeable, includes, mergeFiles. cbn [map fst existsb assoc].
  rewrite !(String.eqb_sym file).
  destruct (".eslintrc" =? file); [now left|].
  destruct ("package.json" =? file); [now left|].
  destruct ("lerna.json" =? file); [now left|].
  destruct (".gitignore" =? file); [now right|].
  destruct (".prettierignore" =? file); [now right | discriminate].
Qed.

Lemma tame_copyTemplateFile (dest : path) (actualFileName data : string) :
  tame (copyTemplateFile dest actualFileName data).
Proof.
  unfold copyTemplateFile.
  apply tame_bind; [apply tame_existsSync | intros present].
  destruct (negb present || negb (isMergeable actualFileName)) eqn:E.
  - apply tame_writeFileSync.
  - apply orb_false_iff in E. destruct E as [_ E]. apply negb_false_iff in E.
    destruct (mergeFiles_strategy _ E) as [-> | ->]; simpl.
    + apply tame_mergeJsonFile.
    + apply tame_appendFiles.
Qed.

Lemma tame_forEach {A} (f : A -> M unit) (xs : list A) :
  Forall (fun x => tame (f x)) xs -> tame (forEach f xs).
Proof.
  induction 1 as [|x xs Hx _ IH]; [apply tame_ret|].
  change (forEach f (x :: xs)) with (f x ;; forEach f xs).
  apply tame_bind; auto.
Qed.

Lemma tame_copyTemplate_entries (template : node) :
  (forall (dest : path) (options : list string),
      tame (copyTemplate template dest options)) /\
  (forall children, template = Dir children ->
     Forall (fun entry : string * node =>
               forall (dest : path) (options : list string),
                 tame (copyTemplate (snd entry) dest options)) children).
Proof.
  induction template as [data|entries IH|] using node_entries_ind;
    try (split; [now intros dest options w | discriminate]).
  split.
  - intros dest options. rewrite copyTemplate_Dir. apply tame_forEach.
    induction IH as [|[file stat] entries [Hstat Hsub] _ IHentries];
      constructor; [|exact IHentries].
    simpl in Hstat, Hsub. unfold copyTemplateEntry.
    destruct stat as [data|children|].
    + apply tame_copyTemplateFile.
    + destruct (file =? ".tsukemono").
      * apply tame_forEach.
        eapply Forall_impl; [|exact (Hsub children eq_refl)].
        intros [overrideName overrideDir] Hover. simpl in Hover.
        destruct overrideDir; try apply tame_ret.
        destruct (includes options (replace_with_prefix overrideName));
          [apply Hover | apply tame_ret].
      * apply tame_bind; [apply tame_existsSync | intros present].
        apply tame_bind; [|intros _; apply Hstat].
        destruct (negb present); [apply tame_mkdirSync | apply tame_ret].
    + apply tame_ret.
  - intros children Heq. injection Heq as <-.
    eapply Forall_impl; [|exact IH]. now intros entry [H _].
Qed.

Lemma tame_copyTemplate (template : node) (dest : path) (options : list string) :
  tame (copyTemplate template dest options).
Proof. apply tame_copyTemplate_entries. Qed.

Lemma tame_emptyTree (tree : node) : forall dir, tame (emptyTree tree dir).
Proof.
  induction tree as [data|entries IH|] using node_entries_ind; intros dir;
    try (now intros w).
  simpl. apply tame_forEach.
  induction IH as [|[file stat] entries Hstat _ IHentries]; constructor; [|exact IHentries].
  simpl in Hstat. destruct stat as [data|children|]; try apply tame_unlinkSync.
  apply tame_bind; [apply Hstat | intros _; apply tame_rmdirSync].
Qed.

Lemma tame_emptyDir (dir : path) : tame (emptyDir dir).
Proof.
  intros w. unfold emptyDir.
  destruct (resolve dir (fs w)); [apply tame_emptyTree | now split].
Qed.

(** *** The calls of [init] *)

Lemma compose_trace (templates : node) (root : path) (template : string)
  (opts : list string) (w : world) :
  composed (trace (snd (compose templates root template opts w)))
  = composed (trace w) ++ [(template, opts)].
Proof.
  unfold compose, bind, emit.
  destruct (resolve (path_join [] template) templates) as [tree|e].
  - destruct (tame_copyTemplate tree root opts
                (World (fs w) (trace w ++ [Compose template opts]))) as [_ H].
    rewrite H. simpl. now rewrite composed_app.
  - simpl. now rewrite composed_app.
Qed.

Lemma forEachOption_trace (templates : node) (root : path) (selected : list string) :
  forall (mergedOptions : list string) (w w' : world),
    forEachOption templates root selected mergedOptions w = (Ok tt, w') ->
    composed (trace w')
    = composed (trace w)
      ++ map (fun n => (("with-" ++ nth n selected "")%string,
                        mergedOptions ++ firstn n selected))
           (seq 0 (length selected)).
Proof.
  induction selected as [|option rest IH]; intros mergedOptions w w' H.
  - cbv [forEachOption ret] in H. injection H as <-. simpl. now rewrite app_nil_r.
  - cbn [forEachOption] in H. unfold bind in H.
    pose proof (compose_trace templates root ("with-" ++ option)%string mergedOptions w)
      as Hc.
    destruct (compose templates root ("with-" ++ option)%string mergedOptions w)
      as [[[]|e] w1]; [|discriminate].
    simpl in Hc. rewrite (IH _ _ _ H), Hc, <- app_assoc. f_equal.
    simpl length. simpl seq. simpl map. rewrite app_nil_r. simpl. f_equal.
    rewrite <- seq_shift, map_map. apply map_ext. intros n. simpl.
    now rewrite <- app_assoc.
Qed.

Lemma composeTemplates_trace (templates : node) (root : path) (rootText : string)
  (ans : answers) (w w' : world) :
  composeTemplates templates root rootText ans w = (Ok tt, w') ->
  composed (trace w') = composed (trace w) ++ composeCalls (options ans).
Proof.
  unfold composeTemplates, prompt, bind, emit, ret. simpl. intros H.
  pose proof (compose_trace templates root "repo-base" (options ans)
                (World (fs w) (trace w ++ [Prompt "options"]))) as Hc.
  destruct (compose templates root "repo-base" (options ans) _) as [[[]|e] w1];
    [|discriminate].
  simpl in Hc. rewrite composed_app, app_nil_r in Hc.
  destruct (forEachOption templates root (options ans) [] w1) as [[[]|e] w2] eqn:Hf;
    [|discriminate].
  apply forEachOption_trace in Hf. injection H as <-. simpl.
  rewrite composed_app, Hf, Hc, app_nil_r, <- app_assoc. reflexivity.
Qed.

(** *** The merge of two objects *)

Lemma baseMergeWith_other_key (deep : option json -> json -> option json)
  (k : string) (source : list (string * json)) :
  forall object content,
    includes (map fst source) k = false ->
    baseMergeWith deep source object = Some content ->
    assoc k content = assoc k object.
Proof.
  induction source as [|[key srcValue] source IH]; intros object content Hk H.
  - simpl in H. now injection H as <-.
  - unfold includes in Hk. simpl in Hk. apply orb_false_iff in Hk.
    destruct Hk as [Hne Hk]. simpl in H.
    destruct ((key =? "__proto__") && isObject srcValue); [now apply IH|].
    destruct (deep (safeGet object key) srcValue) as [newValue|]; [|discriminate].
    rewrite (IH _ _ Hk H). apply assoc_set_entry_other.
    intros ->. now rewrite String.eqb_refl in Hne.
Qed.

Lemma baseMerge_array_key (k : string) (xs ys : list json)
  (source : list (string * json)) :
  forall object content,
    distinct (map fst source) = true ->
    (k =? "__proto__") = false ->
    assoc k object = Some (JArray xs) ->
    assoc k source = Some (JArray ys) ->
    baseMerge customizer source object = Some content ->
    assoc k content = Some (JArray (array_from_set (xs ++ ys))).
Proof.
  unfold baseMerge.
  induction source as [|[key srcValue] source IH]; intros object content Hd Hp Ho Hs H;
    [discriminate|].
  simpl in Hd. apply andb_true_iff in Hd. destruct Hd as [Hfresh Hd].
  apply negb_true_iff in Hfresh. simpl in Hs, H.
  destruct (key =? k) eqn:Ek.
  - apply String.eqb_eq in Ek. subst key. injection Hs as ->.
    rewrite Hp in H. simpl in H. unfold safeGet in H. rewrite Hp, Ho in H. simpl in H.
    rewrite (baseMergeWith_other_key _ _ _ _ _ Hfresh H).
    apply assoc_set_entry_same.
  - destruct ((key =? "__proto__") && isObject srcValue); [now apply (IH object)|].
    destruct (baseMergeDeep customizer (safeGet object key) srcValue) as [newValue|];
      [|discriminate].
    apply (IH (set_entry key newValue object)); auto.
    rewrite assoc_set_entry_other; [exact Ho|].
    intros ->. now rewrite String.eqb_refl in Ek.
Qed.

(** Induction on a JSON value, with the hypothesis for every member of an
    array and every property of an object. *)
Fixpoint json_values_ind (P : json -> Prop)
  (HNull : P JNull) (HBool : forall b, P (JBool b))
  (HNumber : forall n, P (JNumber n)) (HString : forall s, P (JString s))
  (HArray : forall items, Forall P items -> P (JArray items))
  (HObject : forall props, Forall (fun p => P (snd p)) props -> P (JObject props))
  (v : json) {struct v} : P v :=
  let rec := json_values_ind P HNull HBool HNumber HString HArray HObject in
  match v with
  | JNull => HNull
  | JBool b => HBool b
  | JNumber n => HNumber n
  | JString s => HString s
  | JArray items =>
      HArray items
        ((fix all (xs : list json) : Forall P xs :=
            match xs with
            | [] => Forall_nil _
            | x :: xs' => Forall_cons x (rec x) (all xs')
            end) items)
  | JObject props =>
      HObject props
        ((fix all (ps : list (string * json)) : Forall (fun p => P (snd p)) ps :=
            match ps with
            | [] => Forall_nil _
            | p :: ps' => Forall_cons p (rec (snd p)) (all ps')
            end) props)
  end.

Lemma assoc_noArrayLike (key : string) (props : list (string * json)) (v : json) :
  forallb (fun p => noArrayLike (snd p)) props = true ->
  assoc key props = Some v -> noArrayLike v = true.
Proof.
  induction props as [|[k x] props IH]; simpl; intros H Ha; [discriminate|].
  apply andb_true_iff in H. destruct H as [Hx H].
  destruct (k =? key); [now injection Ha as <- | auto].
Qed.

Lemma safeGet_set_entry_other (k key : string) (v : json) (object : list (string * json)) :
  (k =? key) = false -> safeGet (set_entry k v object) key = safeGet object key.
Proof.
  intros H. unfold safeGet. destruct (key =? "__proto__"); [reflexivity|].
  apply assoc_set_entry_other. intros ->. now rewrite String.eqb_refl in H.
Qed.

(** The merge of this script's customizer is within the embedding when
    the source is as parsed and the destination has no array-like
    object. *)
Lemma baseMergeWith_defined (source : list (string * json)) :
  Forall (fun p =>
            distinctKeys (snd p) = true ->
            forall objValue,
              (forall o, objValue = Some o -> noArrayLike o = true) ->
              exists v, baseMergeDeep customizer objValue (snd p) = Some v) source ->
  distinctKeys (JObject source) = true ->
  forall object,
    (forall key o, includes (map fst source) key = true ->
                   safeGet object key = Some o -> noArrayLike o = true) ->
    exists merged, baseMergeWith (baseMergeDeep customizer) source object = Some merged.
Proof.
  induction 1 as [|[key srcValue] source Hdeep _ IH]; intros Hd object Hobj.
  - simpl. eauto.
  - simpl in Hd, Hdeep. apply andb_true_iff in Hd. destruct Hd as [Hdist Hall].
    apply andb_true_iff in Hdist. destruct Hdist as [Hfresh Hdist].
    apply andb_true_iff in Hall. destruct Hall as [Hsrc Hall].
    apply negb_true_iff in Hfresh.
    assert (Hrest : distinctKeys (JObject source) = true).
    { simpl. now rewrite Hdist, Hall. }
    assert (Hin : forall k, includes (map fst source) k = true ->
                            includes (map fst ((key, srcValue) :: source)) k = true).
    { intros k Hk. unfold includes in *. simpl. rewrite Hk. apply orb_true_r. }
    cbn [baseMergeWith].
    destruct ((key =? "__proto__") && isObject srcValue).
    + apply (IH Hrest). intros k o Hk. apply Hobj. now apply Hin.
    + destruct (Hdeep Hsrc (safeGet object key)) as [newValue ->].
      { intros o Ho. apply (Hobj key o); [|exact Ho].
        unfold includes. simpl. now rewrite String.eqb_refl. }
      apply (IH Hrest). intros k o Hk Ho.
      rewrite safeGet_set_entry_other in Ho.
      * apply (Hobj k o); [now apply Hin | exact Ho].
      * destruct (key =? k) eqn:E; [|reflexivity].
        apply String.eqb_eq in E. subst k. congruence.
Qed.

Lemma baseMergeDeep_defined (srcValue : json) :
  distinctKeys srcValue = true ->
  forall objValue,
    (forall o, objValue = Some o -> noArrayLike o = true) ->
    exists v, baseMergeDeep customizer objValue srcValue = Some v.
Proof.
  induction srcValue as [|b|n|s|items IH|props IH] using json_values_ind;
    intros Hd objValue Hobj;
    try (destruct objValue as [[]|]; simpl; eauto; fail).
  - assert (Hclone : exists items',
               cloneItems (baseMergeDeep customizer) items = Some items').
    { simpl in Hd. clear Hobj. induction IH as [|x items Hx _ IHitems]; [simpl; eauto|].
      simpl in Hd. apply andb_true_iff in Hd. destruct Hd as [Hdx Hd].
      destruct (Hx Hdx None) as [x' Ex]; [discriminate|].
      destruct (IHitems Hd) as [items' Ei]. cbn [cloneItems].
      rewrite Ex. fold (cloneItems (baseMergeDeep customizer)). rewrite Ei. eauto. }
    destruct Hclone as [items' Hclone].
    destruct objValue as [[| | | | |object]|]; simpl; rewrite ?Hclone; simpl; eauto.
    specialize (Hobj _ eq_refl). simpl in Hobj. apply andb_true_iff in Hobj.
    destruct Hobj as [Hlike _]. apply negb_true_iff in Hlike.
    rewrite Hlike. eauto.
  - assert (Hmerge : forall object,
               forallb (fun p => noArrayLike (snd p)) object = true ->
               exists merged,
                 baseMergeWith (baseMergeDeep customizer) props object = Some merged).
    { intros object Hfree. apply (baseMergeWith_defined props IH Hd).
      intros key o _. unfold safeGet. destruct (key =? "__proto__"); [discriminate|].
      now apply assoc_noArrayLike. }
    destruct objValue as [[| | | | |object]|]; simpl;
      try (destruct (Hmerge [] eq_refl) as [merged ->]; simpl; eauto; fail);
      eauto.
    specialize (Hobj _ eq_refl). simpl in Hobj. apply andb_true_iff in Hobj.
    destruct Hobj as [_ Hfree]. destruct (Hmerge object Hfree) as [merged ->].
    simpl. eauto.
Qed.

Lemma baseMerge_defined (A B : list (string * json)) :
  distinctKeys (JObject B) = true ->
  noArrayLike (JObject A) = true ->
  exists merged, baseMerge customizer B A = Some merged.
Proof.
  intros HB HA. unfold baseMerge. apply baseMergeWith_defined; [|exact HB|].
  - apply Forall_forall. intros p _ Hd objValue Hobj.
    now apply baseMergeDeep_defined.
  - intros key o _. unfold safeGet. destruct (key =? "__proto__"); [discriminate|].
    simpl in HA. apply andb_true_iff in HA. destruct HA as [_ HA].
    now apply assoc_noArrayLike.
Qed.

(** The same, when only the arrays of the source that meet an array-like
    object of the destination are ruled out. *)
Lemma noArrayOnArrayLike_set_entry (key : string) (v : json)
  (object source : list (string * json)) :
  includes (map fst source) key = false ->
  forallb (fun p => (fst p =? "__proto__") && isObject (snd p)
                    || noArrayOnArrayLike (safeGet (set_entry key v object) (fst p)) (snd p))
    source
  = forallb (fun p => (fst p =? "__proto__") && isObject (snd p)
                      || noArrayOnArrayLike (safeGet object (fst p)) (snd p))
      source.
Proof.
  unfold includes. induction source as [|[k x] source IH]; intros H; [reflexivity|].
  simpl in H. apply orb_false_iff in H. destruct H as [Hk H].
  cbn [forallb fst snd]. rewrite (IH H), safeGet_set_entry_other; [reflexivity|].
  exact Hk.
Qed.

Lemma baseMergeWith_meets (source : list (string * json)) :
  Forall (fun p =>
            distinctKeys (snd p) = true ->
            forall objValue,
              noArrayOnArrayLike objValue (snd p) = true ->
              exists v, baseMergeDeep customizer objValue (snd p) = Some v) source ->
  distinctKeys (JObject source) = true ->
  forall object,
    forallb (fun p => (fst p =? "__proto__") && isObject (snd p)
                      || noArrayOnArrayLike (safeGet object (fst p)) (snd p))
      source = true ->
    exists merged, baseMergeWith (baseMergeDeep customizer) source object = Some merged.
Proof.
  induction 1 as [|[key srcValue] source Hdeep _ IH]; intros Hd object Hobj.
  - simpl. eauto.
  - simpl in Hd, Hdeep. apply andb_true_iff in Hd. destruct Hd as [Hdist Hall].
    apply andb_true_iff in Hdist. destruct Hdist as [Hfresh Hdist].
    apply andb_true_iff in Hall. destruct Hall as [Hsrc Hall].
    apply negb_true_iff in Hfresh.
    assert (Hrest : distinctKeys (JObject source) = true).
    { simpl. now rewrite Hdist, Hall. }
    cbn [forallb fst snd] in Hobj. apply andb_true_iff in Hobj.
    destruct Hobj as [Hhead Htail].
    cbn [baseMergeWith].
    destruct ((key =? "__proto__") && isObject srcValue).
    + exact (IH Hrest object Htail).
    + simpl in Hhead. destruct (Hdeep Hsrc _ Hhead) as [newValue ->].
      apply (IH Hrest). now rewrite noArrayOnArrayLike_set_entry.
Qed.

Lemma cloneItems_defined (items : list json) :
  forallb distinctKeys items = true ->
  exists items', cloneItems (baseMergeDeep customizer) items = Some items'.
Proof.
  intros Hd.
  destruct (baseMergeDeep_defined (JArray items) Hd None) as [v Hv]; [discriminate|].
  simpl in Hv. destruct (cloneItems (baseMergeDeep customizer) items) as [items'|];
    [eauto | discriminate].
Qed.

Lemma baseMergeDeep_meets (srcValue : json) :
  distinctKeys srcValue = true ->
  forall objValue,
    noArrayOnArrayLike objValue srcValue = true ->
    exists v, baseMergeDeep customizer objValue srcValue = Some v.
Proof.
  induction srcValue as [|b|n|s|items IH|props IH] using json_values_ind;
    intros Hd objValue Hmeet;
    try (destruct objValue as [[]|]; simpl; eauto; fail).
  - destruct (cloneItems_defined items Hd) as [items' Hclone].
    destruct objValue as [[| | | | |object]|]; simpl; rewrite ?Hclone; simpl; eauto.
    simpl in Hmeet. apply negb_true_iff in Hmeet. rewrite Hmeet. eauto.
  - destruct objValue as [[| | | |xs|object]|];
      try (apply baseMergeDeep_defined; [exact Hd | intros o [= <-]; reflexivity]);
      [simpl; eauto |].
    simpl in Hmeet.
    destruct (baseMergeWith_meets props IH Hd object Hmeet) as [merged Hm].
    simpl. rewrite Hm. simpl. eauto.
Qed.

Lemma baseMerge_meets (A B : list (string * json)) :
  distinctKeys (JObject B) = true ->
  noArrayOnArrayLike (Some (JObject A)) (JObject B) = true ->
  exists merged, baseMerge customizer B A = Some merged.
Proof.
  intros HB Hmeet.
  destruct (baseMergeDeep_meets (JObject B) HB (Some (JObject A)) Hmeet) as [v Hv].
  simpl in Hv. unfold baseMerge.
  destruct (baseMergeWith (baseMergeDeep customizer) B A) as [merged|];
    [eauto | discriminate].
Qed.

(** A destination without array-like objects is such a destination. *)
Lemma noArrayLike_noArrayOnArrayLike (srcValue : json) :
  forall objValue,
    (forall o, objValue = Some o -> noArrayLike o = true) ->
    noArrayOnArrayLike objValue srcValue = true.
Proof.
  induction srcValue as [|b|n|s|items IH|props IH] using json_values_ind;
    intros objValue Hobj; try reflexivity.
  - destruct objValue as [[| | | | |object]|]; try reflexivity.
    specialize (Hobj _ eq_refl). simpl in Hobj. now apply andb_true_iff in Hobj.
  - destruct objValue as [[| | | | |object]|]; try reflexivity.
    specialize (Hobj _ eq_refl). simpl in Hobj. apply andb_true_iff in Hobj.
    destruct Hobj as [_ Hfree]. cbn [noArrayOnArrayLike].
    apply forallb_forall. intros p Hp.
    rewrite Forall_forall in IH. rewrite (IH p Hp); [apply orb_true_r|].
    intros o Ho. unfold safeGet in Ho. destruct (fst p =? "__proto__"); [discriminate|].
    exact (assoc_noArrayLike _ _ _ Hfree Ho).
Qed.

Lemma sameValueZero_primitive (x y : json) :
  isPrimitive x = true -> sameValueZero x y = json_eqb x y.
Proof.
  destruct x; try discriminate; intros _; destruct y; reflexivity.
Qed.

Lemma array_from_set_primitives (xs : list json) :
  forallb isPrimitive xs = true -> array_from_set xs = dedupBy json_eqb xs.
Proof.
  unfold array_from_set, dedupBy. intros H.
  enough (G : forall seen,
             fold_left set_add xs seen
             = fold_left (fun seen x =>
                            if existsb (json_eqb x) seen then seen else seen ++ [x])
                 xs seen) by apply G.
  induction xs as [|x xs IH]; intros seen; [reflexivity|].
  simpl in H. apply andb_true_iff in H. destruct H as [Hx H].
  cbn [fold_left]. rewrite <- (IH H). f_equal. unfold set_add.
  assert (E : existsb (sameValueZero x) seen = existsb (json_eqb x) seen).
  { clear -Hx. induction seen as [|y seen IHs]; [reflexivity|].
    simpl. now rewrite IHs, (sameValueZero_primitive x y Hx). }
  now rewrite E.
Qed.

(** ** The claims *)



(** C3 (amended).  When the destination's file and the template's file
    parse to objects [A] and [B] that both hold an array under a key [k]
    other than [__proto__], and no array of [B] lies where [A] has an
    object with a number for [length] (lodash takes such an object for an
    array and fills it by index), [mergeJsonFile] succeeds
    and writes the merged object, whose value under [k] is [A]'s array
    followed by [B]'s with every member dropped that a [Set] holds
    already: a primitive equal to an earlier one.  Arrays and objects among
    the members are all kept.  When all members are primitives this is the
    union without duplicates, in the order of first occurrence. *)
Theorem mergeJsonFile_array_union :
  forall (existing : path) (template existingText : string)
         (A B : list (string * json)) (k : string) (xs ys : list json) (w : world),
    resolve existing (fs w) = Ok (File existingText) ->
    JSON_parse (trim existingText) = Some (JObject A) ->
    JSON_parse (trim template) = Some (JObject B) ->
    distinctKeys (JObject B) = true ->
    noArrayOnArrayLike (Some (JObject A)) (JObject B) = true ->
    (k =? "__proto__") = false ->
    assoc k A = Some (JArray xs) ->
    assoc k B = Some (JArray ys) ->
    exists (merged : list (string * json)) (w' : world),
      mergeWith customizer (JObject A) (JObject B) = Some (JObject merged) /\
      mergeJsonFile existing template w = (Ok tt, w') /\
      resolve existing (fs w') = Ok (File (JSON_stringify (JObject merged))) /\
      assoc k merged = Some (JArray (array_from_set (xs ++ ys))) /\
      (forallb isPrimitive (xs ++ ys) = true ->
       array_from_set (xs ++ ys) = dedupBy json_eqb (xs ++ ys)).
Proof.
  intros existing template existingText A B k xs ys w
    Hfile HA HB Hkeys Hlike Hk Hxs Hys.
  destruct (baseMerge_meets A B Hkeys Hlike) as [merged Hm].
  destruct (store_defined existing (File (JSON_stringify (JObject merged))) _ _ Hfile)
    as [n' Hn'].
  assert (Hd : distinct (map fst B) = true).
  { simpl in Hkeys. now apply andb_true_iff in Hkeys. }
  exists merged, (World n' (trace w)). repeat split.
  - simpl. now rewrite Hm.
  - unfold mergeJsonFile, bind, readFileSync, parse. rewrite Hfile, HA. simpl.
    rewrite HB. simpl. rewrite Hm. simpl.
    unfold writeFileSync, on_fs. now rewrite Hfile, Hn'.
  - exact (resolve_store _ _ _ _ Hn').
  - exact (baseMerge_array_key k xs ys B A merged Hd Hk Hxs Hys Hm).
  - apply array_from_set_primitives.
Qed.

(** C4.  [appendFiles] writes nothing: whatever the destination and the
    template's file hold, the tree is after the call what it was before,
    also when the call is reached through the [append] strategy and
    through the composition of a template's file whose target is there
    under a name with that strategy. *)
Theorem appendFiles_writes_nothing :
  forall (existing : path) (template : string) (w : world),
    fs (snd (appendFiles existing template w)) = fs w /\
    fs (snd (mergeFile (Some "append") existing template w)) = fs w /\
    (forall (dest : path) (actualFileName : string),
        assoc actualFileName mergeFiles = Some "append" ->
        is_ok (resolve (path_join dest actualFileName) (fs w)) = true ->
        fs (snd (copyTemplateFile dest actualFileName template w)) = fs w).
Proof.
  intros existing template w.
  assert (H : forall p, fs (snd (appendFiles p template w)) = fs w).
  { intros p. unfold appendFiles, bind, readFileSync, emit.
    now destruct (resolve p (fs w)) as [[| |]|e]. }
  split; [apply H | split; [apply H|]].
  intros dest actualFileName Hs Hp.
  unfold copyTemplateFile, bind, existsSync. rewrite Hp.
  assert (Hm : isMergeable actualFileName = true).
  { revert Hs. unfold isMergeable, includes, mergeFiles. cbn [map fst existsb assoc].
    rewrite !(String.eqb_sym actualFileName).
    repeat match goal with |- context [?s =? actualFileName] =>
             destruct (s =? actualFileName); [reflexivity|] end.
    discriminate. }
  rewrite Hm, Hs. apply H.
Qed.

(** How [init] settles the target directory: with the [name] prompt when
    [argv._[0]] is missing or empty. *)
Lemma init_targetDir (argv0 : option string) (ans : answers) (w : world) :
  exists asked,
    composed asked = [] /\
    (match argv0 with
     | Some dir => if dir =? "" then prompt "name" (name ans) else ret dir
     | None => prompt "name" (name ans)
     end) w
    = (Ok (targetDirOf argv0 ans), World (fs w) (trace w ++ asked)).
Proof.
  unfold targetDirOf. destruct argv0 as [dir|]; [destruct (dir =? "")|].
  - now exists [Prompt "name"].
  - exists []. split; [reflexivity|]. rewrite app_nil_r. now destruct w.
  - now exists [Prompt "name"].
Qed.

(** When [init] returns and the user has not declined, it has gone
    through [composeTemplates], with no template composed before. *)
Lemma init_reaches_composeTemplates (argv0 : option string) (ans : answers)
  (cwd : path) (templates : node) (w w' : world) :
  declined argv0 ans cwd w = false ->
  init argv0 ans cwd templates w = (Ok tt, w') ->
  exists w0,
    composed (trace w0) = composed (trace w) /\
    composeTemplates templates (path_join cwd (targetDirOf argv0 ans))
      (path_join_text cwd (targetDirOf argv0 ans)) ans w0
    = (Ok tt, w').
Proof.
  intros Hdecl Hinit. unfold init in Hinit. unfold bind at 1 in Hinit.
  destruct (init_targetDir argv0 ans w) as [asked [Hasked Htarget]].
  rewrite Htarget in Hinit. clear Htarget.
  set (root := path_join cwd (targetDirOf argv0 ans)) in *.
  set (w1 := World (fs w) (trace w ++ asked)) in *.
  assert (Hw1 : composed (trace w1) = composed (trace w)).
  { unfold w1. simpl. now rewrite composed_app, Hasked, app_nil_r. }
  unfold declined in Hdecl. fold root in Hdecl.
  unfold bind at 1 in Hinit. unfold existsSync at 1 in Hinit.
  change (fs w1) with (fs w) in Hinit.
  destruct (resolve root (fs w)) as [[data|entries|]|e] eqn:Hroot; simpl in Hinit.
  - unfold bind, readdirSync in Hinit. change (fs w1) with (fs w) in Hinit.
    rewrite Hroot in Hinit. discriminate.
  - unfold bind at 1, readdirSync at 1 in Hinit. change (fs w1) with (fs w) in Hinit.
    rewrite Hroot in Hinit. destruct entries as [|entry entries]; simpl in Hinit.
    + now exists w1.
    + apply negb_false_iff in Hdecl. rewrite Hdecl in Hinit.
      cbv [prompt bind emit ret] in Hinit.
      destruct (tame_emptyDir root (World (fs w1) (trace w1 ++ [Prompt "yes"])))
        as [_ He].
      destruct (emptyDir root _) as [[[]|e] w2]; [|discriminate].
      exists w2. split; [|exact Hinit].
      simpl in He. rewrite He, composed_app. simpl. rewrite app_nil_r. exact Hw1.
  - unfold bind, readdirSync in Hinit. change (fs w1) with (fs w) in Hinit.
    rewrite Hroot in Hinit. discriminate.
  - unfold bind at 1 in Hinit.
    destruct (tame_on_fs (mkdir_p root) (isUnhandledCase_mkdir_p root) w1) as [_ Hm].
    fold (mkdirSync_recursive root) in Hm.
    destruct (mkdirSync_recursive root w1) as [[[]|e'] w2]; [|discriminate].
    exists w2. split; [|exact Hinit]. simpl in Hm. now rewrite Hm.
Qed.

(** C5 (amended).  When [init] runs to its end, the user not having
    declined, the templates it has composed are, in this order: the base
    template with the whole selection [o1..oK] as its options, then for
    every [N] the template [with-oN] with exactly the options [o1..o(N-1)]
    selected before it, [oN] joining them after that call only. *)
Theorem init_compose_calls :
  forall (argv0 : option string) (ans : answers) (cwd : path) (templates : node)
         (w w' : world),
    declined argv0 ans cwd w = false ->
    init argv0 ans cwd templates w = (Ok tt, w') ->
    composed (trace w') = composed (trace w) ++ composeCalls (options ans).
Proof.
  intros argv0 ans cwd templates w w' Hdecl Hinit.
  destruct (init_reaches_composeTemplates _ _ _ _ _ _ Hdecl Hinit) as [w0 [H0 Hc]].
  rewrite (composeTemplates_trace _ _ _ _ _ _ Hc). now rewrite H0.
Qed.

(** C6.  When the target directory holds something and the user answers
    no, [init] returns with the files as they were and with no template
    composed. *)
Theorem init_declined :
  forall (argv0 : option string) (ans : answers) (cwd : path) (templates : node)
         (entry : string * node) (entries : list (string * node)) (w : world),
    resolve (path_join cwd (targetDirOf argv0 ans)) (fs w) = Ok (Dir (entry :: entries)) ->
    yes ans = false ->
    exists w',
      init argv0 ans cwd templates w = (Ok tt, w') /\
      fs w' = fs w /\
      composed (trace w') = composed (trace w).
Proof.
  intros argv0 ans cwd templates entry entries w Hroot Hno.
  destruct (init_targetDir argv0 ans w) as [asked [Hasked Htarget]].
  exists (World (fs w) ((trace w ++ asked) ++ [Prompt "yes"])).
  repeat split.
  - unfold init. unfold bind at 1. rewrite Htarget.
    unfold bind, existsSync, readdirSync, prompt, emit, ret. simpl.
    rewrite Hroot. simpl. rewrite Hroot. simpl. now rewrite Hno.
  - simpl. rewrite !composed_app, Hasked. simpl. now rewrite !app_nil_r.
Qed.

(** C7.  Every name [isMergeable] accepts has the strategy [json] or
    [append] in the table; [copyTemplate] never throws the unhandled-case
    error; and a strategy that is neither of the two makes the dispatch
    throw that error at once, the world untouched. *)
Theorem merge_strategy_dispatch :
  (forall file : string,
      isMergeable file = true ->
      assoc file mergeFiles = Some "json" \/ assoc file mergeFiles = Some "append") /\
  (forall (template : node) (dest : path) (options : list string) (w : world),
      isUnhandledCase (fst (copyTemplate template dest options w)) = false) /\
  (forall (mergeStrategy : option string) (targetFilePath : path) (data : string)
          (w : world),
      mergeStrategy <> Some "json" ->
      mergeStrategy <> Some "append" ->
      mergeFile mergeStrategy targetFilePath data w
      = (Throw (UnhandledCaseError "Unhandled file merge strategy"), w)).
Proof.
  split; [exact mergeFiles_strategy | split].
  - intros template dest options w. apply tame_copyTemplate.
  - intros mergeStrategy targetFilePath data w Hj Ha. unfold mergeFile.
    destruct mergeStrategy as [strategy|]; [|reflexivity].
    destruct (strategy =? "json") eqn:Ej.
    { apply String.eqb_eq in Ej. congruence. }
    destruct (strategy =? "append") eqn:Ea.
    { apply String.eqb_eq in Ea. congruence. }
    reflexivity.
Qed.

(** C8 (amended).  A template tree of regular files and directories, none
    of them under a name that starts with [._] and no directory called
    [.tsukemono], composed into an empty destination directory, leaves
    there the very tree of the template (the same names with the same
    bytes, at every depth), whatever the options; the rest of the
    filesystem stays as it was and nothing is printed. *)
Theorem copyTemplate_plain_into_empty :
  forall (files : list (string * node)) (dest : path) (options : list string)
         (w : world),
    plain (Dir files) = true ->
    resolve dest (fs w) = Ok (Dir []) ->
    exists w',
      copyTemplate (Dir files) dest options w = (Ok tt, w') /\
      resolve dest (fs w') = Ok (Dir files) /\
      store dest (Dir files) (fs w) = Ok (fs w') /\
      trace w' = trace w.
Proof.
  intros files dest options w Hplain Hdest.
  destruct (plain_compose options (Dir files) Hplain files eq_refl dest w Hdest)
    as [n2 [Hrun Hn2]].
  exists (World n2 (trace w)). repeat split; [exact Hrun | | exact Hn2].
  exact (resolve_store _ _ _ _ Hn2).
Qed.


(** C10.  Whatever the options, what [copyTemplate] does for a
    [.tsukemono] directory is to compose, in their order, those of its
    directories [with-o] whose [o] is among the options, each into [dest]
    itself, each with no option at all, and so each as if it had none of
    its own [.tsukemono] directories at any depth. *)
Theorem overrides_composed_without_options :
  forall (dest : path) (options : list string) (overrides : list (string * node))
         (w : world),
    copyTemplateEntry copyTemplate dest options (".tsukemono", Dir overrides) w
    = forEach (fun override : string * node =>
                 copyTemplate (withoutOverrides (snd override)) dest [])
        (filter (fun override : string * node =>
                   isDir (snd override)
                   && includes options (replace_with_prefix (fst override)))
           overrides) w.
Proof.
  intros dest options overrides. unfold copyTemplateEntry.
  change (".tsukemono" =? ".tsukemono") with true. cbv iota.
  induction overrides as [|[overrideName overrideDir] overrides IH]; intros w;
    [reflexivity|].
  rewrite forEach_cons. cbn [filter fst snd].
  destruct overrideDir as [data|children|]; cbn [isDir andb]; try apply IH.
  destruct (includes options (replace_with_prefix overrideName)).
  - rewrite forEach_cons, withoutOverrides_compose.
    destruct (copyTemplate _ dest [] w) as [[[]|e] w']; [apply IH | reflexivity].
  - apply IH.
Qed.

(** ** More of the script *)

(** Every name in a tree is one a directory can list. *)
Fixpoint validNames (t : node) : bool :=
  match t with
  | Dir entries =>
      forallb (fun entry : string * node =>
                 validName (fst entry) && validNames (snd entry)) entries
  | _ => true
  end.

(** The prompt for the project's name, when [init] asks it. *)
Definition namePrompt (argv0 : option string) : list event :=
  match argv0 with
  | Some dir => if dir =? "" then [Prompt "name"] else []
  | None => [Prompt "name"]
  end.

(** *** The tree, again *)

Lemma set_entry_same {A} (k : string) (v : A) (l : list (string * A)) :
  assoc k l = Some v -> set_entry k v l = l.
Proof.
  induction l as [|[k' v'] l IH]; simpl; intros H; [discriminate|].
  destruct (k' =? k) eqn:E.
  - apply String.eqb_eq in E. congruence.
  - now rewrite IH.
Qed.

Lemma store_same (dest : path) (d n : node) :
  resolve dest n = Ok d -> store dest d n = Ok n.
Proof.
  revert n. induction dest as [|x dest IH]; intros n H.
  - simpl in *. congruence.
  - simpl in H. destruct n as [|es|]; try discriminate.
    destruct (assoc x es) as [c|] eqn:Ex; try discriminate.
    now rewrite (store_cons Ex), (IH _ H), (set_entry_same _ _ _ Ex).
Qed.

Lemma unlink_cons (x y : string) (p : path) (c : node) (es : list (string * node)) :
  assoc x es = Some c ->
  unlink (x :: y :: p) (Dir es) =
  match unlink (y :: p) c with
  | Ok c' => Ok (Dir (set_entry x c' es))
  | Throw e => Throw e
  end.
Proof. intros H. cbn [unlink]. now rewrite H. Qed.

Lemma unlink_child (dest : path) (file : string) (es : list (string * node))
  (c n : node) :
  resolve dest n = Ok (Dir es) ->
  assoc file es = Some c ->
  unlink (dest ++ [file]) n = store dest (Dir (remove_entry file es)) n.
Proof.
  intros Hd Ha. revert n Hd. induction dest as [|x dest IH]; intros n Hd.
  - simpl in Hd. injection Hd as ->. simpl. now rewrite Ha.
  - simpl in Hd. destruct n as [|es0|]; try discriminate.
    destruct (assoc x es0) as [c0|] eqn:Ex; try discriminate.
    rewrite (store_cons Ex), <- (IH _ Hd).
    change ((x :: dest) ++ [file]) with (x :: (dest ++ [file])).
    destruct (dest ++ [file]) as [|y p] eqn:E; [now destruct dest|].
    now rewrite (unlink_cons _ _ _ _ _ Ex).
Qed.

Lemma mkdir_p_existing (p : path) (es : list (string * node)) (n : node) :
  resolve p n = Ok (Dir es) -> mkdir_p p n = Ok n.
Proof.
  revert n. induction p as [|x p IH]; intros n H.
  - simpl in *. injection H as ->. reflexivity.
  - simpl in H. destruct n as [|es0|]; try discriminate.
    destruct (assoc x es0) as [c|] eqn:Ex; try discriminate.
    simpl. now rewrite Ex, (IH _ H), (set_entry_same _ _ _ Ex).
Qed.

Lemma mkdir_p_missing (p : path) (n n' : node) :
  mkdir_p p n = Ok n' ->
  is_ok (resolve p n) = false \/ n = Dir [] ->
  resolve p n' = Ok (Dir []).
Proof.
  revert n n'. induction p as [|x p IH]; intros n n' H Hmiss.
  - destruct Hmiss as [Hmiss | ->]; [discriminate|]. simpl in H. now injection H as <-.
  - simpl in H. destruct n as [|es|]; try discriminate.
    destruct (mkdir_p p _) as [c'|] eqn:Hc; try discriminate.
    injection H as <-. simpl. rewrite assoc_set_entry_same.
    apply (IH _ _ Hc).
    destruct Hmiss as [Hmiss | Hmiss].
    + simpl in Hmiss. destruct (assoc x es); [now left | now right].
    + injection Hmiss as ->. now right.
Qed.

Lemma mkdir_p_child (dest : path) (file : string) (es : list (string * node))
  (n : node) :
  resolve dest n = Ok (Dir es) ->
  assoc file es = None ->
  mkdir_p (dest ++ [file]) n = store dest (Dir (es ++ [(file, Dir [])])) n.
Proof.
  intros Hd Ha. revert n Hd. induction dest as [|x dest IH]; intros n Hd.
  - simpl in Hd. injection Hd as ->. simpl. now rewrite Ha, (set_entry_absent _ _ _ Ha).
  - simpl in Hd. destruct n as [|es0|]; try discriminate.
    destruct (assoc x es0) as [c0|] eqn:Ex; try discriminate.
    rewrite (store_cons Ex), <- (IH _ Hd). simpl. now rewrite Ex.
Qed.

(** *** [emptyDir] *)

Lemma emptyTree_clears (tree : node) :
  validNames tree = true ->
  forall entries, tree = Dir entries ->
  forall (dir : path) (w : world),
    resolve dir (fs w) = Ok tree ->
    exists n',
      emptyTree tree dir w = (Ok tt, World n' (trace w)) /\
      store dir (Dir []) (fs w) = Ok n'.
Proof.
  induction tree as [data|entries IH|] using node_entries_ind;
    intros Hvalid entries' Heq dir; try discriminate.
  clear entries' Heq. cbn [emptyTree].
  induction IH as [|[file stat] entries Hstat _ IHentries]; intros w Hd.
  - exists (fs w). split; [now destruct w | now apply store_same].
  - simpl in Hvalid. apply andb_true_iff in Hvalid. destruct Hvalid as [Hentry Hvalid].
    apply andb_true_iff in Hentry. destruct Hentry as [Hname Hsub].
    simpl in Hname, Hsub, Hstat.
    assert (Ha : assoc file ((file, stat) :: entries) = Some stat).
    { simpl. now rewrite String.eqb_refl. }
    assert (Hrm : remove_entry file ((file, stat) :: entries) = entries).
    { simpl. now rewrite String.eqb_refl. }
    destruct (store_defined dir (Dir entries) _ _ Hd) as [n1 Hn1].
    assert (Hstep : (let abs := path_join dir file in
                     match stat with
                     | Dir _ => emptyTree stat abs ;; rmdirSync abs
                     | _ => unlinkSync abs
                     end) w = (Ok tt, World n1 (trace w))).
    { cbv zeta. rewrite (path_join_validName _ _ Hname).
      pose proof (resolve_child _ file _ _ Hd) as Hr. rewrite Ha in Hr.
      pose proof (unlink_child _ _ _ _ _ Hd Ha) as Hu. rewrite Hrm, Hn1 in Hu.
      destruct stat as [data|children|].
      - unfold unlinkSync, on_fs. now rewrite Hr, Hu.
      - destruct (Hstat Hsub children eq_refl (dir ++ [file]) w Hr) as [n0 [Hrun Hn0]].
        unfold bind. rewrite Hrun.
        rewrite (store_child _ _ _ _ _ Hd) in Hn0.
        pose proof (resolve_store _ _ _ _ Hn0) as Hd0.
        unfold rmdirSync, on_fs. cbn [fs trace].
        rewrite (resolve_child _ file _ _ Hd0), assoc_set_entry_same.
        rewrite (unlink_child _ _ _ _ _ Hd0 (assoc_set_entry_same _ _ _)).
        cbn [set_entry remove_entry]. rewrite String.eqb_refl.
        cbn [remove_entry]. rewrite String.eqb_refl.
        now rewrite (store_twice _ _ _ _ _ Hn0), Hn1.
      - unfold unlinkSync, on_fs. now rewrite Hr, Hu. }
    destruct (IHentries Hvalid (World n1 (trace w)) (resolve_store _ _ _ _ Hn1))
      as [n' [Hrest Hn']].
    exists n'. split.
    + rewrite forEach_cons. cbv zeta in Hstep. cbv beta iota zeta.
      cbn [fst snd]. rewrite Hstep. exact Hrest.
    + cbn [fs] in Hn'. now rewrite (store_twice _ _ _ _ _ Hn1) in Hn'.
Qed.

Lemma emptyDir_run (dir : path) (entries : list (string * node)) (w : world) :
  validNames (Dir entries) = true ->
  resolve dir (fs w) = Ok (Dir entries) ->
  exists n',
    emptyDir dir w = (Ok tt, World n' (trace w)) /\
    store dir (Dir []) (fs w) = Ok n'.
Proof.
  intros Hvalid Hd.
  destruct (emptyTree_clears _ Hvalid entries eq_refl dir w Hd) as [n' [Hrun Hn']].
  exists n'. split; [|exact Hn']. unfold emptyDir. now rewrite Hd.
Qed.

(** X1.  [emptyDir] of a directory succeeds, leaves the directory there
    and empty, touches nothing outside it and prints nothing. *)
Theorem emptyDir_clears :
  forall (dir : path) (entries : list (string * node)) (w : world),
    validNames (Dir entries) = true ->
    resolve dir (fs w) = Ok (Dir entries) ->
    exists w',
      emptyDir dir w = (Ok tt, w') /\
      resolve dir (fs w') = Ok (Dir []) /\
      store dir (Dir []) (fs w) = Ok (fs w') /\
      trace w' = trace w.
Proof.
  intros dir entries w Hvalid Hd.
  destruct (emptyDir_run dir entries w Hvalid Hd) as [n' [Hrun Hn']].
  exists (World n' (trace w)).
  repeat split; [exact Hrun | exact (resolve_store _ _ _ _ Hn') | exact Hn'].
Qed.

(** *** [init], case by case *)

Lemma init_asks_name (argv0 : option string) (ans : answers) (w : world) :
  (match argv0 with
   | Some dir => if dir =? "" then prompt "name" (name ans) else ret dir
   | None => prompt "name" (name ans)
   end) w
  = (Ok (targetDirOf argv0 ans), World (fs w) (trace w ++ namePrompt argv0)).
Proof.
  unfold targetDirOf, namePrompt.
  destruct argv0 as [dir|]; [destruct (dir =? "")|]; try reflexivity.
  rewrite app_nil_r. now destruct w.
Qed.

(** What [init] does, by what it finds at the target. *)
Lemma init_cases (argv0 : option string) (ans : answers) (cwd : path)
  (templates : node) (w : world) :
  init argv0 ans cwd templates w =
  let root := path_join cwd (targetDirOf argv0 ans) in
  let rootText := path_join_text cwd (targetDirOf argv0 ans) in
  let w1 := World (fs w) (trace w ++ namePrompt argv0) in
  let w2 := World (fs w) ((trace w ++ namePrompt argv0) ++ [Prompt "yes"]) in
  match resolve root (fs w) with
  | Ok (Dir []) => composeTemplates templates root rootText ans w1
  | Ok (Dir (_ :: _)) =>
      if yes ans then (emptyDir root ;; composeTemplates templates root rootText ans) w2
      else (Ok tt, w2)
  | Ok _ => (Throw ENOTDIR, w1)
  | Throw _ =>
      (mkdirSync_recursive root ;; composeTemplates templates root rootText ans) w1
  end.
Proof.
  unfold init. unfold bind at 1. rewrite init_asks_name. cbv zeta.
  set (root := path_join cwd (targetDirOf argv0 ans)).
  unfold bind at 1. unfold existsSync at 1. cbn [fs].
  destruct (resolve root (fs w)) as [[data|[|entry entries]|]|e] eqn:Hroot;
    cbn [is_ok negb].
  - unfold bind, readdirSync. cbn [fs]. now rewrite Hroot.
  - unfold bind at 1, readdirSync. cbn [fs]. now rewrite Hroot.
  - unfold bind at 1, readdirSync. cbn [fs]. rewrite Hroot. cbn [map].
    unfold bind at 1, prompt, emit, ret. unfold bind at 1. cbn [fs trace].
    now destruct (yes ans).
  - unfold bind, readdirSync. cbn [fs]. now rewrite Hroot.
  - reflexivity.
Qed.

(** X2.  A target that is not there is made, with the directories on the
    way to it, and is empty when the composition starts; only the name may
    have been asked. *)
Theorem init_creates_target :
  forall (argv0 : option string) (ans : answers) (cwd : path) (templates : node)
         (n1 : node) (w : world),
    is_ok (resolve (path_join cwd (targetDirOf argv0 ans)) (fs w)) = false ->
    mkdir_p (path_join cwd (targetDirOf argv0 ans)) (fs w) = Ok n1 ->
    resolve (path_join cwd (targetDirOf argv0 ans)) n1 = Ok (Dir []) /\
    init argv0 ans cwd templates w
    = composeTemplates templates (path_join cwd (targetDirOf argv0 ans))
        (path_join_text cwd (targetDirOf argv0 ans)) ans
        (World n1 (trace w ++ namePrompt argv0)).
Proof.
  intros argv0 ans cwd templates n1 w Hmiss Hmk. split.
  - exact (mkdir_p_missing _ _ _ Hmk (or_introl Hmiss)).
  - rewrite init_cases. cbv zeta.
    destruct (resolve _ (fs w)); [discriminate|].
    unfold bind, mkdirSync_recursive, on_fs. cbn [fs trace]. now rewrite Hmk.
Qed.

(** X3.  When the target holds something and the user says yes, all of it
    is removed, the target itself stays, the rest of the filesystem is as
    it was, and the composition then starts in the empty target. *)
Theorem init_confirmed_clears :
  forall (argv0 : option string) (ans : answers) (cwd : path) (templates : node)
         (entry : string * node) (entries : list (string * node)) (w : world),
    resolve (path_join cwd (targetDirOf argv0 ans)) (fs w) = Ok (Dir (entry :: entries)) ->
    validNames (Dir (entry :: entries)) = true ->
    yes ans = true ->
    exists n1,
      store (path_join cwd (targetDirOf argv0 ans)) (Dir []) (fs w) = Ok n1 /\
      init argv0 ans cwd templates w
      = composeTemplates templates (path_join cwd (targetDirOf argv0 ans))
          (path_join_text cwd (targetDirOf argv0 ans)) ans
          (World n1 ((trace w ++ namePrompt argv0) ++ [Prompt "yes"])).
Proof.
  intros argv0 ans cwd templates entry entries w Hroot Hvalid Hyes.
  destruct (emptyDir_run _ _
              (World (fs w) ((trace w ++ namePrompt argv0) ++ [Prompt "yes"]))
              Hvalid Hroot) as [n1 [Hrun Hstore]].
  exists n1. split; [exact Hstore|].
  rewrite init_cases. cbv zeta. rewrite Hroot, Hyes. unfold bind. now rewrite Hrun.
Qed.

Lemma composeTemplates_nothing_ticked (templates : node) (root : path)
  (rootText : string) (ans : answers) (files : list (string * node)) (w : world) :
  options ans = [] ->
  resolve ["repo-base"] templates = Ok (Dir files) ->
  plain (Dir files) = true ->
  resolve root (fs w) = Ok (Dir []) ->
  exists n',
    store root (Dir files) (fs w) = Ok n' /\
    composeTemplates templates root rootText ans w
    = (Ok tt,
       World n' (trace w ++ [Prompt "options"; Compose "repo-base" [];
                            ConsoleLog (String "010" "Bootstrapping repo in "
                                        ++ rootText)%string])).
Proof.
  intros Hopt Hbase Hplain Hroot.
  destruct (plain_compose [] (Dir files) Hplain files eq_refl root
              (World (fs w) ((trace w ++ [Prompt "options"]) ++ [Compose "repo-base" []]))
              Hroot) as [n' [Hrun Hstore]].
  exists n'. split; [exact Hstore|].
  unfold composeTemplates, prompt. rewrite Hopt.
  unfold bind at 1. unfold bind at 1. unfold emit at 1, ret. cbn [fs trace].
  unfold bind at 1. unfold compose. unfold bind at 1, emit at 1. cbn [fs trace].
  change (path_join [] "repo-base") with ["repo-base"]. rewrite Hbase, Hrun.
  cbn [forEachOption]. unfold bind, ret, emit. cbn [fs trace].
  now rewrite <- !app_assoc.
Qed.

(** The target as [init] has it when the composition starts, [n1], and
    what it has asked by then: the target was empty, or missing and made,
    or in use and cleared on the user's yes. *)
Definition prepared (argv0 : option string) (ans : answers) (cwd : path) (w : world)
  (n1 : node) (asked : list event) : Prop :=
  let root := path_join cwd (targetDirOf argv0 ans) in
  (resolve root (fs w) = Ok (Dir []) /\ n1 = fs w /\ asked = namePrompt argv0) \/
  (is_ok (resolve root (fs w)) = false /\ mkdir_p root (fs w) = Ok n1 /\
   asked = namePrompt argv0) \/
  (exists entry entries,
      resolve root (fs w) = Ok (Dir (entry :: entries)) /\
      validNames (Dir (entry :: entries)) = true /\
      yes ans = true /\
      store root (Dir []) (fs w) = Ok n1 /\
      asked = namePrompt argv0 ++ [Prompt "yes"]).

Lemma init_prepared (argv0 : option string) (ans : answers) (cwd : path)
  (templates : node) (w : world) (n1 : node) (asked : list event) :
  prepared argv0 ans cwd w n1 asked ->
  resolve (path_join cwd (targetDirOf argv0 ans)) n1 = Ok (Dir []) /\
  init argv0 ans cwd templates w
  = composeTemplates templates (path_join cwd (targetDirOf argv0 ans))
      (path_join_text cwd (targetDirOf argv0 ans)) ans
      (World n1 (trace w ++ asked)).
Proof.
  unfold prepared. cbv zeta. set (root := path_join cwd (targetDirOf argv0 ans)).
  rewrite init_cases. cbv zeta. fold root.
  intros [[Hroot [-> ->]] | [[Hmiss [Hmk ->]] | [entry [entries [Hroot [Hv [Hy [Hs ->]]]]]]]].
  - split; [exact Hroot | now rewrite Hroot].
  - split; [exact (mkdir_p_missing _ _ _ Hmk (or_introl Hmiss))|].
    destruct (resolve root (fs w)); [discriminate|].
    unfold bind, mkdirSync_recursive, on_fs. cbn [fs trace]. now rewrite Hmk.
  - split; [exact (resolve_store _ _ _ _ Hs)|].
    destruct (emptyDir_run _ _
                (World (fs w) ((trace w ++ namePrompt argv0) ++ [Prompt "yes"]))
                Hv Hroot) as [n' [Hrun Hn']].
    cbn [fs] in Hn'. rewrite Hroot, Hy. unfold bind. rewrite Hrun.
    cbn [trace]. rewrite <- app_assoc. congruence.
Qed.

(** X4.  With nothing ticked and a base template of plain files and
    directories, [init] ends with exactly the base template's tree in the
    target, whether the target was empty, missing or cleared; it composes
    the base template only and prints its one message, with the target as
    [path.join] returns it (a [/] at the end of the name is kept). *)
Theorem init_scaffolds_base :
  forall (argv0 : option string) (ans : answers) (cwd : path) (templates : node)
         (files : list (string * node)) (w : world) (n1 : node) (asked : list event),
    options ans = [] ->
    resolve ["repo-base"] templates = Ok (Dir files) ->
    plain (Dir files) = true ->
    prepared argv0 ans cwd w n1 asked ->
    exists w',
      init argv0 ans cwd templates w = (Ok tt, w') /\
      resolve (path_join cwd (targetDirOf argv0 ans)) (fs w') = Ok (Dir files) /\
      store (path_join cwd (targetDirOf argv0 ans)) (Dir files) n1 = Ok (fs w') /\
      trace w'
      = (trace w ++ asked)
        ++ [Prompt "options"; Compose "repo-base" [];
            ConsoleLog (String "010" "Bootstrapping repo in "
                        ++ path_join_text cwd (targetDirOf argv0 ans))%string].
Proof.
  intros argv0 ans cwd templates files w n1 asked Hopt Hbase Hplain Hprep.
  destruct (init_prepared argv0 ans cwd templates w n1 asked Hprep) as [Hroot ->].
  destruct (composeTemplates_nothing_ticked templates _
              (path_join_text cwd (targetDirOf argv0 ans)) ans files
              (World n1 (trace w ++ asked)) Hopt Hbase Hplain Hroot) as [n' [Hn' ->]].
  exists (World n' ((trace w ++ asked)
                    ++ [Prompt "options"; Compose "repo-base" [];
                        ConsoleLog (String "010" "Bootstrapping repo in "
                                    ++ path_join_text cwd (targetDirOf argv0 ans))%string])).
  repeat split; [exact (resolve_store _ _ _ _ Hn') | exact Hn'].
Qed.

(** *** [copy] and [copyDir] *)

(** A tree of files and directories, every directory listing each name
    once and only names a directory can list. *)
Fixpoint regular (t : node) : bool :=
  match t with
  | File _ => true
  | Other => false
  | Dir entries =>
      distinct (map fst entries)
      && forallb (fun entry : string * node =>
                    validName (fst entry) && regular (snd entry)) entries
  end.

Lemma distinct_fresh (file : string) (names : list string) :
  distinct (file :: names) = true ->
  forall k, In k names -> (file =? k) = false.
Proof.
  simpl. intros H k Hk. apply andb_true_iff in H. destruct H as [H _].
  apply negb_true_iff in H. destruct (file =? k) eqn:E; [|reflexivity].
  apply String.eqb_eq in E. subst k. unfold includes in H.
  assert (Hex : existsb (String.eqb file) names = true).
  { apply existsb_exists. exists file. split; [exact Hk | apply String.eqb_refl]. }
  congruence.
Qed.

(** Copying a list of entries into a directory that has none of their
    names adds them at its end, given that each entry is copied so. *)
Lemma copyEntries_adds (destDir : path) (entries : list (string * node)) :
  Forall (fun entry : string * node =>
            regular (snd entry) = true ->
            forall parent siblings file w,
              resolve parent (fs w) = Ok (Dir siblings) ->
              assoc file siblings = None ->
              exists n',
                copy (snd entry) (parent ++ [file]) w = (Ok tt, World n' (trace w)) /\
                store parent (Dir (siblings ++ [(file, snd entry)])) (fs w) = Ok n')
    entries ->
  regular (Dir entries) = true ->
  forall (pre : list (string * node)) (w : world),
    resolve destDir (fs w) = Ok (Dir pre) ->
    (forall k, In k (map fst entries) -> assoc k pre = None) ->
    exists n',
      copyEntries copy destDir entries w = (Ok tt, World n' (trace w)) /\
      store destDir (Dir (pre ++ entries)) (fs w) = Ok n'.
Proof.
  unfold copyEntries.
  induction 1 as [|[file stat] entries HP _ IH]; intros Hreg pre w Hd Hfresh.
  - exists (fs w). split; [now destruct w|]. rewrite app_nil_r. now apply store_same.
  - pose proof Hreg as Hreg'. simpl in Hreg'. apply andb_true_iff in Hreg'.
    destruct Hreg' as [Hdist Hall].
    pose proof (distinct_fresh file (map fst entries) Hdist) as Hother.
    apply andb_true_iff in Hdist. destruct Hdist as [_ Hdist].
    apply andb_true_iff in Hall. destruct Hall as [Hentry Hall].
    apply andb_true_iff in Hentry. destruct Hentry as [Hname Hsub].
    simpl in Hname, Hsub, HP.
    destruct (HP Hsub destDir pre file w Hd (Hfresh file (or_introl eq_refl)))
      as [n1 [Hrun Hn1]].
    destruct (IH (proj2 (andb_true_iff _ _) (conj Hdist Hall))
                (pre ++ [(file, stat)]) (World n1 (trace w))) as [n' [Hrest Hn']].
    + exact (resolve_store _ _ _ _ Hn1).
    + intros k Hk. rewrite (assoc_app_absent _ _ _ (Hfresh k (or_intror Hk))).
      simpl. now rewrite (Hother k Hk).
    + exists n'. split.
      * rewrite forEach_cons. cbn [fst snd].
        rewrite (path_join_validName _ _ Hname), Hrun. exact Hrest.
      * cbn [fs] in Hn'. rewrite (store_twice _ _ _ _ _ Hn1), <- app_assoc in Hn'.
        exact Hn'.
Qed.

Lemma copy_adds (src : node) :
  regular src = true ->
  forall (parent : path) (siblings : list (string * node)) (file : string) (w : world),
    resolve parent (fs w) = Ok (Dir siblings) ->
    assoc file siblings = None ->
    exists n',
      copy src (parent ++ [file]) w = (Ok tt, World n' (trace w)) /\
      store parent (Dir (siblings ++ [(file, src)])) (fs w) = Ok n'.
Proof.
  induction src as [data|entries IH|] using node_entries_ind;
    intros Hreg parent siblings file w Hd Ha; [| |discriminate].
  - destruct (store_defined parent (Dir (siblings ++ [(file, File data)])) _ _ Hd)
      as [n' Hn'].
    exists n'. split; [|exact Hn'].
    cbn [copy]. unfold copyFileSync, writeFileSync, on_fs.
    now rewrite (resolve_child _ _ _ _ Hd), Ha, (store_child _ _ _ _ _ Hd),
      (set_entry_absent _ _ _ Ha), Hn'.
  - destruct (store_defined parent (Dir (siblings ++ [(file, Dir [])])) _ _ Hd)
      as [n1 Hn1].
    pose proof (resolve_store _ _ _ _ Hn1) as Hd1.
    destruct (copyEntries_adds (parent ++ [file]) entries IH Hreg []
                (World n1 (trace w))) as [n2 [Hrun Hn2]].
    { cbn [fs]. rewrite (resolve_child _ _ _ _ Hd1), (assoc_app_absent _ _ _ Ha).
      simpl. now rewrite String.eqb_refl. }
    { reflexivity. }
    cbn [fs app] in Hn2.
    rewrite (store_child _ _ _ _ _ Hd1), (set_entry_last _ _ _ _ Ha),
      (store_twice _ _ _ _ _ Hn1) in Hn2.
    exists n2. split; [|exact Hn2].
    cbn [copy]. unfold bind, mkdirSync_recursive, on_fs.
    now rewrite (mkdir_p_child _ _ _ _ Hd Ha), Hn1.
Qed.

Lemma copyDir_run (parent : path) (file : string) (entries siblings : list (string * node))
  (w : world) :
  regular (Dir entries) = true ->
  resolve parent (fs w) = Ok (Dir siblings) ->
  assoc file siblings = None \/ assoc file siblings = Some (Dir []) ->
  exists n',
    copyDir (Dir entries) (parent ++ [file]) w = (Ok tt, World n' (trace w)) /\
    store parent (Dir (set_entry file (Dir entries) siblings)) (fs w) = Ok n'.
Proof.
  intros Hreg Hd [Ha | Ha].
  - destruct (copy_adds (Dir entries) Hreg parent siblings file w Hd Ha) as [n' [Hrun Hn']].
    exists n'. split; [exact Hrun | now rewrite (set_entry_absent _ _ _ Ha)].
  - assert (Hdest : resolve (parent ++ [file]) (fs w) = Ok (Dir [])).
    { now rewrite (resolve_child _ _ _ _ Hd), Ha. }
    destruct (copyEntries_adds (parent ++ [file]) entries) with (pre := @nil (string * node))
      (w := w) as [n' [Hrun Hn']]; auto.
    { apply Forall_forall. intros entry _ Hsub. now apply copy_adds. }
    exists n'. split.
    + unfold copyDir, bind, mkdirSync_recursive, on_fs.
      rewrite (mkdir_p_existing _ _ _ Hdest). destruct w. exact Hrun.
    + cbn [app] in Hn'. now rewrite (store_child _ _ _ _ _ Hd) in Hn'.
Qed.

(** X5.  [copyDir] of a tree of files and directories into a directory
    that is not there yet, or is there and empty, below an existing parent,
    leaves there the very tree of the source, under every name as it is in
    the source; nothing else changes. *)
Theorem copyDir_copies_tree :
  forall (parent : path) (file : string) (entries siblings : list (string * node))
         (w : world),
    regular (Dir entries) = true ->
    resolve parent (fs w) = Ok (Dir siblings) ->
    assoc file siblings = None \/ assoc file siblings = Some (Dir []) ->
    exists w',
      copyDir (Dir entries) (parent ++ [file]) w = (Ok tt, w') /\
      resolve (parent ++ [file]) (fs w') = Ok (Dir entries) /\
      store parent (Dir (set_entry file (Dir entries) siblings)) (fs w) = Ok (fs w') /\
      trace w' = trace w.
Proof.
  intros parent file entries siblings w Hreg Hd Ha.
  destruct (copyDir_run parent file entries siblings w Hreg Hd Ha) as [n' [Hrun Hn']].
  exists (World n' (trace w)). repeat split; [exact Hrun | | exact Hn'].
  cbn [fs]. rewrite (resolve_child _ _ _ _ (resolve_store _ _ _ _ Hn')).
  now rewrite assoc_set_entry_same.
Qed.

Lemma plain_regular (t : node) : plain t = true -> regular t = true.
Proof.
  induction t as [data|entries IH|] using node_entries_ind; intros H; try exact H.
  simpl in *. apply andb_true_iff in H. destruct H as [Hd H]. rewrite Hd. simpl.
  clear Hd. induction IH as [|[file stat] entries Hstat _ IHentries]; [reflexivity|].
  simpl in *. apply andb_true_iff in H. destruct H as [Hentry H].
  apply andb_true_iff in Hentry. destruct Hentry as [Hentry Hpl].
  apply andb_true_iff in Hentry. destruct Hentry as [Hname _].
  apply andb_true_iff in Hname. destruct Hname as [Hv _].
  now rewrite Hv, (Hstat Hpl), (IHentries H).
Qed.

(** X6.  On a template of plain files and directories and an empty
    destination below an existing parent, [copyTemplate] with any options
    and [copyDir] do the same. *)
Theorem copyTemplate_agrees_with_copyDir :
  forall (parent : path) (file : string) (files siblings : list (string * node))
         (options : list string) (w : world),
    plain (Dir files) = true ->
    resolve parent (fs w) = Ok (Dir siblings) ->
    assoc file siblings = Some (Dir []) ->
    copyTemplate (Dir files) (parent ++ [file]) options w
    = copyDir (Dir files) (parent ++ [file]) w.
Proof.
  intros parent file files siblings options w Hplain Hd Ha.
  destruct (copyDir_run parent file files siblings w (plain_regular _ Hplain) Hd
              (or_intror Ha)) as [n' [-> Hn']].
  destruct (plain_compose options (Dir files) Hplain files eq_refl (parent ++ [file]) w)
    as [n2 [-> Hn2]].
  { now rewrite (resolve_child _ _ _ _ Hd), Ha. }
  rewrite (store_child _ _ _ _ _ Hd) in Hn2. congruence.
Qed.

(** *** [copyTemplate] over a destination that holds something *)

Lemma plain_entries_hypothesis (options : list string) (files : list (string * node)) :
  Forall (fun entry : string * node =>
            plain (snd entry) = true ->
            forall children, snd entry = Dir children ->
            forall target w1,
              resolve target (fs w1) = Ok (Dir []) ->
              exists n2,
                copyTemplate (snd entry) target options w1
                = (Ok tt, World n2 (trace w1)) /\
                store target (Dir children) (fs w1) = Ok n2) files.
Proof.
  apply Forall_forall. intros entry _ Hplain children Heq.
  exact (plain_compose options (snd entry) Hplain children Heq).
Qed.

(** X7.  A template of plain files and directories composed into a
    directory that holds entries under other names keeps those entries as
    they are and adds the template's after them. *)
Theorem copyTemplate_keeps_other_entries :
  forall (files pre : list (string * node)) (dest : path) (options : list string)
         (w : world),
    plain (Dir files) = true ->
    resolve dest (fs w) = Ok (Dir pre) ->
    (forall k, In k (map fst files) -> assoc k pre = None) ->
    exists w',
      copyTemplate (Dir files) dest options w = (Ok tt, w') /\
      resolve dest (fs w') = Ok (Dir (pre ++ files)) /\
      store dest (Dir (pre ++ files)) (fs w) = Ok (fs w') /\
      trace w' = trace w.
Proof.
  intros files pre dest options w Hplain Hd Hfresh.
  destruct (plain_entries_compose dest options files
              (plain_entries_hypothesis options files) Hplain pre w Hd Hfresh)
    as [n' [Hrun Hn']].
  exists (World n' (trace w)). repeat split; [exact Hrun | | exact Hn'].
  exact (resolve_store _ _ _ _ Hn').
Qed.

(** No file of the tree has a name with a merge strategy. *)
Fixpoint unmergeable (t : node) : bool :=
  match t with
  | Dir entries =>
      forallb (fun entry : string * node =>
                 match snd entry with
                 | File _ => negb (isMergeable (replace_dot_underscore (fst entry)))
                 | _ => true
                 end && unmergeable (snd entry)) entries
  | _ => true
  end.

(** The destination [d] has all of the template [t]: every file of [t]
    with the same bytes, every directory of [t] as a directory that has
    all of it. *)
Fixpoint covers (t d : node) {struct t} : bool :=
  match t, d with
  | File data, File data' => data =? data'
  | Dir files, Dir all =>
      forallb (fun entry : string * node =>
                 match assoc (fst entry) all with
                 | Some c => covers (snd entry) c
                 | None => false
                 end) files
  | _, _ => false
  end.

Lemma copyTemplate_covered (t : node) :
  plain t = true ->
  unmergeable t = true ->
  forall files, t = Dir files ->
  forall (d : node) (dest : path) (options : list string) (w : world),
    covers t d = true ->
    resolve dest (fs w) = Ok d ->
    copyTemplate t dest options w = (Ok tt, w).
Proof.
  induction t as [data|entries IH|] using node_entries_ind;
    intros Hplain Hun files Heq d dest options w Hcov Hd; try discriminate.
  clear files Heq. destruct d as [|all|]; try discriminate.
  rewrite copyTemplate_Dir. cbn [plain] in Hplain.
  apply andb_true_iff in Hplain. destruct Hplain as [_ Hplain].
  cbn [unmergeable] in Hun. cbn [covers] in Hcov.
  induction IH as [|[file stat] entries Hstat _ IHentries]; [reflexivity|].
  simpl in Hplain, Hun, Hcov, Hstat.
  apply andb_true_iff in Hplain. destruct Hplain as [Hentry Hplain].
  apply andb_true_iff in Hentry. destruct Hentry as [Hentry Hpl].
  apply andb_true_iff in Hentry. destruct Hentry as [Hname Hmark].
  apply andb_true_iff in Hname. destruct Hname as [Hv Hr].
  apply String.eqb_eq in Hr.
  apply andb_true_iff in Hun. destruct Hun as [Hfile Hun].
  apply andb_true_iff in Hfile. destruct Hfile as [Hfile Hsub].
  apply andb_true_iff in Hcov. destruct Hcov as [Hc Hcov].
  destruct (assoc file all) as [c|] eqn:Ha; [|discriminate].
  rewrite forEach_cons.
  assert (Hstep : copyTemplateEntry copyTemplate dest options (file, stat) w = (Ok tt, w)).
  { unfold copyTemplateEntry. rewrite Hr, (path_join_validName _ _ Hv).
    pose proof (resolve_child _ file _ _ Hd) as Hr'. rewrite Ha in Hr'.
    destruct stat as [data|children|]; [| |discriminate].
    - destruct c as [data'| |]; try discriminate. simpl in Hc.
      apply String.eqb_eq in Hc. subst data'. rewrite Hr in Hfile.
      unfold copyTemplateFile, bind, existsSync, copyFileSync, writeFileSync, on_fs.
      rewrite (path_join_validName _ _ Hv), Hr', Hfile. simpl.
      rewrite Hr', (store_same _ _ _ Hr'). now destruct w.
    - simpl in Hmark. apply negb_true_iff in Hmark. rewrite Hmark.
      unfold bind, existsSync. rewrite Hr'. simpl.
      exact (Hstat Hpl Hsub children eq_refl c _ options w Hc Hr'). }
  rewrite Hstep. now apply IHentries.
Qed.

(** X8.  Composing a template of plain files and directories, none of
    them a file with a merge strategy, into a destination that has all of
    it already changes nothing at all: composing is idempotent there. *)
Theorem copyTemplate_again_changes_nothing :
  forall (files : list (string * node)) (d : node) (dest : path)
         (options : list string) (w : world),
    plain (Dir files) = true ->
    unmergeable (Dir files) = true ->
    covers (Dir files) d = true ->
    resolve dest (fs w) = Ok d ->
    copyTemplate (Dir files) dest options w = (Ok tt, w).
Proof.
  intros files d dest options w Hplain Hun Hcov Hd.
  exact (copyTemplate_covered (Dir files) Hplain Hun files eq_refl d dest options w
           Hcov Hd).
Qed.

Lemma copyTemplateFile_onto_directory (dest : path) (actualFileName data : string)
  (entries sub : list (string * node)) (w : world) :
  validName actualFileName = true ->
  resolve dest (fs w) = Ok (Dir entries) ->
  assoc actualFileName entries = Some (Dir sub) ->
  copyTemplateFile dest actualFileName data w = (Throw EISDIR, w).
Proof.
  intros Hv Hd Ha.
  pose proof (resolve_child _ actualFileName _ _ Hd) as Hr. rewrite Ha in Hr.
  unfold copyTemplateFile, bind, existsSync.
  rewrite (path_join_validName _ _ Hv), Hr. cbn [is_ok negb orb].
  destruct (isMergeable actualFileName) eqn:Hm; cbn [negb].
  - destruct (mergeFiles_strategy _ Hm) as [-> | ->]; cbn [mergeFile String.eqb];
      simpl; unfold mergeJsonFile, appendFiles, bind, readFileSync; now rewrite Hr.
  - unfold copyFileSync, writeFileSync. now rewrite Hr.
Qed.

(** X9.  A file of the template whose target is a directory stops the
    composition with [EISDIR], whether its name has a merge strategy or
    not: nothing is written for it, and the entries after it are not
    composed. *)
Theorem copyTemplate_file_onto_directory :
  forall (dest : path) (options : list string) (file data : string)
         (rest entries sub : list (string * node)) (w : world),
    validName (replace_dot_underscore file) = true ->
    resolve dest (fs w) = Ok (Dir entries) ->
    assoc (replace_dot_underscore file) entries = Some (Dir sub) ->
    copyTemplate (Dir ((file, File data) :: rest)) dest options w = (Throw EISDIR, w).
Proof.
  intros dest options file data rest entries sub w Hv Hd Ha.
  rewrite copyTemplate_Dir, forEach_cons. unfold copyTemplateEntry.
  now rewrite (copyTemplateFile_onto_directory dest _ data entries sub w Hv Hd Ha).
Qed.

(** The [.tsukemono] branch composes the directories it selects, one after
    the other. *)
Lemma overrides_selected (dest : path) (options : list string)
  (overrides : list (string * node)) :
  forall w,
    copyTemplateEntry copyTemplate dest options (".tsukemono", Dir overrides) w
    = forEach (fun override : string * node => copyTemplate (snd override) dest [])
        (filter (fun override : string * node =>
                   isDir (snd override)
                   && includes options (replace_with_prefix (fst override)))
           overrides) w.
Proof.
  unfold copyTemplateEntry.
  change (".tsukemono" =? ".tsukemono") with true. cbv iota.
  induction overrides as [|[overrideName overrideDir] overrides IH]; intros w;
    [reflexivity|].
  rewrite forEach_cons. cbn [filter fst snd].
  destruct overrideDir as [data|children|]; cbn [isDir andb]; try apply IH.
  destruct (includes options (replace_with_prefix overrideName)).
  - rewrite forEach_cons. cbn [snd].
    destruct (copyTemplate _ dest [] w) as [[[]|e] w']; [apply IH | reflexivity].
  - apply IH.
Qed.

(** X10.  Of a [.tsukemono] directory whose overrides are for options that
    are not among the applied ones nothing reaches the destination; and
    when one override is selected, its plain files and directories land in
    the destination directory itself, after the entries that are there,
    not in a directory of the override's name. *)
Theorem overrides_flattened :
  forall (dest : path) (options : list string) (overrides : list (string * node))
         (w : world),
    (filter (fun override : string * node =>
               isDir (snd override)
               && includes options (replace_with_prefix (fst override)))
       overrides = [] ->
     copyTemplateEntry copyTemplate dest options (".tsukemono", Dir overrides) w
     = (Ok tt, w)) /\
    (forall (overrideName : string) (files pre : list (string * node)),
        filter (fun override : string * node =>
                  isDir (snd override)
                  && includes options (replace_with_prefix (fst override)))
          overrides = [(overrideName, Dir files)] ->
        plain (Dir files) = true ->
        resolve dest (fs w) = Ok (Dir pre) ->
        (forall k, In k (map fst files) -> assoc k pre = None) ->
        exists w',
          copyTemplateEntry copyTemplate dest options (".tsukemono", Dir overrides) w
          = (Ok tt, w') /\
          resolve dest (fs w') = Ok (Dir (pre ++ files)) /\
          trace w' = trace w).
Proof.
  intros dest options overrides w. split.
  - intros Hnone. now rewrite overrides_selected, Hnone.
  - intros overrideName files pre Hone Hplain Hd Hfresh.
    destruct (plain_entries_compose dest [] files
                (plain_entries_hypothesis [] files) Hplain pre w Hd Hfresh)
      as [n' [Hrun Hn']].
    exists (World n' (trace w)). repeat split; [|exact (resolve_store _ _ _ _ Hn')].
    rewrite overrides_selected, Hone, forEach_cons. cbn [snd].
    rewrite copyTemplate_Dir, Hrun. reflexivity.
Qed.

(** *** One file at a time *)

Lemma writeFileSync_atomic (p : path) (data : string) (w : world) :
  is_ok (fst (writeFileSync p data w)) = false -> snd (writeFileSync p data w) = w.
Proof.
  unfold writeFileSync, on_fs.
  destruct (resolve p (fs w)) as [[| |]|e]; try reflexivity;
    destruct (store p (File data) (fs w)); (discriminate || reflexivity).
Qed.

Lemma mergeJsonFile_atomic (existing : path) (template : string) (w : world) :
  is_ok (fst (mergeJsonFile existing template w)) = false ->
  snd (mergeJsonFile existing template w) = w.
Proof.
  unfold mergeJsonFile, bind, readFileSync, parse.
  destruct (resolve existing (fs w)) as [[existingText| |]|e]; try reflexivity.
  destruct (JSON_parse (trim existingText)) as [a|]; [|reflexivity]. cbn [ret].
  destruct (JSON_parse (trim template)) as [b|]; [|reflexivity]. cbn [ret].
  destruct (mergeWith customizer a b); [apply writeFileSync_atomic | reflexivity].
Qed.

(** X11.  What [copyTemplate] does for one file of the template is done
    whole or not at all: when the step throws (the target is a directory,
    a parent is missing, a file does not parse, ...), the filesystem and the
    trace are as before the step. *)
Theorem copyTemplateFile_all_or_nothing :
  forall (dest : path) (actualFileName data : string) (w : world),
    is_ok (fst (copyTemplateFile dest actualFileName data w)) = false ->
    snd (copyTemplateFile dest actualFileName data w) = w.
Proof.
  intros dest actualFileName data w. unfold copyTemplateFile, bind, existsSync.
  destruct (negb _ || negb _).
  - apply writeFileSync_atomic.
  - unfold mergeFile. destruct (assoc actualFileName mergeFiles) as [strategy|];
      [|reflexivity].
    destruct (strategy =? "json"); [apply mergeJsonFile_atomic|].
    destruct (strategy =? "append"); [|reflexivity].
    unfold appendFiles, bind, readFileSync, emit.
    destruct (resolve _ (fs w)) as [[| |]|e]; (discriminate || reflexivity).
Qed.

(** X12.  When the destination's file and the template's file parse and
    lodash merges the two documents, [mergeJsonFile] succeeds and the
    destination's file holds the printed merge; nothing else changes.  When
    one of the two does not parse it throws a [SyntaxError] and the
    destination's file is as it was. *)
Theorem mergeJsonFile_writes_merge :
  forall (existing : path) (template existingText : string) (w : world),
    resolve existing (fs w) = Ok (File existingText) ->
    (forall a b content,
        JSON_parse (trim existingText) = Some a ->
        JSON_parse (trim template) = Some b ->
        mergeWith customizer a b = Some content ->
        exists w',
          mergeJsonFile existing template w = (Ok tt, w') /\
          store existing (File (JSON_stringify content)) (fs w) = Ok (fs w') /\
          resolve existing (fs w') = Ok (File (JSON_stringify content)) /\
          trace w' = trace w) /\
    (JSON_parse (trim existingText) = None \/ JSON_parse (trim template) = None ->
     mergeJsonFile existing template w = (Throw SyntaxError, w)).
Proof.
  intros existing template existingText w Hfile. split.
  - intros a b content Ha Hb Hm.
    destruct (store_defined existing (File (JSON_stringify content)) _ _ Hfile)
      as [n' Hn'].
    exists (World n' (trace w)). repeat split; [|exact Hn'|exact (resolve_store _ _ _ _ Hn')].
    unfold mergeJsonFile, bind, readFileSync, parse. rewrite Hfile, Ha. cbn [ret].
    rewrite Hb. cbn [ret]. rewrite Hm. unfold writeFileSync, on_fs.
    now rewrite Hfile, Hn'.
  - intros Hbad. unfold mergeJsonFile, bind, readFileSync, parse. rewrite Hfile.
    destruct (JSON_parse (trim existingText)) as [a|]; [|reflexivity].
    destruct Hbad as [Hbad | ->]; [discriminate | reflexivity].
Qed.

(** *** The merge, key by key *)

(** The value under a key of the source after the merge: what
    [baseMergeDeep] makes of the destination's value and the source's. *)
Lemma baseMergeWith_key (k : string) (v : json) (source : list (string * json)) :
  forall object content,
    distinct (map fst source) = true ->
    assoc k source = Some v ->
    (k =? "__proto__") && isObject v = false ->
    baseMergeWith (baseMergeDeep customizer) source object = Some content ->
    exists newValue,
      baseMergeDeep customizer (safeGet object k) v = Some newValue /\
      assoc k content = Some newValue.
Proof.
  induction source as [|[key srcValue] source IH]; intros object content Hd Hs Hp H;
    [discriminate|].
  simpl in Hd. apply andb_true_iff in Hd. destruct Hd as [Hfresh Hd].
  apply negb_true_iff in Hfresh. simpl in Hs. cbn [baseMergeWith] in H.
  destruct (key =? k) eqn:Ek.
  - apply String.eqb_eq in Ek. subst key. injection Hs as ->. rewrite Hp in H.
    destruct (baseMergeDeep customizer (safeGet object k) v) as [newValue|];
      [|discriminate].
    exists newValue. split; [reflexivity|].
    rewrite (baseMergeWith_other_key _ _ _ _ _ Hfresh H).
    apply assoc_set_entry_same.
  - assert (Hne : key <> k) by (intros ->; now rewrite String.eqb_refl in Ek).
    destruct ((key =? "__proto__") && isObject srcValue); [now apply (IH object)|].
    destruct (baseMergeDeep customizer (safeGet object key) srcValue) as [newValue|];
      [|discriminate].
    destruct (IH (set_entry key newValue object) content Hd Hs Hp H) as [nv [H1 H2]].
    exists nv. split; [|exact H2].
    now rewrite safeGet_set_entry_other in H1.
Qed.

(** X13.  A key that the template's document does not have keeps, in the
    merge, the value the destination's document has under it (and stays
    absent when the destination has none). *)
Theorem merge_keeps_destination_keys :
  forall (A B merged : list (string * json)) (k : string),
    mergeWith customizer (JObject A) (JObject B) = Some (JObject merged) ->
    includes (map fst B) k = false ->
    assoc k merged = assoc k A.
Proof.
  intros A B merged k Hm Hk. simpl in Hm.
  destruct (baseMerge customizer B A) as [m|] eqn:E; [|discriminate].
  injection Hm as <-. exact (baseMergeWith_other_key _ _ _ _ _ Hk E).
Qed.

(** A value of the destination that is no array and no object, or no
    value at all. *)
Definition plainValue (objValue : option json) : bool :=
  match objValue with
  | Some v => isPrimitive v
  | None => true
  end.

(** X14.  Under a key where the template's document has a primitive and
    the destination's has no array, the merge has the template's value:
    the template wins. *)
Theorem merge_template_primitive_wins :
  forall (A B merged : list (string * json)) (k : string) (v : json),
    mergeWith customizer (JObject A) (JObject B) = Some (JObject merged) ->
    distinct (map fst B) = true ->
    assoc k B = Some v ->
    isPrimitive v = true ->
    (forall xs, safeGet A k <> Some (JArray xs)) ->
    assoc k merged = Some v.
Proof.
  intros A B merged k v Hm Hd Hv Hprim Harr. simpl in Hm.
  destruct (baseMerge customizer B A) as [m|] eqn:E; [|discriminate].
  injection Hm as <-.
  destruct (baseMergeWith_key k v B A m Hd Hv) as [nv [Hnv Hk]]; [|exact E|].
  { destruct v; try discriminate; apply andb_false_r. }
  rewrite Hk. rewrite <- Hnv.
  destruct (safeGet A k) as [[| | | |xs|]|]; destruct v; try discriminate;
    try reflexivity; now destruct (Harr xs).
Qed.

(** X15.  Under a key other than [__proto__] where the destination's
    document has an array and the template's has a primitive, the merge
    has the destination's array with the primitive added at its end,
    unless it is a member already: the template does not win there.
    (Under [__proto__] lodash does not see the destination's array, and
    the template's primitive takes its place.) *)
Theorem merge_array_absorbs_primitive :
  forall (A B merged : list (string * json)) (k : string) (xs : list json) (v : json),
    mergeWith customizer (JObject A) (JObject B) = Some (JObject merged) ->
    distinct (map fst B) = true ->
    (k =? "__proto__") = false ->
    assoc k A = Some (JArray xs) ->
    assoc k B = Some v ->
    isPrimitive v = true ->
    assoc k merged = Some (JArray (array_from_set (xs ++ [v]))).
Proof.
  intros A B merged k xs v Hm Hd Hp Hxs Hv Hprim. simpl in Hm.
  destruct (baseMerge customizer B A) as [m|] eqn:E; [|discriminate].
  injection Hm as <-.
  destruct (baseMergeWith_key k v B A m Hd Hv) as [nv [Hnv Hk]]; [|exact E|].
  { now rewrite Hp. }
  rewrite Hk, <- Hnv. unfold safeGet. rewrite Hp, Hxs.
  destruct v; try discriminate; reflexivity.
Qed.

(** The value at the end of a path of keys into a document. *)
Fixpoint atPath (keys : list string) (v : json) : option json :=
  match keys with
  | [] => Some v
  | k :: rest =>
      match v with
      | JObject props =>
          match assoc k props with
          | Some c => atPath rest c
          | None => None
          end
      | _ => None
      end
  end.

Lemma distinctKeys_assoc (k : string) (props : list (string * json)) (v : json) :
  distinctKeys (JObject props) = true ->
  assoc k props = Some v -> distinctKeys v = true.
Proof.
  simpl. intros H Ha. apply andb_true_iff in H. destruct H as [_ H].
  induction props as [|[k' x] props IH]; simpl in *; [discriminate|].
  apply andb_true_iff in H. destruct H as [Hx H].
  destruct (k' =? k); [now injection Ha as <- | auto].
Qed.

Lemma merge_under_path (keys : list string) (k : string) (xs ys : list json) :
  forall (A B merged : list (string * json)),
    forallb (fun key => negb (key =? "__proto__")) (keys ++ [k]) = true ->
    distinctKeys (JObject B) = true ->
    atPath (keys ++ [k]) (JObject A) = Some (JArray xs) ->
    atPath (keys ++ [k]) (JObject B) = Some (JArray ys) ->
    baseMerge customizer B A = Some merged ->
    atPath (keys ++ [k]) (JObject merged) = Some (JArray (array_from_set (xs ++ ys))).
Proof.
  induction keys as [|key keys IH]; intros A B merged Hp HB HA HBk Hm.
  - simpl in *. apply andb_true_iff in Hp. destruct Hp as [Hp _].
    apply negb_true_iff in Hp.
    apply andb_true_iff in HB. destruct HB as [Hd _].
    destruct (assoc k A) as [[| | | |xs'|]|] eqn:EA; try discriminate.
    destruct (assoc k B) as [[| | | |ys'|]|] eqn:EB; try discriminate.
    injection HA as ->. injection HBk as ->.
    now rewrite (baseMerge_array_key k xs ys B A merged Hd Hp EA EB Hm).
  - cbn [app forallb] in Hp. apply andb_true_iff in Hp. destruct Hp as [Hkey Hp].
    apply negb_true_iff in Hkey.
    cbn [app atPath] in HA, HBk |- *.
    destruct (assoc key A) as [a|] eqn:EA; [|discriminate].
    destruct (assoc key B) as [b|] eqn:EB; [|discriminate].
    assert (Hobj : forall v, atPath (keys ++ [k]) v = None \/ exists props, v = JObject props).
    { intros v. destruct (keys ++ [k]) eqn:E; [now destruct keys|].
      destruct v; simpl; eauto. }
    destruct (Hobj a) as [Hn | [pa ->]]; [congruence|].
    destruct (Hobj b) as [Hn | [pb ->]]; [congruence|].
    pose proof HB as HB'. simpl in HB'. apply andb_true_iff in HB'.
    destruct HB' as [Hd _].
    destruct (baseMergeWith_key key (JObject pb) B A merged Hd EB) as [nv [Hnv Hk]];
      [now rewrite Hkey | exact Hm |].
    unfold safeGet in Hnv. rewrite Hkey, EA in Hnv. cbn in Hnv.
    fold (baseMerge customizer pb pa) in Hnv.
    destruct (baseMerge customizer pb pa) as [m|] eqn:Em; [|discriminate].
    cbn in Hnv. injection Hnv as <-. rewrite Hk.
    exact (IH pa pb m Hp (distinctKeys_assoc _ _ _ HB EB) HA HBk Em).
Qed.

(** X16.  The union of arrays is made at every depth: when both documents
    hold an array at the end of the same path of keys, none of them
    [__proto__], the merge holds there the destination's array followed by
    the template's, without the primitives that equal an earlier member. *)
Theorem merge_unites_nested_arrays :
  forall (A B merged : list (string * json)) (keys : list string) (k : string)
         (xs ys : list json),
    mergeWith customizer (JObject A) (JObject B) = Some (JObject merged) ->
    forallb (fun key => negb (key =? "__proto__")) (keys ++ [k]) = true ->
    distinctKeys (JObject B) = true ->
    atPath (keys ++ [k]) (JObject A) = Some (JArray xs) ->
    atPath (keys ++ [k]) (JObject B) = Some (JArray ys) ->
    atPath (keys ++ [k]) (JObject merged) = Some (JArray (array_from_set (xs ++ ys))).
Proof.
  intros A B merged keys k xs ys Hm Hp HB HA HBk. simpl in Hm.
  destruct (baseMerge customizer B A) as [m|] eqn:E; [|discriminate].
  injection Hm as <-. exact (merge_under_path keys k xs ys A B m Hp HB HA HBk E).
Qed.

(** No property of the value, at any depth, is an array or an object
    under the key [__proto__]. *)
Fixpoint noProtoKey (v : json) : bool :=
  match v with
  | JArray items => forallb noProtoKey items
  | JObject props =>
      forallb (fun p => negb ((fst p =? "__proto__") && isObject (snd p))
                        && noProtoKey (snd p)) props
  | _ => true
  end.

Lemma baseMergeWith_fresh (source : list (string * json)) :
  Forall (fun p =>
            distinctKeys (snd p) = true -> noProtoKey (snd p) = true ->
            forall objValue, plainValue objValue = true ->
                             baseMergeDeep customizer objValue (snd p) = Some (snd p))
    source ->
  distinctKeys (JObject source) = true ->
  noProtoKey (JObject source) = true ->
  forall object,
    (forall key, In key (map fst source) -> assoc key object = None) ->
    baseMergeWith (baseMergeDeep customizer) source object = Some (object ++ source).
Proof.
  induction 1 as [|[key srcValue] source Hdeep _ IH]; intros Hd Hp object Hfresh.
  - simpl. now rewrite app_nil_r.
  - pose proof Hd as Hd'. simpl in Hd'. apply andb_true_iff in Hd'.
    destruct Hd' as [Hdist Hall].
    pose proof (distinct_fresh key (map fst source) Hdist) as Hother.
    apply andb_true_iff in Hdist. destruct Hdist as [_ Hdist].
    apply andb_true_iff in Hall. destruct Hall as [Hsrc Hall].
    simpl in Hp. apply andb_true_iff in Hp. destruct Hp as [Hentry Hp].
    apply andb_true_iff in Hentry. destruct Hentry as [Hguard Hnp].
    apply negb_true_iff in Hguard. simpl in Hdeep, Hguard, Hsrc, Hnp.
    cbn [baseMergeWith]. rewrite Hguard.
    assert (Hget : plainValue (safeGet object key) = true).
    { unfold safeGet. destruct (key =? "__proto__"); [reflexivity|].
      now rewrite (Hfresh key (or_introl eq_refl)). }
    rewrite (Hdeep Hsrc Hnp _ Hget).
    rewrite (set_entry_absent _ _ _ (Hfresh key (or_introl eq_refl))).
    rewrite IH.
    + now rewrite <- app_assoc.
    + simpl. now rewrite Hdist, Hall.
    + exact Hp.
    + intros k Hk. rewrite (assoc_app_absent _ _ _ (Hfresh k (or_intror Hk))).
      simpl. now rewrite (Hother k Hk).
Qed.

Lemma baseMergeDeep_clones (srcValue : json) :
  distinctKeys srcValue = true ->
  noProtoKey srcValue = true ->
  forall objValue,
    plainValue objValue = true ->
    baseMergeDeep customizer objValue srcValue = Some srcValue.
Proof.
  induction srcValue as [|b|n|s|items IH|props IH] using json_values_ind;
    intros Hd Hp objValue Hplain;
    try (destruct objValue as [[]|]; try discriminate; reflexivity).
  - assert (Hclone : cloneItems (baseMergeDeep customizer) items = Some items).
    { simpl in Hd, Hp. induction IH as [|x items Hx _ IHitems]; [reflexivity|].
      simpl in Hd, Hp. apply andb_true_iff in Hd. destruct Hd as [Hdx Hd].
      apply andb_true_iff in Hp. destruct Hp as [Hpx Hp].
      cbn [cloneItems]. rewrite (Hx Hdx Hpx None eq_refl).
      fold (cloneItems (baseMergeDeep customizer)). now rewrite (IHitems Hd Hp). }
    destruct objValue as [[]|]; try discriminate; simpl; now rewrite Hclone.
  - assert (Hmerge : baseMergeWith (baseMergeDeep customizer) props [] = Some props).
    { now apply (baseMergeWith_fresh props IH Hd Hp []). }
    destruct objValue as [[]|]; try discriminate; simpl; now rewrite Hmerge.
Qed.

(** X17.  Under a key where the destination's document has nothing, or a
    primitive, the merge has the template's value as it is in the
    template, whatever it is (the template's value having no array or
    object under a key [__proto__]). *)
Theorem merge_takes_template_value :
  forall (A B merged : list (string * json)) (k : string) (v : json),
    mergeWith customizer (JObject A) (JObject B) = Some (JObject merged) ->
    distinctKeys (JObject B) = true ->
    (k =? "__proto__") = false ->
    assoc k B = Some v ->
    noProtoKey v = true ->
    plainValue (assoc k A) = true ->
    assoc k merged = Some v.
Proof.
  intros A B merged k v Hm HB Hk Hv Hnp Hplain. simpl in Hm.
  destruct (baseMerge customizer B A) as [m|] eqn:E; [|discriminate].
  injection Hm as <-.
  pose proof HB as HB'. simpl in HB'. apply andb_true_iff in HB'. destruct HB' as [Hd _].
  destruct (baseMergeWith_key k v B A m Hd Hv) as [nv [Hnv Hkm]];
    [now rewrite Hk | exact E |].
  rewrite Hkm, <- Hnv. unfold safeGet. rewrite Hk.
  exact (baseMergeDeep_clones v (distinctKeys_assoc _ _ _ HB Hv) Hnp _ Hplain).
Qed.

(** *** The members of a set *)

Lemma set_add_extends (xs seen : list json) :
  exists added, fold_left set_add xs seen = seen ++ added.
Proof.
  revert seen. induction xs as [|x xs IH]; intros seen.
  - exists []. simpl. now rewrite app_nil_r.
  - cbn [fold_left]. destruct (IH (set_add seen x)) as [added ->].
    unfold set_add. destruct (existsb (sameValueZero x) seen).
    + now exists added.
    + exists (x :: added). now rewrite <- app_assoc.
Qed.

Definition noneSameBefore (members : list json) : Prop :=
  forall earlier y later,
    members = earlier ++ y :: later -> existsb (sameValueZero y) earlier = false.

Lemma set_add_noneSameBefore (xs : list json) :
  forall seen, noneSameBefore seen -> noneSameBefore (fold_left set_add xs seen).
Proof.
  induction xs as [|x xs IH]; intros seen Hseen; [exact Hseen|].
  cbn [fold_left]. apply IH. unfold set_add.
  destruct (existsb (sameValueZero x) seen) eqn:E; [exact Hseen|].
  intros earlier y later Heq.
  destruct later as [|z later] using rev_ind.
  - apply app_inj_tail in Heq. destruct Heq as [<- <-]. exact E.
  - clear IHlater. rewrite app_comm_cons, app_assoc in Heq.
    apply app_inj_tail in Heq. destruct Heq as [Heq _]. exact (Hseen _ _ _ Heq).
Qed.

(** X18.  [Array.from(new Set(xs))] has members of [xs] only; every
    member of [xs] is in it or is the same as one that is; and no member is
    the same as one before it. *)
Theorem array_from_set_members :
  forall xs : list json,
    (forall x, In x (array_from_set xs) -> In x xs) /\
    (forall x, In x xs ->
               In x (array_from_set xs)
               \/ existsb (sameValueZero x) (array_from_set xs) = true) /\
    noneSameBefore (array_from_set xs).
Proof.
  intros xs. unfold array_from_set. split; [|split].
  - enough (G : forall seen x, In x (fold_left set_add xs seen) -> In x seen \/ In x xs).
    { intros x Hx. destruct (G [] x Hx) as [[] | H]. exact H. }
    induction xs as [|y xs IH]; intros seen x Hx; [now left|].
    cbn [fold_left] in Hx. destruct (IH _ _ Hx) as [H | H]; [|right; now right].
    unfold set_add in H. destruct (existsb (sameValueZero y) seen); [now left|].
    apply in_app_or in H. destruct H as [H | [<- | []]]; [now left | right; now left].
  - enough (G : forall seen x,
               In x xs ->
               In x (fold_left set_add xs seen)
               \/ existsb (sameValueZero x) (fold_left set_add xs seen) = true)
      by (intros x; apply G).
    induction xs as [|y xs IH]; intros seen x Hx; [destruct Hx|].
    cbn [fold_left]. destruct Hx as [-> | Hx]; [|now apply IH].
    destruct (set_add_extends xs (set_add seen x)) as [added ->].
    unfold set_add. destruct (existsb (sameValueZero x) seen) eqn:E.
    + right. now rewrite existsb_app, E.
    + left. apply in_or_app. left. apply in_or_app. right. now left.
  - apply set_add_noneSameBefore. intros earlier y later Heq.
    now destruct earlier.
Qed.

(** *** What every composition keeps

    A relation between the world before and the world after, told by the
    destination, that every write of [copyTemplate] respects, holds of the
    whole composition. *)

Section Kept.

Variable R : path -> world -> world -> Prop.
Variable okName : string -> bool.

Hypothesis R_refl : forall dest w, R dest w w.
Hypothesis R_trans : forall dest w1 w2 w3, R dest w1 w2 -> R dest w2 w3 -> R dest w1 w3.
Hypothesis R_emit : forall dest e w, R dest w (World (fs w) (trace w ++ [e])).
Hypothesis R_write :
  forall dest actualFileName data w,
    okName actualFileName = true ->
    R dest w (snd (writeFileSync (path_join dest actualFileName) data w)).
Hypothesis R_mkdir :
  forall dest actualFileName w,
    okName actualFileName = true ->
    R dest w (snd (mkdirSync (path_join dest actualFileName) w)).
Hypothesis R_deeper :
  forall dest actualFileName w w',
    okName actualFileName = true ->
    R (path_join dest actualFileName) w w' -> R dest w w'.

(** The names of the template, as they are composed, are all right. *)
Fixpoint okNames (t : node) : bool :=
  match t with
  | Dir entries =>
      forallb (fun entry : string * node =>
                 okName (replace_dot_underscore (fst entry)) && okNames (snd entry))
        entries
  | _ => true
  end.

Definition kept {A} (dest : path) (m : M A) : Prop :=
  forall w, R dest w (snd (m w)).

Lemma kept_bind {A B} (dest : path) (m : M A) (k : A -> M B) :
  kept dest m -> (forall a, kept dest (k a)) -> kept dest (bind m k).
Proof.
  intros Hm Hk w. unfold bind. specialize (Hm w).
  destruct (m w) as [[a|e] w']; [|exact Hm].
  exact (R_trans _ _ _ _ Hm (Hk a w')).
Qed.

Lemma kept_forEach {A} (dest : path) (f : A -> M unit) (xs : list A) :
  Forall (fun x => kept dest (f x)) xs -> kept dest (forEach f xs).
Proof.
  induction 1 as [|x xs Hx _ IH]; [intros w; apply R_refl|].
  change (forEach f (x :: xs)) with (f x ;; forEach f xs).
  apply kept_bind; auto.
Qed.

Lemma kept_unchanged {A} (dest : path) (m : M A) :
  (forall w, snd (m w) = w) -> kept dest m.
Proof. intros H w. rewrite H. apply R_refl. Qed.

Lemma kept_copyTemplateFile (dest : path) (actualFileName data : string) :
  okName actualFileName = true ->
  kept dest (copyTemplateFile dest actualFileName data).
Proof.
  intros Hok. unfold copyTemplateFile.
  apply kept_bind; [now apply kept_unchanged | intros present].
  destruct (negb present || negb (isMergeable actualFileName)).
  { intros w. now apply R_write. }
  unfold mergeFile. destruct (assoc actualFileName mergeFiles) as [strategy|];
    [|now apply kept_unchanged].
  destruct (strategy =? "json"); [|destruct (strategy =? "append")].
  - unfold mergeJsonFile.
    apply kept_bind; [|intros existingText; apply kept_bind; [|intros a; apply kept_bind]].
    + apply kept_unchanged. intros w. unfold readFileSync.
      now destruct (resolve _ (fs w)) as [[| |]|e].
    + apply kept_unchanged. intros w. unfold parse. now destruct (JSON_parse _).
    + apply kept_unchanged. intros w. unfold parse. now destruct (JSON_parse _).
    + intros b. destruct (mergeWith customizer a b); [|now apply kept_unchanged].
      intros w. now apply R_write.
  - unfold appendFiles. apply kept_bind.
    + apply kept_unchanged. intros w. unfold readFileSync.
      now destruct (resolve _ (fs w)) as [[| |]|e].
    + intros existingText w. apply R_emit.
  - now apply kept_unchanged.
Qed.

Lemma kept_copyTemplate_entries (template : node) :
  okNames template = true ->
  (forall (dest : path) (options : list string),
      kept dest (copyTemplate template dest options)) /\
  (forall children, template = Dir children ->
     Forall (fun entry : string * node =>
               forall (dest : path) (options : list string),
                 kept dest (copyTemplate (snd entry) dest options)) children).
Proof.
  induction template as [data|entries IH|] using node_entries_ind; intros Hok;
    try (split; [intros dest options; now apply kept_unchanged | discriminate]).
  assert (Hall : Forall (fun entry : string * node =>
                           okName (replace_dot_underscore (fst entry)) = true /\
                           (forall dest options,
                               kept dest (copyTemplate (snd entry) dest options)) /\
                           (forall children, snd entry = Dir children ->
                              Forall (fun sub : string * node =>
                                        forall dest options,
                                          kept dest (copyTemplate (snd sub) dest options))
                                children)) entries).
  { cbn [okNames] in Hok. induction IH as [|entry entries Hentry _ IHentries];
      constructor.
    - cbn [forallb] in Hok. apply andb_true_iff in Hok. destruct Hok as [Hk _].
      apply andb_true_iff in Hk. destruct Hk as [Hname Hsub].
      destruct (Hentry Hsub) as [H1 H2]. auto.
    - apply IHentries. cbn [forallb] in Hok. now apply andb_true_iff in Hok. }
  split.
  - intros dest options. rewrite copyTemplate_Dir. apply kept_forEach.
    eapply Forall_impl; [|exact Hall].
    intros [file stat] [Hname [Hstat Hsub]]. cbn [fst snd] in *.
    unfold copyTemplateEntry. destruct stat as [data|children|].
    + now apply kept_copyTemplateFile.
    + destruct (file =? ".tsukemono").
      * apply kept_forEach. eapply Forall_impl; [|exact (Hsub children eq_refl)].
        intros [overrideName overrideDir] Hover. cbn [snd] in Hover.
        destruct overrideDir; try (now apply kept_unchanged).
        destruct (includes options (replace_with_prefix overrideName));
          [apply Hover | now apply kept_unchanged].
      * apply kept_bind; [now apply kept_unchanged | intros present].
        apply kept_bind.
        { destruct (negb present); [|now apply kept_unchanged].
          intros w. now apply R_mkdir. }
        intros _ w. apply (R_deeper _ _ _ _ Hname). apply Hstat.
    + now apply kept_unchanged.
  - intros children Heq. injection Heq as <-.
    eapply Forall_impl; [|exact Hall]. now intros entry [_ [H _]].
Qed.

Lemma kept_copyTemplate (template : node) (dest : path) (options : list string) :
  okNames template = true -> kept dest (copyTemplate template dest options).
Proof. intros Hok. now apply kept_copyTemplate_entries. Qed.

End Kept.

(** *** Nothing of the destination is lost *)

Definition sameKind (a b : node) : bool :=
  match a, b with
  | File _, File _ => true
  | Dir _, Dir _ => true
  | Other, Other => true
  | _, _ => false
  end.

(** Every path of [n] leads somewhere in [n'], to an entry of the same
    kind. *)
Definition keepsEntries (n n' : node) : Prop :=
  forall (p : path) (c : node),
    resolve p n = Ok c -> exists c', resolve p n' = Ok c' /\ sameKind c c' = true.

Lemma sameKind_refl (a : node) : sameKind a a = true.
Proof. now destruct a. Qed.

Lemma sameKind_trans (a b c : node) :
  sameKind a b = true -> sameKind b c = true -> sameKind a c = true.
Proof. destruct a, b, c; simpl; congruence. Qed.

Lemma keepsEntries_refl (n : node) : keepsEntries n n.
Proof. intros p c H. exists c. split; [exact H | apply sameKind_refl]. Qed.

Lemma keepsEntries_trans (n1 n2 n3 : node) :
  keepsEntries n1 n2 -> keepsEntries n2 n3 -> keepsEntries n1 n3.
Proof.
  intros H12 H23 p c H. destruct (H12 p c H) as [c2 [H2 K2]].
  destruct (H23 p c2 H2) as [c3 [H3 K3]]. exists c3. split; [exact H3|].
  exact (sameKind_trans _ _ _ K2 K3).
Qed.

(** Putting a node where there was none, or a file where there was a file,
    keeps the entries. *)
Lemma store_keepsEntries (q : path) (new n n' : node) :
  store q new n = Ok n' ->
  (forall old, resolve q n = Ok old ->
               exists data data', old = File data /\ new = File data') ->
  keepsEntries n n'.
Proof.
  revert n n'. induction q as [|x q IH]; intros n n' Hs Hold.
  - simpl in Hs. injection Hs as <-.
    destruct (Hold n eq_refl) as [data [data' [-> ->]]].
    intros [|y p] c H; simpl in H; [|discriminate].
    injection H as <-. exists (File data'). now split.
  - simpl in Hs. destruct n as [|es|]; try discriminate.
    assert (Hnew : forall c', (q = [] -> c' = new) ->
              (forall ch, assoc x es = Some ch -> keepsEntries ch c') ->
              keepsEntries (Dir es) (Dir (set_entry x c' es))).
    { intros c' _ Hch [|y p] c H.
      - simpl in H. injection H as <-. exists (Dir (set_entry x c' es)). now split.
      - simpl in H. simpl. destruct (String.eqb_spec x y) as [<-|Hne].
        + rewrite assoc_set_entry_same.
          destruct (assoc x es) as [ch|]; [|discriminate].
          exact (Hch ch eq_refl p c H).
        + rewrite (assoc_set_entry_other _ _ _ _ Hne).
          destruct (assoc y es) as [ch|]; [|discriminate].
          exists c. split; [exact H | apply sameKind_refl]. }
    destruct q as [|z q].
    + injection Hs as <-. apply Hnew; [auto|].
      intros ch Hch. specialize (Hold ch). simpl in Hold. rewrite Hch in Hold.
      destruct (Hold eq_refl) as [data [data' [-> ->]]].
      intros [|y p] c H; simpl in H; [|discriminate].
      injection H as <-. exists (File data'). now split.
    + destruct (assoc x es) as [ch|] eqn:Ex; [|discriminate].
      destruct (store (z :: q) new ch) as [ch'|] eqn:Es; [|discriminate].
      injection Hs as <-. apply Hnew; [discriminate|].
      intros ch0 Hch0. injection Hch0 as <-.
      apply (IH _ _ Es). intros old Hr. apply Hold.
      change (resolve (x :: z :: q) (Dir es))
        with (match assoc x es with
              | Some c => resolve (z :: q) c
              | None => Throw ENOENT
              end).
      now rewrite Ex.
Qed.

Lemma writeFileSync_keepsEntries (p : path) (data : string) (w : world) :
  keepsEntries (fs w) (fs (snd (writeFileSync p data w))).
Proof.
  unfold writeFileSync, on_fs.
  destruct (resolve p (fs w)) as [[old|es|]|e] eqn:Er;
    try apply keepsEntries_refl.
  - destruct (store p (File data) (fs w)) as [n'|] eqn:Es;
      [|apply keepsEntries_refl].
    apply (store_keepsEntries _ _ _ _ Es). intros o Ho.
    rewrite Er in Ho. injection Ho as <-. eauto.
  - destruct (store p (File data) (fs w)) as [n'|] eqn:Es;
      [|apply keepsEntries_refl].
    apply (store_keepsEntries _ _ _ _ Es). intros o Ho. congruence.
Qed.

Lemma mkdirSync_keepsEntries (p : path) (w : world) :
  keepsEntries (fs w) (fs (snd (mkdirSync p w))).
Proof.
  unfold mkdirSync, on_fs.
  destruct (resolve p (fs w)) as [old|e] eqn:Er; [apply keepsEntries_refl|].
  destruct (store p (Dir []) (fs w)) as [n'|] eqn:Es; [|apply keepsEntries_refl].
  apply (store_keepsEntries _ _ _ _ Es). intros o Ho. congruence.
Qed.

Lemma okNames_any (t : node) : okNames (fun _ => true) t = true.
Proof.
  induction t as [data|entries IH|] using node_entries_ind; try reflexivity.
  cbn [okNames]. induction IH as [|entry entries Hentry _ IHentries]; [reflexivity|].
  cbn [forallb]. now rewrite Hentry, IHentries.
Qed.

(** X19.  Composing a template, whatever it holds and whether it ends well
    or throws, removes nothing from the filesystem: every path that led to
    an entry before leads to an entry of the same kind (file, directory,
    other) after. *)
Theorem copyTemplate_removes_nothing :
  forall (template : node) (dest : path) (options : list string) (w : world)
         (p : path) (c : node),
    resolve p (fs w) = Ok c ->
    exists c',
      resolve p (fs (snd (copyTemplate template dest options w))) = Ok c' /\
      sameKind c c' = true.
Proof.
  intros template dest options w p c.
  apply (kept_copyTemplate (fun _ w1 w2 => keepsEntries (fs w1) (fs w2)) (fun _ => true)).
  - intros _ w1. apply keepsEntries_refl.
  - intros _ w1 w2 w3. apply keepsEntries_trans.
  - intros _ e w1. apply keepsEntries_refl.
  - intros d a data w1 _. apply writeFileSync_keepsEntries.
  - intros d a w1 _. apply mkdirSync_keepsEntries.
  - auto.
  - apply okNames_any.
Qed.

(** *** Nothing outside the destination is touched *)

(** The tree [n'] is [n], but for the node at [dest]. *)
Definition replacedAt (dest : path) (n n' : node) : Prop :=
  n' = n \/
  exists d', is_ok (resolve dest n) = true /\ store dest d' n = Ok n'.

(** Two paths part ways: neither leads through the other. *)
Fixpoint apart (p q : path) : bool :=
  match p, q with
  | x :: p', y :: q' => if x =? y then apart p' q' else true
  | _, _ => false
  end.

(** The names of the template are names of entries, as they are composed:
    none is empty, [.] or [..], or holds a [/]. *)
Definition safeNames (template : node) : bool := okNames validName template.

Lemma store_parent (dest : path) (file : string) (new n n' : node) :
  store (dest ++ [file]) new n = Ok n' ->
  exists entries, resolve dest n = Ok (Dir entries).
Proof.
  revert n n'. induction dest as [|x dest IH]; intros n n' H.
  - simpl in H. destruct n as [|es|]; try discriminate. simpl. eauto.
  - change ((x :: dest) ++ [file]) with (x :: (dest ++ [file])) in H.
    simpl in H. destruct n as [|es|]; try discriminate.
    destruct (dest ++ [file]) as [|y rest] eqn:E; [now destruct dest|].
    destruct (assoc x es) as [ch|] eqn:Ex; [|discriminate].
    destruct (store (y :: rest) new ch) as [ch'|] eqn:Es; [|discriminate].
    simpl. rewrite Ex. exact (IH _ _ Es).
Qed.

Lemma replacedAt_child (dest : path) (file : string) (new n n' : node) :
  store (dest ++ [file]) new n = Ok n' -> replacedAt dest n n'.
Proof.
  intros H. destruct (store_parent _ _ _ _ _ H) as [entries Hd].
  right. exists (Dir (set_entry file new entries)). rewrite Hd. split; [reflexivity|].
  now rewrite <- (store_child _ _ _ _ _ Hd).
Qed.

Lemma replacedAt_trans (dest : path) (n1 n2 n3 : node) :
  replacedAt dest n1 n2 -> replacedAt dest n2 n3 -> replacedAt dest n1 n3.
Proof.
  intros [->|[d2 [Hr2 Hs2]]] H23; [exact H23|].
  destruct H23 as [->|[d3 [Hr3 Hs3]]].
  - right. eauto.
  - right. exists d3. split; [exact Hr2|]. now rewrite <- (store_twice _ _ _ _ _ Hs2).
Qed.

Lemma resolve_store_apart (dest : path) (d' n n' : node) (p : path) :
  store dest d' n = Ok n' -> apart p dest = true -> resolve p n' = resolve p n.
Proof.
  revert n n' p. induction dest as [|x dest IH]; intros n n' p Hs Hp.
  - now destruct p.
  - destruct p as [|y p]; [discriminate|]. simpl in Hp.
    simpl in Hs. destruct n as [|es|]; try discriminate.
    destruct (String.eqb_spec y x) as [->|Hne].
    + destruct dest as [|z dest]; [now destruct p|].
      destruct (assoc x es) as [ch|] eqn:Ex; [|discriminate].
      destruct (store (z :: dest) d' ch) as [ch'|] eqn:Es; [|discriminate].
      injection Hs as <-. simpl. rewrite assoc_set_entry_same, Ex.
      exact (IH _ _ _ Es Hp).
    + assert (Hset : forall c', resolve (y :: p) (Dir (set_entry x c' es))
                                = resolve (y :: p) (Dir es)).
      { intros c'. simpl. rewrite assoc_set_entry_other; [reflexivity|].
        intros ->. now apply Hne. }
      destruct dest as [|z dest].
      * injection Hs as <-. apply Hset.
      * destruct (assoc x es) as [ch|] eqn:Ex; [|discriminate].
        destruct (store (z :: dest) d' ch) as [ch'|] eqn:Es; [|discriminate].
        injection Hs as <-. apply Hset.
Qed.

Lemma copyTemplate_replacedAt (template : node) (dest : path) (options : list string)
  (w : world) :
  safeNames template = true ->
  replacedAt dest (fs w) (fs (snd (copyTemplate template dest options w))).
Proof.
  intros Hsafe. revert w.
  apply (kept_copyTemplate (fun d w1 w2 => replacedAt d (fs w1) (fs w2)) validName).
  - intros d w1. now left.
  - intros d w1 w2 w3. apply replacedAt_trans.
  - intros d e w1. now left.
  - intros d a data w1 Ha. rewrite (path_join_validName _ _ Ha).
    unfold writeFileSync, on_fs.
    destruct (resolve (d ++ [a]) (fs w1)) as [[old|es|]|e]; try (now left);
      (destruct (store (d ++ [a]) (File data) (fs w1)) as [n'|] eqn:Es; [|now left]);
      exact (replacedAt_child _ _ _ _ _ Es).
  - intros d a w1 Ha. rewrite (path_join_validName _ _ Ha).
    unfold mkdirSync, on_fs.
    destruct (resolve (d ++ [a]) (fs w1)) as [old|e]; [now left|].
    destruct (store (d ++ [a]) (Dir []) (fs w1)) as [n'|] eqn:Es; [|now left].
    exact (replacedAt_child _ _ _ _ _ Es).
  - intros d a w1 w2 Ha. rewrite (path_join_validName _ _ Ha).
    intros [H|[d' [_ Hs]]]; [now left|].
    exact (replacedAt_child _ _ _ _ _ Hs).
  - exact Hsafe.
Qed.

(** X20.  A template whose names are names of entries is composed inside
    its destination: whether the composition ends well or throws, the
    filesystem after it is the one before but for the directory at the
    destination, and a path that parts ways with the destination leads
    where it led. *)
Theorem copyTemplate_stays_inside :
  forall (template : node) (dest : path) (options : list string) (w : world),
    safeNames template = true ->
    replacedAt dest (fs w) (fs (snd (copyTemplate template dest options w))) /\
    (forall p, apart p dest = true ->
               resolve p (fs (snd (copyTemplate template dest options w)))
               = resolve p (fs w)).
Proof.
  intros template dest options w Hsafe.
  pose proof (copyTemplate_replacedAt template dest options w Hsafe) as H.
  split; [exact H|]. intros p Hp.
  destruct H as [->|[d' [_ Hs]]]; [reflexivity|].
  exact (resolve_store_apart _ _ _ _ _ Hs Hp).
Qed.

(** *** A name that leads out of the destination *)

Lemma path_join_dot_dot (parent : path) (name : string) :
  path_join (parent ++ [name]) ".." = parent.
Proof.
  unfold path_join. change (split "/" "..") with [".."]. cbn [fold_left].
  unfold join_segment. change ((".." =? "") || (".." =? ".")) with false.
  change (".." =? "..") with true. cbv iota. apply removelast_last.
Qed.

(** X21.  A directory of the template named [._.] is composed under the
    name [..]: its files go to the parent of the destination, next to the
    destination, whether the destination is there or not. *)
Theorem copyTemplate_dot_underscore_dot_leaves_dest :
  forall (parent : path) (name : string) (children siblings : list (string * node))
         (options : list string) (w : world),
    plain (Dir children) = true ->
    resolve parent (fs w) = Ok (Dir siblings) ->
    (forall k, In k (map fst children) -> assoc k siblings = None) ->
    exists w',
      copyTemplate (Dir [("._.", Dir children)]) (parent ++ [name]) options w
      = (Ok tt, w') /\
      resolve parent (fs w') = Ok (Dir (siblings ++ children)) /\
      store parent (Dir (siblings ++ children)) (fs w) = Ok (fs w') /\
      trace w' = trace w.
Proof.
  intros parent name children siblings options w Hplain Hd Hfresh.
  destruct (plain_entries_compose parent options children
              (plain_entries_hypothesis options children) Hplain siblings w Hd Hfresh)
    as [n' [Hrun Hn']].
  exists (World n' (trace w)). repeat split; [| exact (resolve_store _ _ _ _ Hn') | exact Hn'].
  rewrite copyTemplate_Dir, forEach_cons. unfold copyTemplateEntry.
  change (replace_dot_underscore "._.") with "..".
  rewrite path_join_dot_dot.
  change ("._." =? ".tsukemono") with false. cbv iota.
  unfold bind at 1. unfold bind at 1. unfold existsSync. rewrite Hd.
  cbn [is_ok negb ret]. rewrite copyTemplate_Dir, Hrun. reflexivity.
Qed.

End Composer.

End Script.

Arguments JNull {number}.
Arguments JBool {number} b.
Arguments JNumber {number} n.
Arguments JString {number} s.
Arguments JArray {number} items.
Arguments JObject {number} props.
Arguments json_eqb {number} number_eqb a b.
Arguments dedupBy {number} same xs.
Arguments array_from_set {number} number_eqb xs.
Arguments isPrimitive {number} v.
Arguments customizer {number} number_eqb a b.
Arguments mergeWith {number} customize object source.

(** ** JSON text

    A reader and a printer of JSON text, to run the script on files: the
    reader takes the texts whose numbers are integers written without
    fraction or exponent and whose strings have no escapes (it refuses the
    rest), the printer writes what [JSON.stringify(v, null, 2)] writes for
    the values so read, the keys of an object in the order of its list. *)
Module JsonText.

Definition quote : ascii := "034".

Definition isSpace (c : ascii) : bool :=
  let n := nat_of_ascii c in
  (n =? 32)%nat || (n =? 9)%nat || (n =? 10)%nat || (n =? 13)%nat.

Fixpoint skip (s : string) : string :=
  match s with
  | String c s' => if isSpace c then skip s' else s
  | EmptyString => EmptyString
  end.

Definition isDigit (c : ascii) : bool :=
  let n := nat_of_ascii c in (48 <=? n)%nat && (n <=? 57)%nat.

(** The digits a text starts with, and what follows them. *)
Fixpoint digits (s : string) : list nat * string :=
  match s with
  | String c s' =>
      if isDigit c then
        let (ds, rest) := digits s' in (nat_of_ascii c - 48 :: ds, rest)
      else ([], s)
  | EmptyString => ([], EmptyString)
  end.

Definition number_of (ds : list nat) : Z :=
  fold_left (fun acc d => (10 * acc + Z.of_nat d)%Z) ds 0%Z.

(** An integer: an optional minus, then [0] or digits that do not start
    with [0]; no fraction and no exponent after it. *)
Definition number (s : string) : option (json Z * string) :=
  let (negative, body) :=
    match s with
    | String "-" s' => (true, s')
    | _ => (false, s)
    end in
  let (ds, rest) := digits body in
  let more :=
    match rest with
    | String c _ => Ascii.eqb c "." || Ascii.eqb c "e" || Ascii.eqb c "E"
    | EmptyString => false
    end in
  match ds with
  | [] => None
  | O :: _ :: _ => None
  | _ =>
      if more then None
      else Some (JNumber (if negative then - number_of ds else number_of ds)%Z, rest)
  end.

(** The characters of a string up to its closing quote; no backslash and
    no control character among them. *)
Fixpoint text (s : string) : option (string * string) :=
  match s with
  | EmptyString => None
  | String c s' =>
      if Ascii.eqb c quote then Some (EmptyString, s')
      else if Ascii.eqb c "\" || (nat_of_ascii c <? 32)%nat then None
      else match text s' with
           | Some (str, rest) => Some (String c str, rest)
           | None => None
           end
  end.

(** [word rest v s]: [v] when [s] goes on with [rest]. *)
Fixpoint word (rest : string) (v : json Z) (s : string) : option (json Z * string) :=
  match rest with
  | EmptyString => Some (v, s)
  | String c rest' =>
      match s with
      | String c' s' => if Ascii.eqb c c' then word rest' v s' else None
      | EmptyString => None
      end
  end.

Fixpoint value (fuel : nat) (s : string) {struct fuel} : option (json Z * string) :=
  match fuel with
  | O => None
  | S fuel' =>
      match skip s with
      | EmptyString => None
      | String c rest =>
          if Ascii.eqb c "n" then word "ull" JNull rest
          else if Ascii.eqb c "t" then word "rue" (JBool true) rest
          else if Ascii.eqb c "f" then word "alse" (JBool false) rest
          else if Ascii.eqb c quote then
            match text rest with
            | Some (str, rest') => Some (JString str, rest')
            | None => None
            end
          else if Ascii.eqb c "[" then
            match skip rest with
            | String "]" rest' => Some (JArray [], rest')
            | _ =>
                match items fuel' rest with
                | Some (vs, rest') => Some (JArray vs, rest')
                | None => None
                end
            end
          else if Ascii.eqb c "{" then
            match skip rest with
            | String "}" rest' => Some (JObject [], rest')
            | _ =>
                match members fuel' rest with
                | Some (ps, rest') =>
                    Some (JObject (fold_left (fun o p => set_entry (fst p) (snd p) o) ps []),
                          rest')
                | None => None
                end
            end
          else number (String c rest)
      end
  end
with items (fuel : nat) (s : string) {struct fuel} : option (list (json Z) * string) :=
  match fuel with
  | O => None
  | S fuel' =>
      match value fuel' s with
      | Some (v, rest) =>
          match skip rest with
          | String "," rest' =>
              match items fuel' rest' with
              | Some (vs, rest'') => Some (v :: vs, rest'')
              | None => None
              end
          | String "]" rest' => Some ([v], rest')
          | _ => None
          end
      | None => None
      end
  end
with members (fuel : nat) (s : string) {struct fuel}
  : option (list (string * json Z) * string) :=
  match fuel with
  | O => None
  | S fuel' =>
      match skip s with
      | String c rest =>
          if Ascii.eqb c quote then
            match text rest with
            | Some (key, rest1) =>
                match skip rest1 with
                | String ":" rest2 =>
                    match value fuel' rest2 with
                    | Some (v, rest3) =>
                        match skip rest3 with
                        | String "," rest4 =>
                            match members fuel' rest4 with
                            | Some (ps, rest5) => Some ((key, v) :: ps, rest5)
                            | None => None
                            end
                        | String "}" rest4 => Some ([(key, v)], rest4)
                        | _ => None
                        end
                    | None => None
                    end
                | _ => None
                end
            | None => None
            end
          else None
      | EmptyString => None
      end
  end.

Definition parse (s : string) : option (json Z) :=
  match value (2 * String.length s + 2) s with
  | Some (v, rest) =>
      match skip rest with
      | EmptyString => Some v
      | _ => None
      end
  | None => None
  end.

Definition hexDigit (n : nat) : ascii :=
  ascii_of_nat (if (n <? 10)%nat then 48 + n else 87 + n).

(** A character inside a printed string. *)
Definition escape (c : ascii) : string :=
  let n := nat_of_ascii c in
  if Ascii.eqb c quote then String "\" (String quote EmptyString)
  else if Ascii.eqb c "\" then "\\"
  else if (n =? 8)%nat then "\b"
  else if (n =? 9)%nat then "\t"
  else if (n =? 10)%nat then "\n"
  else if (n =? 12)%nat then "\f"
  else if (n =? 13)%nat then "\r"
  else if (n <? 32)%nat then
    ("\u00" ++ String (hexDigit (n / 16)) (String (hexDigit (n mod 16)) EmptyString))%string
  else String c EmptyString.

Fixpoint escaped (s : string) : string :=
  match s with
  | EmptyString => EmptyString
  | String c s' => (escape c ++ escaped s')%string
  end.

Definition quoted (s : string) : string :=
  String quote (escaped s ++ String quote EmptyString)%string.

Fixpoint decimal (fuel : nat) (n : nat) (acc : string) : string :=
  match fuel with
  | O => acc
  | S fuel' =>
      let acc' := String (ascii_of_nat (48 + n mod 10)) acc in
      if (n <? 10)%nat then acc' else decimal fuel' (n / 10) acc'
  end.

Definition integer (n : Z) : string :=
  let digits := decimal (S (Z.to_nat (Z.abs n))) (Z.to_nat (Z.abs n)) EmptyString in
  if (n <? 0)%Z then String "-" digits else digits.

Fixpoint join (sep : string) (parts : list string) : string :=
  match parts with
  | [] => EmptyString
  | [p] => p
  | p :: rest => (p ++ sep ++ join sep rest)%string
  end.

Definition newline : string := String "010" EmptyString.

Fixpoint stringify_at (indent : string) (v : json Z) {struct v} : string :=
  let inner := (indent ++ "  ")%string in
  let sep := ("," ++ newline ++ inner)%string in
  match v with
  | JNull => "null"
  | JBool true => "true"
  | JBool false => "false"
  | JNumber n => integer n
  | JString s => quoted s
  | JArray [] => "[]"
  | JArray items =>
      ("[" ++ newline ++ inner ++ join sep (map (stringify_at inner) items)
       ++ newline ++ indent ++ "]")%string
  | JObject [] => "{}"
  | JObject props =>
      ("{" ++ newline ++ inner
       ++ join sep (map (fun p : string * json Z =>
                           quoted (fst p) ++ ": " ++ stringify_at inner (snd p)) props)
       ++ newline ++ indent ++ "}")%string
  end.

Definition stringify (v : json Z) : string := stringify_at EmptyString v.

(** JSON text written with [']  for the double quote. *)
Fixpoint ofSingleQuoted (s : string) : string :=
  match s with
  | EmptyString => EmptyString
  | String c s' =>
      String (if Ascii.eqb c "'" then quote else c) (ofSingleQuoted s')
  end.

End JsonText.

(** ** The script at work *)

Module Run.

(** The script with the reader and printer above. *)
Definition copyTemplate := copyTemplate Z Z.eqb JsonText.parse JsonText.stringify.
Definition copyTemplateEntry :=
  copyTemplateEntry Z Z.eqb JsonText.parse JsonText.stringify copyTemplate.
Definition copyTemplateFile := copyTemplateFile Z Z.eqb JsonText.parse JsonText.stringify.
Definition mergeFile := mergeFile Z Z.eqb JsonText.parse JsonText.stringify.
Definition mergeJsonFile := mergeJsonFile Z Z.eqb JsonText.parse JsonText.stringify.
Definition init := init Z Z.eqb JsonText.parse JsonText.stringify.

(** A destination that holds a read-me already. *)
Definition withReadme : world := World (Dir [("README.md", File "old")]) [].

(** An empty destination directory [/app]. *)
Definition emptyApp : world := World (Dir [("app", Dir [])]) [].

(** A destination with a [.gitignore] and a [.eslintrc]. *)
Definition withDotFiles : world :=
  World (Dir [(".gitignore", File "node_modules");
              (".eslintrc", File (JsonText.ofSingleQuoted "{'extends':['a','b']}"))]) [].

(** A destination whose [.eslintrc] has, next to its [extends] list, an
    object with a number for [length]. *)
Definition withLength : world :=
  World (Dir [(".eslintrc",
               File (JsonText.ofSingleQuoted
                       "{'extends':['a','b'],'box':{'length':1}}"))]) [].

(** A destination whose [package.json] lists one file pattern as an
    object. *)
Definition withPackage : world :=
  World (Dir [("package.json",
               File (JsonText.ofSingleQuoted "{'overrides':[{'files':'*.ts'}]}"))]) [].

(** Templates in the layout of the package: a base with a read-me, a git
    ignore file under its [._] name, a source directory, and an override
    for eslint; and the template of the option eslint. *)
Definition templates : node :=
  Dir [("repo-base",
        Dir [("README.md", File "hello");
             ("._gitignore", File "node_modules");
             ("src", Dir [("index.ts", File "export {}")]);
             (".tsukemono",
              Dir [("with-eslint", Dir [("lint.md", File "how to lint")])])]);
       ("with-eslint",
        Dir [(".eslintrc", File (JsonText.ofSingleQuoted "{'extends':['b','c']}"))]);
       ("with-prettier",
        Dir [(".prettierrc", File "{}")])].

(** The user, started in [/home] with no argument, names the project
    [app] and ticks eslint and prettier; [app] exists and is empty. *)
Definition home : world := World (Dir [("home", Dir [("app", Dir [])])]) [].
Definition ticked : answers := Answers "app" true ["eslint"; "prettier"].

(** The same user in front of an [app] that holds a file, saying no. *)
Definition homeInUse : world :=
  World (Dir [("home", Dir [("app", Dir [("notes.txt", File "mine")])])]) [].
Definition refusing : answers := Answers "app" false ["eslint"].

End Run.

(** ** The claims at work *)




(** C3 as stated fails: the two files list the same pattern, an object;
    the merged list holds it twice, where the union without duplicates
    holds it once. *)
Lemma merged_array_keeps_equal_objects :
  Run.mergeJsonFile ["package.json"]
    (JsonText.ofSingleQuoted "{'overrides':[{'files':'*.ts'}]}") Run.withPackage
  = (Ok tt,
     World (Dir [("package.json",
                  File (JsonText.ofSingleQuoted "{
  'overrides': [
    {
      'files': '*.ts'
    },
    {
      'files': '*.ts'
    }
  ]
}"))]) []) /\
  dedupBy (json_eqb Z.eqb) ([JObject [("files", JString "*.ts")]]
                    ++ [JObject [("files", JString "*.ts")]])
  = [JObject [("files", JString "*.ts")]].
Proof. split; vm_compute; reflexivity. Qed.

(** C3 (amended) at work: two [.eslintrc] files that extend [a], [b] and
    [b], [c]; the destination's has an array-like object besides, which no
    array of the template meets. *)
Lemma mergeJsonFile_array_union_witness :
  exists (merged : list (string * json Z)) (w' : world),
    mergeWith (customizer Z.eqb)
      (JObject [("extends", JArray [JString "a"; JString "b"]);
                ("box", JObject [("length", JNumber 1%Z)])])
      (JObject [("extends", JArray [JString "b"; JString "c"])])
    = Some (JObject merged) /\
    Run.mergeJsonFile [".eslintrc"] (JsonText.ofSingleQuoted "{'extends':['b','c']}")
      Run.withLength = (Ok tt, w') /\
    resolve [".eslintrc"] (fs w') = Ok (File (JsonText.stringify (JObject merged))) /\
    assoc "extends" merged
    = Some (JArray (array_from_set Z.eqb
                      ([JString "a"; JString "b"] ++ [JString "b"; JString "c"]))) /\
    (forallb (@isPrimitive Z) ([JString "a"; JString "b"] ++ [JString "b"; JString "c"])
     = true ->
     array_from_set Z.eqb ([JString "a"; JString "b"] ++ [JString "b"; JString "c"])
     = dedupBy (json_eqb Z.eqb) ([JString "a"; JString "b"] ++ [JString "b"; JString "c"])).
Proof.
  exact (mergeJsonFile_array_union Z Z.eqb JsonText.parse JsonText.stringify
           [".eslintrc"] (JsonText.ofSingleQuoted "{'extends':['b','c']}")
           (JsonText.ofSingleQuoted "{'extends':['a','b'],'box':{'length':1}}")
           [("extends", JArray [JString "a"; JString "b"]);
            ("box", JObject [("length", JNumber 1%Z)])]
           [("extends", JArray [JString "b"; JString "c"])]
           "extends" [JString "a"; JString "b"] [JString "b"; JString "c"]
           Run.withLength
           eq_refl eq_refl eq_refl eq_refl eq_refl eq_refl eq_refl eq_refl).
Defined.

(** Why the key of C3 (amended) is not [__proto__]: lodash passes an array
    under that key over, and the destination keeps its own. *)
Lemma proto_key_is_passed_over :
  mergeWith (customizer Z.eqb)
    (JObject [("__proto__", JArray [JString "a"])])
    (JObject [("__proto__", JArray [JString "b"])])
  = Some (JObject [("__proto__", JArray [JString "a"])]).
Proof. reflexivity. Qed.

(** Why no array of the template may meet an array-like object of the
    destination in C3 (amended): lodash copies such an object into an array
    and fills it by index, which the embedding leaves out. *)
Lemma array_on_array_like_is_left_out :
  mergeWith (customizer Z.eqb)
    (JObject [("files", JObject [("length", JNumber 1%Z)])])
    (JObject [("files", JArray [JString "a"])])
  = None.
Proof. reflexivity. Qed.

(** C4 at work: a [.gitignore] of the template met by one in the
    destination. *)
Lemma appendFiles_writes_nothing_witness :
  fs (snd (appendFiles [".gitignore"] "dist" Run.withDotFiles)) = fs Run.withDotFiles /\
  fs (snd (Run.copyTemplateFile [] ".gitignore" "dist" Run.withDotFiles))
  = fs Run.withDotFiles.
Proof.
  destruct (appendFiles_writes_nothing Z Z.eqb JsonText.parse JsonText.stringify
              [".gitignore"] "dist" Run.withDotFiles) as [H1 [_ H3]].
  split; [exact H1 | exact (H3 [] ".gitignore" eq_refl eq_refl)].
Defined.

(** C5 as stated fails: with eslint and prettier ticked, the base
    template is composed with both as its options, not with none. *)
Lemma base_template_gets_the_selection :
  fst (Run.init None Run.ticked ["home"] Run.templates Run.home) = Ok tt /\
  composed (trace (snd (Run.init None Run.ticked ["home"] Run.templates Run.home)))
  = [("repo-base", ["eslint"; "prettier"]);
     ("with-eslint", []);
     ("with-prettier", ["eslint"])].
Proof. split; vm_compute; reflexivity. Qed.

(** C5 (amended) at work: the same run. *)
Lemma init_compose_calls_witness :
  composed (trace (snd (Run.init None Run.ticked ["home"] Run.templates Run.home)))
  = composed (trace Run.home) ++ composeCalls (options Run.ticked).
Proof.
  apply (init_compose_calls Z Z.eqb JsonText.parse JsonText.stringify
           None Run.ticked ["home"] Run.templates Run.home); [reflexivity|].
  vm_compute. reflexivity.
Defined.

(** C6 at work: [/home/app] holds [notes.txt] and the user says no. *)
Lemma init_declined_witness :
  exists w',
    Run.init None Run.refusing ["home"] Run.templates Run.homeInUse = (Ok tt, w') /\
    fs w' = fs Run.homeInUse /\
    composed (trace w') = composed (trace Run.homeInUse).
Proof.
  exact (init_declined Z Z.eqb JsonText.parse JsonText.stringify
           None Run.refusing ["home"] Run.templates ("notes.txt", File "mine") []
           Run.homeInUse eq_refl eq_refl).
Defined.

(** C7 at work: the strategy of [.gitignore], and a strategy [yaml] that
    the table does not have. *)
Lemma merge_strategy_dispatch_witness :
  (assoc ".gitignore" mergeFiles = Some "json" \/
   assoc ".gitignore" mergeFiles = Some "append") /\
  Run.mergeFile (Some "yaml") [".travis.yml"] "language: node_js" Run.withReadme
  = (Throw (UnhandledCaseError "Unhandled file merge strategy"), Run.withReadme).
Proof.
  destruct (merge_strategy_dispatch Z Z.eqb JsonText.parse JsonText.stringify) as [H1 [_ H3]].
  split.
  - exact (H1 ".gitignore" eq_refl).
  - apply H3; discriminate.
Defined.

(** C8 as stated fails: the base template composed into the empty [/app]
    leaves a [.gitignore] where the template has [._gitignore], and
    nothing of the template's [.tsukemono] directory. *)
Lemma base_template_is_not_reproduced :
  resolve ["repo-base"] Run.templates
  = Ok (Dir [("README.md", File "hello");
             ("._gitignore", File "node_modules");
             ("src", Dir [("index.ts", File "export {}")]);
             (".tsukemono",
              Dir [("with-eslint", Dir [("lint.md", File "how to lint")])])]) /\
  Run.copyTemplate
    (Dir [("README.md", File "hello");
          ("._gitignore", File "node_modules");
          ("src", Dir [("index.ts", File "export {}")]);
          (".tsukemono",
           Dir [("with-eslint", Dir [("lint.md", File "how to lint")])])])
    ["app"] [] Run.emptyApp
  = (Ok tt,
     World (Dir [("app",
                  Dir [("README.md", File "hello");
                       (".gitignore", File "node_modules");
                       ("src", Dir [("index.ts", File "export {}")])])]) []).
Proof. split; reflexivity. Qed.

(** C8 (amended) at work: a read-me and a source directory. *)
Lemma copyTemplate_plain_into_empty_witness :
  exists w',
    Run.copyTemplate
      (Dir [("README.md", File "hello"); ("src", Dir [("index.ts", File "export {}")])])
      ["app"] ["eslint"] Run.emptyApp = (Ok tt, w') /\
    resolve ["app"] (fs w')
    = Ok (Dir [("README.md", File "hello"); ("src", Dir [("index.ts", File "export {}")])]) /\
    store ["app"]
      (Dir [("README.md", File "hello"); ("src", Dir [("index.ts", File "export {}")])])
      (fs Run.emptyApp) = Ok (fs w') /\
    trace w' = trace Run.emptyApp.
Proof.
  exact (copyTemplate_plain_into_empty Z Z.eqb JsonText.parse JsonText.stringify
           [("README.md", File "hello"); ("src", Dir [("index.ts", File "export {}")])]
           ["app"] ["eslint"] Run.emptyApp eq_refl eq_refl).
Defined.



(** ** More of the script at work *)

Module Shelf.

(** [/home] without an [app]. *)
Definition homeBare : world := World (Dir [("home", Dir [])]) [].

(** A user who names the project [app/], says yes and ticks nothing. *)
Definition plainUser : answers := Answers "app/" true [].

(** A base template of plain files and directories. *)
Definition plainBase : list (string * node) :=
  [("README.md", File "hello"); ("src", Dir [("index.ts", File "export {}")])].

Definition plainTemplates : node := Dir [("repo-base", Dir plainBase)].

(** The base template of [Run.templates]. *)
Definition base : node :=
  Dir [("README.md", File "hello");
       ("._gitignore", File "node_modules");
       ("src", Dir [("index.ts", File "export {}")]);
       (".tsukemono",
        Dir [("with-eslint", Dir [("lint.md", File "how to lint")])])].

(** A destination that has the read-me of the template and notes of its
    own. *)
Definition composedOnce : world :=
  World (Dir [("README.md", File "hello"); ("notes.txt", File "mine")]) [].

(** A destination where [src] is a directory. *)
Definition withSrc : world := World (Dir [("src", Dir [])]) [].

Definition composeTemplates :=
  composeTemplates Z Z.eqb JsonText.parse JsonText.stringify.

End Shelf.

(** The target as [init] prints it: [path.join] keeps a [/] at the end of
    the name, and the root is [/]. *)
Lemma path_join_text_examples :
  path_join_text ["home"] "app" = "/home/app" /\
  path_join_text ["home"] "app/" = "/home/app/" /\
  path_join_text ["home"] "./app/../web" = "/home/web" /\
  path_join_text [] "" = "/".
Proof. repeat split. Qed.

(** X1 at work: [/home/app] with its [notes.txt]. *)
Lemma emptyDir_clears_witness :
  exists w',
    emptyDir ["home"; "app"] Run.homeInUse = (Ok tt, w') /\
    resolve ["home"; "app"] (fs w') = Ok (Dir []) /\
    store ["home"; "app"] (Dir []) (fs Run.homeInUse) = Ok (fs w') /\
    trace w' = trace Run.homeInUse.
Proof.
  exact (emptyDir_clears ["home"; "app"] [("notes.txt", File "mine")] Run.homeInUse
           eq_refl eq_refl).
Defined.

(** X2 at work: the project [app] in a [/home] that has none. *)
Lemma init_creates_target_witness :
  resolve (path_join ["home"] (targetDirOf None Run.ticked))
    (Dir [("home", Dir [("app", Dir [])])]) = Ok (Dir []) /\
  Run.init None Run.ticked ["home"] Run.templates Shelf.homeBare
  = Shelf.composeTemplates Run.templates (path_join ["home"] (targetDirOf None Run.ticked))
      (path_join_text ["home"] (targetDirOf None Run.ticked)) Run.ticked
      (World (Dir [("home", Dir [("app", Dir [])])])
         (trace Shelf.homeBare ++ namePrompt None)).
Proof.
  exact (init_creates_target Z Z.eqb JsonText.parse JsonText.stringify
           None Run.ticked ["home"] Run.templates
           (Dir [("home", Dir [("app", Dir [])])]) Shelf.homeBare eq_refl eq_refl).
Defined.

(** X3 at work: [/home/app] holds [notes.txt] and the user says yes. *)
Lemma init_confirmed_clears_witness :
  exists n1,
    store (path_join ["home"] (targetDirOf None Run.ticked)) (Dir []) (fs Run.homeInUse)
    = Ok n1 /\
    Run.init None Run.ticked ["home"] Run.templates Run.homeInUse
    = Shelf.composeTemplates Run.templates
        (path_join ["home"] (targetDirOf None Run.ticked))
        (path_join_text ["home"] (targetDirOf None Run.ticked)) Run.ticked
        (World n1 ((trace Run.homeInUse ++ namePrompt None) ++ [Prompt "yes"])).
Proof.
  exact (init_confirmed_clears Z Z.eqb JsonText.parse JsonText.stringify
           None Run.ticked ["home"] Run.templates ("notes.txt", File "mine") []
           Run.homeInUse eq_refl eq_refl eq_refl).
Defined.

(** X4 at work: nothing ticked, a plain base template, an empty
    [/home/app] that the user names [app/]. *)
Lemma init_scaffolds_base_witness :
  exists w',
    Run.init None Shelf.plainUser ["home"] Shelf.plainTemplates Run.home = (Ok tt, w') /\
    resolve ["home"; "app"] (fs w') = Ok (Dir Shelf.plainBase) /\
    store ["home"; "app"] (Dir Shelf.plainBase) (fs Run.home) = Ok (fs w') /\
    trace w'
    = (trace Run.home ++ [Prompt "name"])
      ++ [Prompt "options"; Compose "repo-base" [];
          ConsoleLog (String "010" "Bootstrapping repo in /home/app/")].
Proof.
  apply (init_scaffolds_base Z Z.eqb JsonText.parse JsonText.stringify
           None Shelf.plainUser ["home"] Shelf.plainTemplates Shelf.plainBase Run.home
           (fs Run.home) (namePrompt None)); try reflexivity.
  left. repeat split.
Defined.

(** X5 at work: a tree copied to the empty [/app]. *)
Lemma copyDir_copies_tree_witness :
  exists w',
    copyDir (Dir Shelf.plainBase) ([] ++ ["app"]) Run.emptyApp = (Ok tt, w') /\
    resolve ([] ++ ["app"]) (fs w') = Ok (Dir Shelf.plainBase) /\
    store [] (Dir (set_entry "app" (Dir Shelf.plainBase) [("app", Dir [])]))
      (fs Run.emptyApp) = Ok (fs w') /\
    trace w' = trace Run.emptyApp.
Proof.
  exact (copyDir_copies_tree [] "app" Shelf.plainBase [("app", Dir [])] Run.emptyApp
           eq_refl eq_refl (or_intror eq_refl)).
Defined.

(** X6 at work: the same tree composed into the empty [/app]. *)
Lemma copyTemplate_agrees_with_copyDir_witness :
  Run.copyTemplate (Dir Shelf.plainBase) ([] ++ ["app"]) ["eslint"] Run.emptyApp
  = copyDir (Dir Shelf.plainBase) ([] ++ ["app"]) Run.emptyApp.
Proof.
  exact (copyTemplate_agrees_with_copyDir Z Z.eqb JsonText.parse JsonText.stringify
           [] "app" Shelf.plainBase [("app", Dir [])] ["eslint"] Run.emptyApp
           eq_refl eq_refl eq_refl).
Defined.

(** X7 at work: a licence composed next to the read-me of the
    destination. *)
Lemma copyTemplate_keeps_other_entries_witness :
  exists w',
    Run.copyTemplate (Dir [("LICENSE", File "MIT")]) [] [] Run.withReadme = (Ok tt, w') /\
    resolve [] (fs w')
    = Ok (Dir ([("README.md", File "old")] ++ [("LICENSE", File "MIT")])) /\
    store [] (Dir ([("README.md", File "old")] ++ [("LICENSE", File "MIT")]))
      (fs Run.withReadme) = Ok (fs w') /\
    trace w' = trace Run.withReadme.
Proof.
  apply (copyTemplate_keeps_other_entries Z Z.eqb JsonText.parse JsonText.stringify
           [("LICENSE", File "MIT")] [("README.md", File "old")] [] [] Run.withReadme);
    [reflexivity | reflexivity |].
  intros k [<-|[]]. reflexivity.
Defined.

(** X8 at work: the read-me composed a second time. *)
Lemma copyTemplate_again_changes_nothing_witness :
  Run.copyTemplate (Dir [("README.md", File "hello")]) [] ["eslint"] Shelf.composedOnce
  = (Ok tt, Shelf.composedOnce).
Proof.
  exact (copyTemplate_again_changes_nothing Z Z.eqb JsonText.parse JsonText.stringify
           [("README.md", File "hello")] (fs Shelf.composedOnce) [] ["eslint"]
           Shelf.composedOnce eq_refl eq_refl eq_refl eq_refl).
Defined.

(** X9 at work: a file [src] of the template and a directory [src] of the
    destination. *)
Lemma copyTemplate_file_onto_directory_witness :
  Run.copyTemplate (Dir [("src", File "x"); ("README.md", File "hello")]) [] []
    Shelf.withSrc
  = (Throw EISDIR, Shelf.withSrc).
Proof.
  exact (copyTemplate_file_onto_directory Z Z.eqb JsonText.parse JsonText.stringify
           [] [] "src" "x" [("README.md", File "hello")] [("src", Dir [])] []
           Shelf.withSrc eq_refl eq_refl eq_refl).
Defined.

(** X10 at work: the overrides of the base template, eslint ticked, and
    the empty [/app]. *)
Lemma overrides_flattened_witness :
  exists w',
    Run.copyTemplateEntry ["app"] ["eslint"]
      (".tsukemono", Dir [("with-eslint", Dir [("lint.md", File "how to lint")])])
      Run.emptyApp = (Ok tt, w') /\
    resolve ["app"] (fs w') = Ok (Dir ([] ++ [("lint.md", File "how to lint")])) /\
    trace w' = trace Run.emptyApp.
Proof.
  destruct (overrides_flattened Z Z.eqb JsonText.parse JsonText.stringify
              ["app"] ["eslint"]
              [("with-eslint", Dir [("lint.md", File "how to lint")])] Run.emptyApp)
    as [_ H].
  apply (H "with-eslint" [("lint.md", File "how to lint")] []);
    [reflexivity | reflexivity | reflexivity |].
  intros k [<-|[]]. reflexivity.
Defined.

(** X11 at work: an [.eslintrc] of the template that is no JSON. *)
Lemma copyTemplateFile_all_or_nothing_witness :
  snd (Run.copyTemplateFile [] ".eslintrc" "extends: a" Run.withDotFiles)
  = Run.withDotFiles.
Proof.
  exact (copyTemplateFile_all_or_nothing Z Z.eqb JsonText.parse JsonText.stringify
           [] ".eslintrc" "extends: a" Run.withDotFiles eq_refl).
Defined.

(** X12 at work: the two [.eslintrc] files again. *)
Lemma mergeJsonFile_writes_merge_witness :
  exists w',
    Run.mergeJsonFile [".eslintrc"] (JsonText.ofSingleQuoted "{'extends':['b','c']}")
      Run.withDotFiles = (Ok tt, w') /\
    store [".eslintrc"]
      (File (JsonText.stringify
               (JObject [("extends", JArray [JString "a"; JString "b"; JString "c"])])))
      (fs Run.withDotFiles) = Ok (fs w') /\
    resolve [".eslintrc"] (fs w')
    = Ok (File (JsonText.stringify
                  (JObject [("extends", JArray [JString "a"; JString "b"; JString "c"])]))) /\
    trace w' = trace Run.withDotFiles.
Proof.
  destruct (mergeJsonFile_writes_merge Z Z.eqb JsonText.parse JsonText.stringify
              [".eslintrc"] (JsonText.ofSingleQuoted "{'extends':['b','c']}")
              (JsonText.ofSingleQuoted "{'extends':['a','b']}") Run.withDotFiles eq_refl)
    as [H _].
  exact (H (JObject [("extends", JArray [JString "a"; JString "b"])])
           (JObject [("extends", JArray [JString "b"; JString "c"])])
           (JObject [("extends", JArray [JString "a"; JString "b"; JString "c"])])
           eq_refl eq_refl eq_refl).
Defined.

(** X13 at work: the template names the package, the destination marks it
    private. *)
Lemma merge_keeps_destination_keys_witness :
  assoc "private" [("name", JString "tpl"); ("private", JBool true)]
  = assoc "private" [("name", @JString Z "app"); ("private", JBool true)].
Proof.
  exact (merge_keeps_destination_keys Z Z.eqb
           [("name", JString "app"); ("private", JBool true)]
           [("name", JString "tpl")]
           [("name", JString "tpl"); ("private", JBool true)]
           "private" eq_refl eq_refl).
Defined.

(** X14 at work: the same two documents, the name. *)
Lemma merge_template_primitive_wins_witness :
  assoc "name" [("name", @JString Z "tpl"); ("private", JBool true)]
  = Some (JString "tpl").
Proof.
  apply (merge_template_primitive_wins Z Z.eqb
           [("name", JString "app"); ("private", JBool true)]
           [("name", JString "tpl")]
           [("name", JString "tpl"); ("private", JBool true)]
           "name" (JString "tpl")); try reflexivity.
  intros xs H. discriminate H.
Defined.

(** X15 at work: a list of files in the destination, one file in the
    template. *)
Lemma merge_array_absorbs_primitive_witness :
  assoc "files" [("files", JArray [@JString Z "a"; JString "b"])]
  = Some (JArray (array_from_set Z.eqb ([JString "a"] ++ [JString "b"]))).
Proof.
  exact (merge_array_absorbs_primitive Z Z.eqb
           [("files", JArray [JString "a"])]
           [("files", JString "b")]
           [("files", JArray [JString "a"; JString "b"])]
           "files" [JString "a"] (JString "b")
           eq_refl eq_refl eq_refl eq_refl eq_refl eq_refl).
Defined.

(** X16 at work: the [extends] lists under [eslintConfig] of two
    [package.json] files. *)
Lemma merge_unites_nested_arrays_witness :
  atPath Z (["eslintConfig"] ++ ["extends"])
    (JObject [("eslintConfig",
               JObject [("extends", JArray [JString "a"; JString "b"; JString "c"])])])
  = Some (JArray (array_from_set Z.eqb
                    ([JString "a"; JString "b"] ++ [JString "b"; JString "c"]))).
Proof.
  exact (merge_unites_nested_arrays Z Z.eqb
           [("eslintConfig", JObject [("extends", JArray [JString "a"; JString "b"])])]
           [("eslintConfig", JObject [("extends", JArray [JString "b"; JString "c"])])]
           [("eslintConfig",
             JObject [("extends", JArray [JString "a"; JString "b"; JString "c"])])]
           ["eslintConfig"] "extends" [JString "a"; JString "b"] [JString "b"; JString "c"]
           eq_refl eq_refl eq_refl eq_refl eq_refl).
Defined.

(** X17 at work: scripts that only the template has. *)
Lemma merge_takes_template_value_witness :
  assoc "scripts"
    [("name", @JString Z "app"); ("scripts", JObject [("build", JString "tsc")])]
  = Some (JObject [("build", JString "tsc")]).
Proof.
  exact (merge_takes_template_value Z Z.eqb
           [("name", JString "app")]
           [("scripts", JObject [("build", JString "tsc")])]
           [("name", JString "app"); ("scripts", JObject [("build", JString "tsc")])]
           "scripts" (JObject [("build", JString "tsc")])
           eq_refl eq_refl eq_refl eq_refl eq_refl eq_refl).
Defined.

(** X19 at work: the read-me of the destination, after a composition that
    writes over it. *)
Lemma copyTemplate_removes_nothing_witness :
  exists c',
    resolve ["README.md"]
      (fs (snd (Run.copyTemplate (Dir [("README.md", File "new")]) [] [] Run.withReadme)))
    = Ok c' /\
    sameKind (File "old") c' = true.
Proof.
  exact (copyTemplate_removes_nothing Z Z.eqb JsonText.parse JsonText.stringify
           (Dir [("README.md", File "new")]) [] [] Run.withReadme
           ["README.md"] (File "old") eq_refl).
Defined.

(** X20 at work: the base template composed into [/home/app]. *)
Lemma copyTemplate_stays_inside_witness :
  replacedAt ["home"; "app"] (fs Run.home)
    (fs (snd (Run.copyTemplate Shelf.base ["home"; "app"] ["eslint"] Run.home))) /\
  (forall p, apart p ["home"; "app"] = true ->
             resolve p (fs (snd (Run.copyTemplate Shelf.base ["home"; "app"] ["eslint"]
                                   Run.home)))
             = resolve p (fs Run.home)).
Proof.
  exact (copyTemplate_stays_inside Z Z.eqb JsonText.parse JsonText.stringify
           Shelf.base ["home"; "app"] ["eslint"] Run.home eq_refl).
Defined.

(** X21 at work: a template with a directory [._.], composed into
    [/home/app], writes to [/home]. *)
Lemma copyTemplate_dot_underscore_dot_leaves_dest_witness :
  exists w',
    Run.copyTemplate (Dir [("._.", Dir [("profile", File "x")])]) (["home"] ++ ["app"]) []
      Run.home = (Ok tt, w') /\
    resolve ["home"] (fs w') = Ok (Dir ([("app", Dir [])] ++ [("profile", File "x")])) /\
    store ["home"] (Dir ([("app", Dir [])] ++ [("profile", File "x")])) (fs Run.home)
    = Ok (fs w') /\
    trace w' = trace Run.home.
Proof.
  apply (copyTemplate_dot_underscore_dot_leaves_dest Z Z.eqb JsonText.parse
           JsonText.stringify
           ["home"] "app" [("profile", File "x")] [("app", Dir [])] [] Run.home);
    [reflexivity | reflexivity |].
  intros k [<-|[]]. reflexivity.
Defined.
